(** * ZEP break bot (main.py): command normaliser, guards, send arbiter, scanner

    A shallow embedding of [main.py] and the properties of its
    specification.

    Conventions of the embedding.
    - A Python [str] is a list of Unicode code points ([list N]); literals
      are written as UTF-8 strings and decoded with [u].
    - [time.time()] and every duration are exact rationals ([Q], seconds);
      the clock is part of the state and moves in [asyncio.sleep] only.
    - [int] of a string of decimal digits raises beyond the interpreter's
      limit on the number of digits, 4300 by default.
    - The Unicode database of the interpreter (decimal digits, [str.isdigit],
      alphanumerics, [str.lower]) is a parameter, class [UnicodeDb]; what the
      proofs use of it is collected in [UnicodeLaws].  White space is the
      interpreter's fixed table and is written out.
    - The browser page is an oracle: every Playwright call returns what the
      oracle says, or raises.  The elements that carry [data-bot-seen] are a
      set in the state; only the bot writes that attribute.
    - Coroutines run to their end one after the other; a timer task is the
      record of what it will announce.
    - The file has the definitions first (text, patterns, state, operations,
      the notions the statements use, concrete pages), then the properties. *)

From Stdlib Require Import QArith Lqa.
From stdpp Require Import base numbers list strings gmap pretty.

Set Default Proof Using "Type*".
Local Open Scope N_scope.

(** ** Outcomes *)

(** A call returns a value or raises. *)
Inductive res (A : Type) : Type :=
| Ok (a : A)
| Raise.
Arguments Ok {A} a.
Arguments Raise {A}.

(** ** Python strings as code points *)

Abbreviation pystr := (list N).

Definition bytes_of (s : string) : list N :=
  (fun a => Ascii.N_of_ascii a) <$> String.list_ascii_of_string s.

(** UTF-8 decoding of the literals of this file (well-formed input only). *)
Fixpoint utf8_decode (bs : list N) : pystr :=
  match bs with
  | [] => []
  | b :: r =>
    if b <? 128 then b :: utf8_decode r
    else if b <? 224 then
      match r with
      | b1 :: r1 => (N.land b 31 * 64 + N.land b1 63) :: utf8_decode r1
      | _ => []
      end
    else if b <? 240 then
      match r with
      | b1 :: b2 :: r2 =>
        (N.land b 15 * 4096 + N.land b1 63 * 64 + N.land b2 63) :: utf8_decode r2
      | _ => []
      end
    else
      match r with
      | b1 :: b2 :: b3 :: r3 =>
        (N.land b 7 * 262144 + N.land b1 63 * 4096 + N.land b2 63 * 64
         + N.land b3 63) :: utf8_decode r3
      | _ => []
      end
  end.

Definition u (s : string) : pystr := utf8_decode (bytes_of s).

(** [str(n)] for an integer. *)
Definition py_str_of_Z (n : Z) : pystr := bytes_of (pretty n).

(** [a in b] for strings. *)
Fixpoint py_prefix (a b : pystr) : bool :=
  match a, b with
  | [], _ => true
  | x :: a', y :: b' => (x =? y) && py_prefix a' b'
  | _ :: _, [] => false
  end.

Fixpoint py_in (a b : pystr) : bool :=
  py_prefix a b ||
  match b with
  | [] => false
  | _ :: b' => py_in a b'
  end.

(** ** Character classes *)

(** [str.isspace] of one code point: the interpreter's white-space table. *)
Definition isspace_cp (c : N) : bool :=
  ((9 <=? c) && (c <=? 13)) || ((28 <=? c) && (c <=? 32))
  || (c =? 133) || (c =? 160) || (c =? 5760)
  || ((8192 <=? c) && (c <=? 8202))
  || (c =? 8232) || (c =? 8233) || (c =? 8239) || (c =? 8287) || (c =? 12288).

Class UnicodeDb := {
  (** value of a decimal digit (category Nd): what [\d] matches and [int] reads *)
  decimal_value : N -> option Z;
  (** [str.isdigit] of one code point *)
  isdigit_cp : N -> bool;
  (** [str.isalnum] of one code point; [\w] is this or an underscore *)
  isalnum_cp : N -> bool;
  (** [str.lower] *)
  py_lower : pystr -> pystr
}.

(** What the proofs use of the Unicode database: white space, Hangul
    syllables and the marker [#] are not digits. *)
Class UnicodeLaws `{UnicodeDb} : Prop := {
  space_not_decimal : forall c, isspace_cp c = true -> decimal_value c = None;
  hangul_not_decimal : forall c, 44032 <= c <= 55203 -> decimal_value c = None;
  hangul_not_isdigit : forall c, 44032 <= c <= 55203 -> isdigit_cp c = false;
  hash_not_decimal : decimal_value 35 = None;
  hash_not_isdigit : isdigit_cp 35 = false
}.

(** The database restricted to Basic Latin: ASCII digits and letters, ASCII
    lower-casing.  Used to run the model on concrete inputs. *)
Definition ascii_digit (c : N) : bool := (48 <=? c) && (c <=? 57).
Definition ascii_upper (c : N) : bool := (65 <=? c) && (c <=? 90).
Definition ascii_lower (c : N) : bool := (97 <=? c) && (c <=? 122).
Definition hangul_syllable (c : N) : bool := (44032 <=? c) && (c <=? 55203).

Definition latin_db : UnicodeDb := {|
  decimal_value c := if ascii_digit c then Some (Z.of_N c - 48)%Z else None;
  isdigit_cp := ascii_digit;
  isalnum_cp c := ascii_digit c || ascii_upper c || ascii_lower c || hangul_syllable c;
  py_lower s := (fun c => if ascii_upper c then c + 32 else c) <$> s
|}.

Section Text.
Context `{UnicodeDb}.

Definition isdecimal_cp (c : N) : bool :=
  match decimal_value c with Some _ => true | None => false end.

(** [\w] *)
Definition isword_cp (c : N) : bool := isalnum_cp c || (c =? 95).

(** [.] without DOTALL *)
Definition isdot_cp (c : N) : bool := negb (c =? 10).

(** [s.isdigit()] *)
Definition py_isdigit (s : pystr) : bool :=
  match s with
  | [] => false
  | _ => forallb isdigit_cp s
  end.

Fixpoint lstrip (s : pystr) : pystr :=
  match s with
  | c :: s' => if isspace_cp c then lstrip s' else s
  | [] => []
  end.

Definition rstrip (s : pystr) : pystr := rev (lstrip (rev s)).

(** [s.strip()] *)
Definition strip (s : pystr) : pystr := rstrip (lstrip s).

(** The number a string of decimal digits writes. *)
Definition digits_value (s : pystr) : Z :=
  foldl (fun acc c => (acc * 10 + default 0 (decimal_value c))%Z) 0%Z s.

(** [sys.get_int_max_str_digits()]: the interpreter's default, which the
    program does not change. *)
Definition INT_MAX_STR_DIGITS : Z := 4300.

(** [int(s)] for a string of decimal digits: a string of more than
    [INT_MAX_STR_DIGITS] digits raises [ValueError], leading zeros
    counted. *)
Definition py_int (s : pystr) : res Z :=
  if (INT_MAX_STR_DIGITS <? Z.of_nat (length s))%Z then Raise
  else Ok (digits_value s).

End Text.

(** ** Regular expressions: the fragment of [re] the program uses *)

(** Every starred sub-pattern of the program is a character class, so the
    two stars range over classes. *)
Inductive regex :=
| Eps
| Cls (p : N -> bool)
| Cat (r1 r2 : regex)
| Alt (r1 r2 : regex)
| Star (p : N -> bool)
| LazyStar (p : N -> bool)
| Grp (n : nat) (r : regex)
| Bol
| Eol.

Notation "a ⋅ b" := (Cat a b) (at level 41, right associativity).

Definition caps := list (nat * pystr).

Fixpoint group (n : nat) (cs : caps) : option pystr :=
  match cs with
  | (m, w) :: cs' => if (m =? n)%nat then Some w else group n cs'
  | [] => None
  end.

(** [p*], longest first. *)
Fixpoint star_greedy (p : N -> bool) (s : pystr) (k : pystr -> option caps)
  : option caps :=
  match s with
  | c :: s' =>
    if p c then
      match star_greedy p s' k with
      | Some x => Some x
      | None => k s
      end
    else k s
  | [] => k []
  end.

(** [p*?], shortest first. *)
Fixpoint star_lazy (p : N -> bool) (s : pystr) (k : pystr -> option caps)
  : option caps :=
  match k s with
  | Some x => Some x
  | None =>
    match s with
    | c :: s' => if p c then star_lazy p s' k else None
    | [] => None
    end
  end.

(** Backtracking matcher: [rmatch inp r s cs k] matches [r] at the suffix
    [s] of the subject [inp], then runs [k] on what is left; alternatives
    are tried in the order of [re]. *)
Fixpoint rmatch (inp : pystr) (r : regex) (s : pystr) (cs : caps)
    (k : pystr -> caps -> option caps) {struct r} : option caps :=
  match r with
  | Eps => k s cs
  | Cls p =>
    match s with
    | c :: s' => if p c then k s' cs else None
    | [] => None
    end
  | Cat r1 r2 => rmatch inp r1 s cs (fun s' cs' => rmatch inp r2 s' cs' k)
  | Alt r1 r2 =>
    match rmatch inp r1 s cs k with
    | Some x => Some x
    | None => rmatch inp r2 s cs k
    end
  | Star p => star_greedy p s (fun s' => k s' cs)
  | LazyStar p => star_lazy p s (fun s' => k s' cs)
  | Grp n r1 =>
    rmatch inp r1 s cs
      (fun s' cs' => k s' ((n, take (length s - length s') s) :: cs'))
  | Bol => if (length s =? length inp)%nat then k s cs else None
  | Eol =>
    match s with
    | [] => k s cs
    | [c] => if c =? 10 then k s cs else None
    | _ => None
    end
  end.

Definition accept : pystr -> caps -> option caps := fun _ cs => Some cs.

(** [r.match(s)] *)
Definition re_match (r : regex) (s : pystr) : option caps :=
  rmatch s r s [] accept.

Fixpoint search_from (inp : pystr) (r : regex) (s : pystr) : option caps :=
  match rmatch inp r s [] accept with
  | Some x => Some x
  | None =>
    match s with
    | _ :: s' => search_from inp r s'
    | [] => None
    end
  end.

(** [r.search(s)] *)
Definition re_search (r : regex) (s : pystr) : option caps := search_from s r s.

Definition chr (c : N) : regex := Cls (N.eqb c).
Definition Opt (r : regex) : regex := Alt r Eps.
Definition Plus (p : N -> bool) : regex := Cls p ⋅ Star p.
Fixpoint lit (w : pystr) : regex :=
  match w with
  | [] => Eps
  | c :: w' => chr c ⋅ lit w'
  end.
(** an ASCII lower-case letter under [re.I] *)
Definition chr_i (c : N) : regex := Cls (fun x => (x =? c) || (x =? c - 32)).

(** [re.sub(r'\s+', ' ', s)]: [run] says that the previous code point was
    white space, already replaced. *)
Fixpoint collapse_from (run : bool) (s : pystr) : pystr :=
  match s with
  | [] => []
  | c :: s' =>
    if isspace_cp c then
      if run then collapse_from true s' else 32 :: collapse_from true s'
    else c :: collapse_from false s'
  end.

Definition collapse_ws (s : pystr) : pystr := collapse_from false s.

(** ** Patterns and templates of the program *)

Definition c_hash : N := 35.
Definition c_min : N := Eval vm_compute in default 0 (head (u "분")).
Definition KW_BREAK : pystr := Eval vm_compute in u "휴식".
Definition KW_REST : pystr := Eval vm_compute in u "쉬".

Section Patterns.
Context `{UnicodeDb}.

Definition sp : regex := Star isspace_cp.
Definition digit : regex := Cls isdecimal_cp.
(** [\d{1,3}] *)
Definition digit_1_3 : regex := digit ⋅ Opt (digit ⋅ Opt digit).

(** [^#?\s*휴식\s*(\d+)\s*(?:분)?\s*$] *)
Definition CMD_RE : regex :=
  Bol ⋅ Opt (chr c_hash) ⋅ sp ⋅ lit KW_BREAK ⋅ sp ⋅ Grp 1 (Plus isdecimal_cp)
  ⋅ sp ⋅ Opt (chr c_min) ⋅ sp ⋅ Eol.

(** [^\s*#\s*(\d{1,3})\s*$] *)
Definition SHORT_RE : regex :=
  Bol ⋅ sp ⋅ chr c_hash ⋅ sp ⋅ Grp 1 digit_1_3 ⋅ sp ⋅ Eol.

(** [[가-힣\s\w]] *)
Definition tail_cp (c : N) : bool :=
  hangul_syllable c || isspace_cp c || isword_cp c.

(** [^\s*(\d{1,3})\s*분\s*.*?(휴식|쉬)[가-힣\s\w]*$] *)
Definition NATURAL_RE : regex :=
  Bol ⋅ sp ⋅ Grp 1 digit_1_3 ⋅ sp ⋅ chr c_min ⋅ sp ⋅ LazyStar isdot_cp
  ⋅ Grp 2 (Alt (lit KW_BREAK) (lit KW_REST)) ⋅ Star tail_cp ⋅ Eol.

(** [^#\s*\d+\s*분$] *)
Definition NEAR_MISS_RE : regex :=
  Bol ⋅ chr c_hash ⋅ sp ⋅ Plus isdecimal_cp ⋅ sp ⋅ chr c_min ⋅ Eol.

(** [return int(m.group(1))]: the number, or the exception of [int]. *)
Definition int_group1 (m : caps) : res (option Z) :=
  match py_int (default [] (group 1 m)) with
  | Ok n => Ok (Some n)
  | Raise => Raise
  end.

(** [normalize_cmd_text]: [Ok (Some n)] for [return n], [Ok None] for
    [return None], [Raise] when [int] raises. *)
Definition normalize_cmd_text (t : pystr) : res (option Z) :=
  let s := strip t in
  if py_isdigit s then Ok None
  else
    match re_match CMD_RE s with
    | Some m => int_group1 m
    | None =>
      match re_match SHORT_RE s with
      | Some m => int_group1 m
      | None =>
        match re_match NATURAL_RE s with
        | Some m => int_group1 m
        | None =>
          match re_match NEAR_MISS_RE s with
          | Some _ => Ok None
          | None => Ok None
          end
        end
      end
    end.

End Patterns.

(** ** The matcher against a declarative reading of the patterns *)

(** [spans inp r s s']: [r] can match at [s] and leave [s']. *)
Fixpoint spans (inp : pystr) (r : regex) (s s' : pystr) : Prop :=
  match r with
  | Eps => s' = s
  | Cls p => exists c, s = c :: s' /\ p c = true
  | Cat r1 r2 => exists m, spans inp r1 s m /\ spans inp r2 m s'
  | Alt r1 r2 => spans inp r1 s s' \/ spans inp r2 s s'
  | Star p | LazyStar p => exists w, s = w ++ s' /\ Forall (fun c => p c = true) w
  | Grp _ r1 => spans inp r1 s s'
  | Bol => s' = s /\ length s = length inp
  | Eol => s' = s /\ (s = [] \/ s = [10])
  end.

Fixpoint no_grp (n : nat) (r : regex) : Prop :=
  match r with
  | Cat r1 r2 | Alt r1 r2 => no_grp n r1 /\ no_grp n r2
  | Grp m r1 => m <> n /\ no_grp n r1
  | _ => True
  end.

(** [leads inp r s cs s' cs']: the first alternative the matcher tries for
    [r] at [s] ends at [s'] with captures [cs']; if the rest of the pattern
    succeeds from there, that is the match. *)
Definition leads (inp : pystr) (r : regex) (s : pystr) (cs : caps)
    (s' : pystr) (cs' : caps) : Prop :=
  forall k x, k s' cs' = Some x -> rmatch inp r s cs k = Some x.

(** The head of [s] is not in the class [p]. *)
Definition stops (p : N -> bool) (s : pystr) : Prop :=
  match s with
  | [] => True
  | c :: _ => p c = false
  end.

Abbreviation all p w := (Forall (fun c => p c = true) w).

(** The optional one-character parts of the command forms, and the two
    keywords of the natural-language form. *)
Definition is_opt (c : N) (w : pystr) : Prop := w = [] \/ w = [c].
Definition keyword (kw : pystr) : Prop := kw = KW_BREAK \/ kw = KW_REST.

(** ** The bot: state, page oracle and effects *)

(** The page during one round of the retry loop of [type_and_send]. *)
Record attempt := {
  toast_before : res bool;  (** [query_selector(COOLDOWN_TOAST)] and [is_visible] *)
  scroll_ok : bool;         (** [el.scroll_into_view_if_needed()] returns *)
  click_ok : bool;          (** [el.click()] returns *)
  fill_ok : bool;           (** [el.fill("")] returns *)
  clear_ok : bool;          (** [page.evaluate] clearing the value returns *)
  type_ok : bool;           (** [el.type(text)] returns *)
  press_ok : bool;          (** [el.press("Enter")] returns *)
  toast_after : res bool    (** the indicator, 0.12 s after the submission *)
}.

(** The page during one call of [type_and_send]. *)
Record send_script := {
  control : res bool;       (** [query_selector(CHAT_INPUT_SEL)]: found, absent, raises *)
  rounds : nat -> attempt
}.

(** One step of the walk of [find_sender_near_bubble]. *)
Inductive near_step :=
| NearRaise                  (** [evaluate_handle] raises *)
| NearText (txt : res pystr) (** [inner_text()] of the neighbour *).

(** A bubble as one poll sees it. *)
Record bubble := {
  b_id : N;                    (** the DOM element *)
  b_get_attribute_ok : bool;   (** [get_attribute] returns *)
  b_inner_text : res pystr;    (** [inner_text()] *)
  b_mark_ok : bool;            (** [evaluate] setting [data-bot-seen] returns *)
  b_near : nat -> near_step
}.

Record timer := { t_minutes : Z; t_end_text : pystr }.

Inductive warning :=
| WarnNoInput
| WarnSendFailed (text : pystr).

(** [{"ok": True}] and [{"ok": False, "reason": ...}] *)
Inductive break_result :=
| BreakOk
| BreakRefused (reason : string).

(** The fields of [BreakBot], then the world around it: the clock, the
    elements carrying [data-bot-seen="1"], what was submitted to the chat
    input, the warnings printed, the oracles and how far they were read.
    [dispatched] is a ghost log of the calls of [handle_chat_item] made by
    the scanner, [backoffs] a ghost log of the back-off delays slept by
    [type_and_send]. *)
Record state := {
  trigger_seen : gmap pystr Q;
  msg_seen : gmap pystr Q;
  cmd_guard : gmap pystr Q;
  cmd_text_guard : gmap pystr Q;
  minute_global_guard : gmap Z Q;
  recent_sender : option (pystr * Q);
  back_cooldown : Q;
  last_send_ts : Q;
  cooldown_until : Q;
  running_timers : list timer;
  clock : Q;
  seen_attr : gset N;
  entered : list pystr;
  warnings : list warning;
  dispatched : list (N * option pystr * pystr);
  sends : nat -> send_script;
  n_sends : nat;
  choices : nat -> nat;
  n_choices : nat;
  backoffs : list Q
}.

(** [BreakBot.__init__] in a world. *)
Definition init_state (now : Q) (page : nat -> send_script) (rnd : nat -> nat) : state := {|
  trigger_seen := ∅; msg_seen := ∅; cmd_guard := ∅; cmd_text_guard := ∅;
  minute_global_guard := ∅; recent_sender := None; back_cooldown := 0;
  last_send_ts := 0; cooldown_until := 0; running_timers := [];
  clock := now; seen_attr := ∅; entered := []; warnings := []; dispatched := [];
  sends := page; n_sends := 0; choices := rnd; n_choices := 0; backoffs := []
|}.

Definition set_trigger_seen (v : gmap pystr Q) (s : state) : state :=
  {| trigger_seen := v; msg_seen := msg_seen s; cmd_guard := cmd_guard s;
     cmd_text_guard := cmd_text_guard s; minute_global_guard := minute_global_guard s;
     recent_sender := recent_sender s; back_cooldown := back_cooldown s;
     last_send_ts := last_send_ts s; cooldown_until := cooldown_until s;
     running_timers := running_timers s; clock := clock s; seen_attr := seen_attr s;
     entered := entered s; warnings := warnings s; dispatched := dispatched s;
     sends := sends s; n_sends := n_sends s; choices := choices s;
     n_choices := n_choices s; backoffs := backoffs s |}.

Definition set_msg_seen (v : gmap pystr Q) (s : state) : state :=
  {| trigger_seen := trigger_seen s; msg_seen := v; cmd_guard := cmd_guard s;
     cmd_text_guard := cmd_text_guard s; minute_global_guard := minute_global_guard s;
     recent_sender := recent_sender s; back_cooldown := back_cooldown s;
     last_send_ts := last_send_ts s; cooldown_until := cooldown_until s;
     running_timers := running_timers s; clock := clock s; seen_attr := seen_attr s;
     entered := entered s; warnings := warnings s; dispatched := dispatched s;
     sends := sends s; n_sends := n_sends s; choices := choices s;
     n_choices := n_choices s; backoffs := backoffs s |}.

Definition set_cmd_guard (v : gmap pystr Q) (s : state) : state :=
  {| trigger_seen := trigger_seen s; msg_seen := msg_seen s; cmd_guard := v;
     cmd_text_guard := cmd_text_guard s; minute_global_guard := minute_global_guard s;
     recent_sender := recent_sender s; back_cooldown := back_cooldown s;
     last_send_ts := last_send_ts s; cooldown_until := cooldown_until s;
     running_timers := running_timers s; clock := clock s; seen_attr := seen_attr s;
     entered := entered s; warnings := warnings s; dispatched := dispatched s;
     sends := sends s; n_sends := n_sends s; choices := choices s;
     n_choices := n_choices s; backoffs := backoffs s |}.

Definition set_cmd_text_guard (v : gmap pystr Q) (s : state) : state :=
  {| trigger_seen := trigger_seen s; msg_seen := msg_seen s; cmd_guard := cmd_guard s;
     cmd_text_guard := v; minute_global_guard := minute_global_guard s;
     recent_sender := recent_sender s; back_cooldown := back_cooldown s;
     last_send_ts := last_send_ts s; cooldown_until := cooldown_until s;
     running_timers := running_timers s; clock := clock s; seen_attr := seen_attr s;
     entered := entered s; warnings := warnings s; dispatched := dispatched s;
     sends := sends s; n_sends := n_sends s; choices := choices s;
     n_choices := n_choices s; backoffs := backoffs s |}.

Definition set_minute_global_guard (v : gmap Z Q) (s : state) : state :=
  {| trigger_seen := trigger_seen s; msg_seen := msg_seen s; cmd_guard := cmd_guard s;
     cmd_text_guard := cmd_text_guard s; minute_global_guard := v;
     recent_sender := recent_sender s; back_cooldown := back_cooldown s;
     last_send_ts := last_send_ts s; cooldown_until := cooldown_until s;
     running_timers := running_timers s; clock := clock s; seen_attr := seen_attr s;
     entered := entered s; warnings := warnings s; dispatched := dispatched s;
     sends := sends s; n_sends := n_sends s; choices := choices s;
     n_choices := n_choices s; backoffs := backoffs s |}.

Definition set_recent_sender (v : option (pystr * Q)) (s : state) : state :=
  {| trigger_seen := trigger_seen s; msg_seen := msg_seen s; cmd_guard := cmd_guard s;
     cmd_text_guard := cmd_text_guard s; minute_global_guard := minute_global_guard s;
     recent_sender := v; back_cooldown := back_cooldown s;
     last_send_ts := last_send_ts s; cooldown_until := cooldown_until s;
     running_timers := running_timers s; clock := clock s; seen_attr := seen_attr s;
     entered := entered s; warnings := warnings s; dispatched := dispatched s;
     sends := sends s; n_sends := n_sends s; choices := choices s;
     n_choices := n_choices s; backoffs := backoffs s |}.

Definition set_back_cooldown (v : Q) (s : state) : state :=
  {| trigger_seen := trigger_seen s; msg_seen := msg_seen s; cmd_guard := cmd_guard s;
     cmd_text_guard := cmd_text_guard s; minute_global_guard := minute_global_guard s;
     recent_sender := recent_sender s; back_cooldown := v;
     last_send_ts := last_send_ts s; cooldown_until := cooldown_until s;
     running_timers := running_timers s; clock := clock s; seen_attr := seen_attr s;
     entered := entered s; warnings := warnings s; dispatched := dispatched s;
     sends := sends s; n_sends := n_sends s; choices := choices s;
     n_choices := n_choices s; backoffs := backoffs s |}.

Definition set_last_send_ts (v : Q) (s : state) : state :=
  {| trigger_seen := trigger_seen s; msg_seen := msg_seen s; cmd_guard := cmd_guard s;
     cmd_text_guard := cmd_text_guard s; minute_global_guard := minute_global_guard s;
     recent_sender := recent_sender s; back_cooldown := back_cooldown s;
     last_send_ts := v; cooldown_until := cooldown_until s;
     running_timers := running_timers s; clock := clock s; seen_attr := seen_attr s;
     entered := entered s; warnings := warnings s; dispatched := dispatched s;
     sends := sends s; n_sends := n_sends s; choices := choices s;
     n_choices := n_choices s; backoffs := backoffs s |}.

Definition set_cooldown_until (v : Q) (s : state) : state :=
  {| trigger_seen := trigger_seen s; msg_seen := msg_seen s; cmd_guard := cmd_guard s;
     cmd_text_guard := cmd_text_guard s; minute_global_guard := minute_global_guard s;
     recent_sender := recent_sender s; back_cooldown := back_cooldown s;
     last_send_ts := last_send_ts s; cooldown_until := v;
     running_timers := running_timers s; clock := clock s; seen_attr := seen_attr s;
     entered := entered s; warnings := warnings s; dispatched := dispatched s;
     sends := sends s; n_sends := n_sends s; choices := choices s;
     n_choices := n_choices s; backoffs := backoffs s |}.

Definition set_running_timers (v : list timer) (s : state) : state :=
  {| trigger_seen := trigger_seen s; msg_seen := msg_seen s; cmd_guard := cmd_guard s;
     cmd_text_guard := cmd_text_guard s; minute_global_guard := minute_global_guard s;
     recent_sender := recent_sender s; back_cooldown := back_cooldown s;
     last_send_ts := last_send_ts s; cooldown_until := cooldown_until s;
     running_timers := v; clock := clock s; seen_attr := seen_attr s;
     entered := entered s; warnings := warnings s; dispatched := dispatched s;
     sends := sends s; n_sends := n_sends s; choices := choices s;
     n_choices := n_choices s; backoffs := backoffs s |}.

Definition set_clock (v : Q) (s : state) : state :=
  {| trigger_seen := trigger_seen s; msg_seen := msg_seen s; cmd_guard := cmd_guard s;
     cmd_text_guard := cmd_text_guard s; minute_global_guard := minute_global_guard s;
     recent_sender := recent_sender s; back_cooldown := back_cooldown s;
     last_send_ts := last_send_ts s; cooldown_until := cooldown_until s;
     running_timers := running_timers s; clock := v; seen_attr := seen_attr s;
     entered := entered s; warnings := warnings s; dispatched := dispatched s;
     sends := sends s; n_sends := n_sends s; choices := choices s;
     n_choices := n_choices s; backoffs := backoffs s |}.

Definition set_seen_attr (v : gset N) (s : state) : state :=
  {| trigger_seen := trigger_seen s; msg_seen := msg_seen s; cmd_guard := cmd_guard s;
     cmd_text_guard := cmd_text_guard s; minute_global_guard := minute_global_guard s;
     recent_sender := recent_sender s; back_cooldown := back_cooldown s;
     last_send_ts := last_send_ts s; cooldown_until := cooldown_until s;
     running_timers := running_timers s; clock := clock s; seen_attr := v;
     entered := entered s; warnings := warnings s; dispatched := dispatched s;
     sends := sends s; n_sends := n_sends s; choices := choices s;
     n_choices := n_choices s; backoffs := backoffs s |}.

Definition set_entered (v : list pystr) (s : state) : state :=
  {| trigger_seen := trigger_seen s; msg_seen := msg_seen s; cmd_guard := cmd_guard s;
     cmd_text_guard := cmd_text_guard s; minute_global_guard := minute_global_guard s;
     recent_sender := recent_sender s; back_cooldown := back_cooldown s;
     last_send_ts := last_send_ts s; cooldown_until := cooldown_until s;
     running_timers := running_timers s; clock := clock s; seen_attr := seen_attr s;
     entered := v; warnings := warnings s; dispatched := dispatched s;
     sends := sends s; n_sends := n_sends s; choices := choices s;
     n_choices := n_choices s; backoffs := backoffs s |}.

Definition set_warnings (v : list warning) (s : state) : state :=
  {| trigger_seen := trigger_seen s; msg_seen := msg_seen s; cmd_guard := cmd_guard s;
     cmd_text_guard := cmd_text_guard s; minute_global_guard := minute_global_guard s;
     recent_sender := recent_sender s; back_cooldown := back_cooldown s;
     last_send_ts := last_send_ts s; cooldown_until := cooldown_until s;
     running_timers := running_timers s; clock := clock s; seen_attr := seen_attr s;
     entered := entered s; warnings := v; dispatched := dispatched s;
     sends := sends s; n_sends := n_sends s; choices := choices s;
     n_choices := n_choices s; backoffs := backoffs s |}.

Definition set_dispatched (v : list (N * option pystr * pystr)) (s : state) : state :=
  {| trigger_seen := trigger_seen s; msg_seen := msg_seen s; cmd_guard := cmd_guard s;
     cmd_text_guard := cmd_text_guard s; minute_global_guard := minute_global_guard s;
     recent_sender := recent_sender s; back_cooldown := back_cooldown s;
     last_send_ts := last_send_ts s; cooldown_until := cooldown_until s;
     running_timers := running_timers s; clock := clock s; seen_attr := seen_attr s;
     entered := entered s; warnings := warnings s; dispatched := v;
     sends := sends s; n_sends := n_sends s; choices := choices s;
     n_choices := n_choices s; backoffs := backoffs s |}.

Definition set_n_sends (v : nat) (s : state) : state :=
  {| trigger_seen := trigger_seen s; msg_seen := msg_seen s; cmd_guard := cmd_guard s;
     cmd_text_guard := cmd_text_guard s; minute_global_guard := minute_global_guard s;
     recent_sender := recent_sender s; back_cooldown := back_cooldown s;
     last_send_ts := last_send_ts s; cooldown_until := cooldown_until s;
     running_timers := running_timers s; clock := clock s; seen_attr := seen_attr s;
     entered := entered s; warnings := warnings s; dispatched := dispatched s;
     sends := sends s; n_sends := v; choices := choices s;
     n_choices := n_choices s; backoffs := backoffs s |}.

Definition set_n_choices (v : nat) (s : state) : state :=
  {| trigger_seen := trigger_seen s; msg_seen := msg_seen s; cmd_guard := cmd_guard s;
     cmd_text_guard := cmd_text_guard s; minute_global_guard := minute_global_guard s;
     recent_sender := recent_sender s; back_cooldown := back_cooldown s;
     last_send_ts := last_send_ts s; cooldown_until := cooldown_until s;
     running_timers := running_timers s; clock := clock s; seen_attr := seen_attr s;
     entered := entered s; warnings := warnings s; dispatched := dispatched s;
     sends := sends s; n_sends := n_sends s; choices := choices s;
     n_choices := v; backoffs := backoffs s |}.

Definition set_backoffs (v : list Q) (s : state) : state :=
  {| trigger_seen := trigger_seen s; msg_seen := msg_seen s; cmd_guard := cmd_guard s;
     cmd_text_guard := cmd_text_guard s; minute_global_guard := minute_global_guard s;
     recent_sender := recent_sender s; back_cooldown := back_cooldown s;
     last_send_ts := last_send_ts s; cooldown_until := cooldown_until s;
     running_timers := running_timers s; clock := clock s; seen_attr := seen_attr s;
     entered := entered s; warnings := warnings s; dispatched := dispatched s;
     sends := sends s; n_sends := n_sends s; choices := choices s;
     n_choices := n_choices s; backoffs := v |}.

(** *** A state monad with exceptions *)

Definition M (A : Type) : Type := state -> res A * state.

Definition ret {A} (a : A) : M A := fun s => (Ok a, s).
Definition bind {A B} (m : M A) (k : A -> M B) : M B :=
  fun s => match m s with
           | (Ok a, s') => k a s'
           | (Raise, s') => (Raise, s')
           end.
Definition raise {A} : M A := fun s => (Raise, s).
(** [try: m except: h]; the state reached when [m] raised is kept. *)
Definition try_except {A} (m h : M A) : M A :=
  fun s => match m s with
           | (Ok a, s') => (Ok a, s')
           | (Raise, s') => h s'
           end.
Definition gets {A} (f : state -> A) : M A := fun s => (Ok (f s), s).
Definition modify (f : state -> state) : M unit := fun s => (Ok tt, f s).

Notation "x <- m ;; k" := (bind m (fun x => k))
  (at level 90, m at level 89, right associativity, only parsing).
Notation "m ;;; k" := (bind m (fun _ => k))
  (at level 90, right associativity, only parsing).

(** A page call whose outcome the oracle gives. *)
Definition page {A} (r : res A) : M A :=
  match r with
  | Ok a => ret a
  | Raise => raise
  end.
Definition page_do (ok : bool) : M unit := if ok then ret tt else raise.

Definition Qlt_bool (a b : Q) : bool := negb (Qle_bool b a).

(** [time.time()] *)
Definition time : M Q := gets clock.
(** [await asyncio.sleep(d)]: the clock moves by [d]. *)
Definition sleep (d : Q) : M unit := modify (fun s => set_clock (clock s + d)%Q s).
(** [random.choice] among [n] items *)
Definition choice (n : nat) : M nat :=
  fun s => (Ok (choices s (n_choices s) `mod` n)%nat, set_n_choices (S (n_choices s)) s).
Definition warn (w : warning) : M unit :=
  modify (fun s => set_warnings (warnings s ++ [w]) s).

(** *** Constants *)

Definition SENDER_MSG_TTL : Q := 8.
Definition MSG_ONLY_TTL : Q := 15.
Definition CMD_GUARD_TTL : Q := 15.
Definition RECENT_NAME_SEC : Q := 30.
Definition GLOBAL_MINUTE_GUARD : Q := 10.
Definition MIN_SEND_INTERVAL : Q := 9 # 5.
Definition MAX_RETRY : nat := 10.

Definition fmt_start_1 (m who : pystr) : pystr :=
  u "#휴식 " ++ m ++ u "분 시작 - by " ++ who.
Definition fmt_start_2 (m who : pystr) : pystr :=
  u "⏱️ " ++ m ++ u "분 쉬어요!! - " ++ who.
Definition fmt_start_3 (m who : pystr) : pystr :=
  u "휴식 " ++ m ++ u "분 가즈아~ 🙌 - " ++ who.
Definition START_TPL : list (pystr -> pystr -> pystr) :=
  [fmt_start_1; fmt_start_2; fmt_start_3].

Definition fmt_end_1 (m who : pystr) : pystr := u "⏰휴식 종료 - " ++ who.
Definition fmt_end_2 (m who : pystr) : pystr := u "⏰끝! 다시 고! — " ++ who.
Definition fmt_end_3 (m who : pystr) : pystr :=
  u "⏰휴식 " ++ m ++ u "분 끝났어요. 파이팅 💪" ++ who ++ u "✏️".
Definition END_TPL : list (pystr -> pystr -> pystr) :=
  [fmt_end_1; fmt_end_2; fmt_end_3].

Definition BACK_TPL : list pystr :=
  [u "넵"; u "넵!!"; u "복귀 확인! 👋"; u "이제 공부 ㄱㄱ 🚀"].

Definition NOBODY : pystr := Eval vm_compute in u "누군가".

(** ** The operations of the bot *)

Definition is_empty (s : pystr) : bool :=
  match s with
  | [] => true
  | _ => false
  end.

(** Truth value of an [Optional[str]]. *)
Definition truthy (o : option pystr) : bool :=
  match o with
  | Some (_ :: _) => true
  | _ => false
  end.

Definition some {A} (o : option A) : bool :=
  match o with
  | Some _ => true
  | None => false
  end.

(** [d.get(k, 0.0)] *)
Definition get_ts `{Countable K} (g : gmap K Q) (k : K) : Q := default 0%Q (g !! k).

(** [max(1, min(minutes, 180))] *)
Definition clamp_minutes (m : Z) : Z := Z.max 1 (Z.min m 180).

(** [f"{who}::{minutes}"] *)
Definition guard_key (who : pystr) (minutes : Z) : pystr :=
  who ++ u "::" ++ py_str_of_Z minutes.

(** [min(backoff*1.6, 6.0)] *)
Definition next_backoff (b : Q) : Q :=
  let b' := (b * (8 # 5))%Q in
  if Qle_bool b' 6 then b' else 6%Q.

(** [s.split("\n")] and ["\n".join(ps)] *)
Fixpoint split_lf (s : pystr) : list pystr :=
  match s with
  | [] => [[]]
  | c :: s' =>
    if c =? 10 then [] :: split_lf s'
    else
      match split_lf s' with
      | p :: ps => (c :: p) :: ps
      | [] => [[c]]
      end
  end.

Fixpoint join_lf (ps : list pystr) : pystr :=
  match ps with
  | [] => []
  | [p] => p
  | p :: ps' => p ++ 10 :: join_lf ps'
  end.

(** A short text that does not look like a command: the test both sender
    heuristics apply. *)
Definition name_like (txt : pystr) : bool :=
  (length txt <=? 32)%nat && negb (py_prefix [c_hash] txt)
  && negb (py_in [c_min] txt) && negb (py_in KW_BREAK txt).

Section Bot.
Context `{UnicodeDb}.
Variable BOT_NAME : pystr.

(** *** Send arbiter *)

(** [self._cooldown_until = time.time() + backoff; await asyncio.sleep(backoff)] *)
Definition back_off (b : Q) : M unit :=
  t <- time ;;
  modify (set_cooldown_until (t + b)%Q) ;;;
  modify (fun s => set_backoffs (backoffs s ++ [b]) s) ;;;
  sleep b.

(** The body of the second [try] of one round: [true] when the text went
    out ([return]), [false] when the indicator showed up afterwards
    ([continue]). *)
Definition submit (a : attempt) (text : pystr) (b : Q) : M bool :=
  page_do (scroll_ok a) ;;;
  page_do (click_ok a) ;;;
  try_except (page_do (fill_ok a)) (page_do (clear_ok a)) ;;;
  page_do (type_ok a) ;;;
  page_do (press_ok a) ;;;
  modify (fun s => set_entered (entered s ++ [text]) s) ;;;
  sleep (3 # 25) ;;;
  toast <- page (toast_after a) ;;
  if toast then
    back_off b ;;; ret false
  else
    t <- time ;;
    modify (set_last_send_ts t) ;;;
    sleep (1 # 20) ;;;
    ret true.

(** [for _ in range(n)], at round [i] with back-off [b]. *)
Fixpoint send_rounds (sc : send_script) (text : pystr) (n i : nat) (b : Q) : M unit :=
  match n with
  | O => warn (WarnSendFailed text)
  | S n' =>
    let a := rounds sc i in
    match toast_before a with
    | Ok true =>
      back_off b ;;; send_rounds sc text n' (S i) (next_backoff b)
    | _ =>
      sent <- try_except (submit a text b) (back_off b ;;; ret false) ;;
      if sent then ret tt else send_rounds sc text n' (S i) (next_backoff b)
    end
  end.

(** The lock makes calls exclusive; here every call runs to its end. *)
Definition type_and_send (text : pystr) : M unit :=
  now <- time ;;
  cu <- gets cooldown_until ;;
  (if Qlt_bool now cu then sleep (cu - now)%Q else ret tt) ;;;
  t <- time ;;
  lst <- gets last_send_ts ;;
  let gap := (t - lst)%Q in
  (if Qlt_bool gap MIN_SEND_INTERVAL then sleep (MIN_SEND_INTERVAL - gap)%Q
   else ret tt) ;;;
  sc <- (fun s => (Ok (sends s (n_sends s)), set_n_sends (S (n_sends s)) s)) ;;
  el <- page (control sc) ;;
  if el then send_rounds sc text MAX_RETRY 0 (4 # 5)
  else warn WarnNoInput.

Definition say (text : pystr) : M unit := type_and_send text.

(** *** Break timers *)

Definition start_break (minutes : Z) (who : pystr) : M break_result :=
  let minutes := clamp_minutes minutes in
  now <- time ;;
  g <- gets minute_global_guard ;;
  if Qlt_bool (now - get_ts g minutes) GLOBAL_MINUTE_GUARD then
    ret (BreakRefused "minute-guard")
  else
    modify (fun s => set_minute_global_guard (<[minutes := now]> (minute_global_guard s)) s) ;;;
    let gk := guard_key who minutes in
    cg <- gets cmd_guard ;;
    if Qlt_bool (now - get_ts cg gk) CMD_GUARD_TTL then
      ret (BreakRefused "user-minute-guard")
    else
      modify (fun s => set_cmd_guard (<[gk := now]> (cmd_guard s)) s) ;;;
      i <- choice (length START_TPL) ;;
      j <- choice (length END_TPL) ;;
      let m := py_str_of_Z minutes in
      let start_text := nth i START_TPL fmt_start_1 m who in
      let end_text := nth j END_TPL fmt_end_1 m who in
      say start_text ;;;
      modify (fun s => set_running_timers
        (running_timers s ++ [{| t_minutes := minutes; t_end_text := end_text |}]) s) ;;;
      ret BreakOk.

(** *** Chat-item handler *)

Definition START_NOISE_RE : regex :=
  Alt (Opt (chr c_hash) ⋅ sp ⋅ lit KW_BREAK ⋅ sp ⋅ Plus isdecimal_cp ⋅ sp ⋅ chr c_min
       ⋅ sp ⋅ lit (u "시작") ⋅ sp ⋅ chr 45 ⋅ sp ⋅ chr_i 98 ⋅ chr_i 121)
 (Alt (Plus isdecimal_cp ⋅ sp ⋅ chr c_min ⋅ sp ⋅ lit (u "쉬어요"))
 (Alt (lit (u "가즈아"))
 (Alt (lit (u "처럼") ⋅ sp ⋅ lit (u "입력") ⋅ Alt (lit (u "하면")) (lit (u "해")))
      (lit (u "입력하면") ⋅ sp ⋅ lit (u "타이머"))))).

Definition BACK_RE : regex :=
  lit (u "복귀")
  ⋅ Opt (Grp 1 (Alt (lit (u "했")) (Alt (lit (u "함")) (Alt (lit (u "요")) (lit (u "완료")))))).

(** The name to use when the recent sender is fresh enough. *)
Definition fresh_sender (rs : option (pystr * Q)) (now : Q) : option pystr :=
  match rs with
  | Some (name, ts) => if Qle_bool (now - ts) RECENT_NAME_SEC then Some name else None
  | None => None
  end.

(** The tests of [handle_chat_item] on the trimmed text [t], in its order. *)
Definition is_self_echo (sender : option pystr) : bool :=
  truthy sender && bool_decide (strip (default [] sender) = strip BOT_NAME).
Definition has_bot_phrase (t : pystr) : bool :=
  py_in (u "시작 - by") t || py_in (u "종료 - ") t.
Definition is_start_noise (t : pystr) : bool := some (re_search START_NOISE_RE t).
Definition is_back (t : pystr) : bool := some (re_search BACK_RE t).

(** [re.sub(r'\s+', ' ', t.lower())] *)
Definition text_key (t : pystr) : pystr := collapse_ws (py_lower t).

(** From [minutes = normalize_cmd_text(t)] to the end of the handler. *)
Definition run_command (t : pystr) (sender : option pystr) : M unit :=
  match normalize_cmd_text t with
  | Raise => raise
  | Ok None => ret tt
  | Ok (Some minutes) =>
    let minutes := clamp_minutes minutes in
    sender' <- match sender with
               | None =>
                 sleep (1 # 4) ;;;
                 now1 <- time ;;
                 rs <- gets recent_sender ;;
                 ret (fresh_sender rs now1)
               | Some _ => ret sender
               end ;;
    now2 <- time ;;
    rs <- gets recent_sender ;;
    let who := if truthy sender' then default [] sender'
               else default NOBODY (fresh_sender rs now2) in
    start_break minutes who ;;; ret tt
  end.

Definition handle_chat_item (text : pystr) (sender : option pystr) : M unit :=
  let t := strip text in
  if is_self_echo sender then ret tt
  else if has_bot_phrase t then ret tt
  else if is_start_noise t then ret tt
  else if py_isdigit t then ret tt
  else if is_back t then
    now <- time ;;
    bc <- gets back_cooldown ;;
    if Qle_bool bc now then
      modify (set_back_cooldown (now + 2)%Q) ;;;
      i <- choice (length BACK_TPL) ;;
      say (nth i BACK_TPL [])
    else ret tt
  else
    now <- time ;;
    g <- gets cmd_text_guard ;;
    if Qlt_bool (now - get_ts g (text_key t)) 10 then ret tt
    else
      now' <- time ;;
      modify (fun s => set_cmd_text_guard (<[text_key t := now']> (cmd_text_guard s)) s) ;;;
      run_command t sender.

(** *** Feed scanner *)

Fixpoint near_walk (near : nat -> near_step) (n i : nat) : option pystr :=
  match n with
  | O => None
  | S n' =>
    match near i with
    | NearRaise => None
    | NearText r =>
      let txt := match r with Ok x => strip x | Raise => [] end in
      if negb (is_empty txt) && name_like txt then Some txt
      else near_walk near n' (S i)
    end
  end.

(** It swallows every exception and returns [None] then. *)
Definition find_sender_near_bubble (b : bubble) : option pystr :=
  near_walk (b_near b) 4 0.

(** [(el)=>el.setAttribute('data-bot-seen','1')] *)
Definition mark_seen (b : bubble) : M unit :=
  page_do (b_mark_ok b) ;;;
  modify (fun s => set_seen_attr ({[b_id b]} ∪ seen_attr s) s).

(** Sender and message of a bubble's content. *)
Definition split_content (content : pystr) : option pystr * pystr :=
  let parts := filter (fun p => negb (is_empty p) = true) (strip <$> split_lf content) in
  match parts with
  | p0 :: _ :: _ =>
    if name_like p0 then (Some p0, join_lf (tail parts)) else (None, content)
  | _ => (None, content)
  end.

(** The sender after the fallback, and the message. *)
Definition item_sender (b : bubble) (content : pystr) : option pystr :=
  let sender0 := fst (split_content content) in
  if truthy sender0 then sender0 else find_sender_near_bubble b.
Definition item_msg (content : pystr) : pystr := snd (split_content content).

(** The keys [k] and [k2] of the two scanner guards. *)
Definition sender_msg_key (sender : option pystr) (msg_text : pystr) : pystr :=
  strip (if truthy sender then default [] sender else u "unknown")
  ++ u "::" ++ strip msg_text.
Definition msg_key (msg_text : pystr) : pystr := py_lower (strip msg_text).

(** The body of the [try] for one bubble. *)
Definition scan_item (b : bubble) : M unit :=
  page_do (b_get_attribute_ok b) ;;;
  marks <- gets seen_attr ;;
  if bool_decide (b_id b ∈ marks) then ret tt
  else
    raw <- page (b_inner_text b) ;;
    let content := strip raw in
    mark_seen b ;;;
    if is_empty content then ret tt
    else
      let sender := item_sender b content in
      let msg_text := item_msg content in
      now <- time ;;
      (if truthy sender then modify (set_recent_sender (Some (default [] sender, now)))
       else ret tt) ;;;
      let k := sender_msg_key sender msg_text in
      let k2 := msg_key msg_text in
      ts <- gets trigger_seen ;;
      if Qlt_bool (now - get_ts ts k) SENDER_MSG_TTL then ret tt
      else
        ms <- gets msg_seen ;;
        if Qlt_bool (now - get_ts ms k2) MSG_ONLY_TTL then ret tt
        else
          modify (fun s => set_trigger_seen (<[k := now]> (trigger_seen s)) s) ;;;
          modify (fun s => set_msg_seen (<[k2 := now]> (msg_seen s)) s) ;;;
          modify (fun s => set_dispatched (dispatched s ++ [(b_id b, sender, msg_text)]) s) ;;;
          handle_chat_item msg_text sender.

Fixpoint scan_items (bs : list bubble) : M unit :=
  match bs with
  | [] => ret tt
  | b :: bs' => try_except (scan_item b) (ret tt) ;;; scan_items bs'
  end.

(** One turn of [while True]: [p] is what [query_selector_all] gives. *)
Definition scan_cycle (p : res (list bubble)) : M unit :=
  try_except (bs <- page p ;; scan_items bs) (ret tt) ;;;
  sleep 1.

(** The loop over the polls of a run. *)
Fixpoint scan_loop (polls : list (res (list bubble))) : M unit :=
  match polls with
  | [] => ret tt
  | p :: ps => scan_cycle p ;;; scan_loop ps
  end.

(** *** Bootstrap *)

Fixpoint preload_marks (bs : list bubble) (cnt : nat) : M nat :=
  match bs with
  | [] => ret cnt
  | b :: bs' =>
    c <- try_except (mark_seen b ;;; ret (S cnt)) (ret cnt) ;;
    preload_marks bs' c
  end.

Definition preload_mark_seen (p : res (list bubble)) : M nat :=
  bs <- page p ;;
  preload_marks bs 0.

End Bot.

(** ** Reasoning about effectful code *)

(** Every run of [m] relates the state before to the state after, whether
    it returns or raises. *)
Definition preserves {A} (R : relation state) (m : M A) : Prop :=
  forall s r s', m s = (r, s') -> R s s'.

(** The projection [f] of the state is left as it is. *)
Definition keeps {B} (f : state -> B) : relation state := fun s s' => f s' = f s.

(** What [type_and_send] may touch: relations that hold across every
    update of the clock, the send-channel fields and the logs. *)
Record send_frame (R : relation state) : Prop := {
  sf_pre : PreOrder R;
  sf_clock : forall v s, R s (set_clock v s);
  sf_cooldown : forall v s, R s (set_cooldown_until v s);
  sf_last : forall v s, R s (set_last_send_ts v s);
  sf_entered : forall v s, R s (set_entered v s);
  sf_warnings : forall v s, R s (set_warnings v s);
  sf_backoffs : forall v s, R s (set_backoffs v s);
  sf_n_sends : forall v s, R s (set_n_sends v s)
}.

(** What [start_break] may touch besides, and the chat-item handler. *)
Record break_frame (R : relation state) : Prop := {
  bf_send : send_frame R;
  bf_minute : forall v s, R s (set_minute_global_guard v s);
  bf_cmd : forall v s, R s (set_cmd_guard v s);
  bf_timers : forall v s, R s (set_running_timers v s);
  bf_n_choices : forall v s, R s (set_n_choices v s)
}.

Record handler_frame (R : relation state) : Prop := {
  hf_break : break_frame R;
  hf_text : forall v s, R s (set_cmd_text_guard v s);
  hf_back : forall v s, R s (set_back_cooldown v s)
}.

(** A round of the retry loop fails when the indicator is visible before
    it, when the submission raises (clearing raises only when both [fill]
    and its fallback do), or when the indicator is visible or its check
    raises afterwards. *)
Definition submit_ok (a : attempt) : bool :=
  scroll_ok a && click_ok a && (fill_ok a || clear_ok a) && type_ok a && press_ok a.

Definition round_fails (a : attempt) : bool :=
  match toast_before a with
  | Ok true => true
  | _ =>
    negb (submit_ok a)
    || match toast_after a with
       | Ok false => false
       | _ => true
       end
  end.

(** The back-off delays of [n] failed rounds, from [b]. *)
Fixpoint backoff_seq (n : nat) (b : Q) : list Q :=
  match n with
  | O => []
  | S n' => b :: backoff_seq n' (next_backoff b)
  end.


(** The two guards of [start_break] as the call finds them. *)
Definition global_guard_hot (minutes : Z) (s : state) : Prop :=
  (clock s - get_ts (minute_global_guard s) (clamp_minutes minutes)
   < GLOBAL_MINUTE_GUARD)%Q.

Definition user_guard_hot (minutes : Z) (who : pystr) (s : state) : Prop :=
  (clock s - get_ts (cmd_guard s) (guard_key who (clamp_minutes minutes))
   < CMD_GUARD_TTL)%Q.

(** What a call of [start_break] that passes its guards announces, the
    timer it schedules and the state in which it starts to send. *)
Definition start_text (minutes : Z) (who : pystr) (s : state) : pystr :=
  nth (choices s (n_choices s) `mod` length START_TPL) START_TPL fmt_start_1
    (py_str_of_Z (clamp_minutes minutes)) who.

Definition break_timer (minutes : Z) (who : pystr) (s : state) : timer :=
  {| t_minutes := clamp_minutes minutes;
     t_end_text :=
       nth (choices s (S (n_choices s)) `mod` length END_TPL) END_TPL fmt_end_1
         (py_str_of_Z (clamp_minutes minutes)) who |}.

Definition guards_passed (minutes : Z) (who : pystr) (s : state) : state :=
  set_n_choices (S (S (n_choices s)))
    (set_cmd_guard
       (<[guard_key who (clamp_minutes minutes) := clock s]> (cmd_guard s))
       (set_minute_global_guard
          (<[clamp_minutes minutes := clock s]> (minute_global_guard s)) s)).

(** The identifiers of the dispatched items. *)
Definition ids (log : list (N * option pystr * pystr)) : list N :=
  (fun e => fst (fst e)) <$> log.

(** What a run of the scanner does to the markers and to the dispatch log:
    markers are only added, and every item dispatched during the run was
    unmarked before it, is marked after it and is dispatched once. *)
Definition scan_rel (s s' : state) : Prop :=
  seen_attr s ⊆ seen_attr s'
  /\ exists new,
       dispatched s' = dispatched s ++ new
       /\ NoDup (ids new)
       /\ forall i, i ∈ ids new -> i ∉ seen_attr s /\ i ∈ seen_attr s'.

Section HandlerLogic.
Context `{UnicodeDb}.
Variable BOT_NAME : pystr.

(** The message gets as far as the same-sentence guard: it is not the
    bot's echo, not known noise, not pure digits, not a return
    acknowledgement. *)
Definition reaches_text_guard (text : pystr) (sender : option pystr) : bool :=
  let t := strip text in
  negb (is_self_echo BOT_NAME sender) && negb (has_bot_phrase t)
  && negb (is_start_noise t) && negb (py_isdigit t) && negb (is_back t).

Definition text_guard_hot (text : pystr) (s : state) : Prop :=
  (clock s - get_ts (cmd_text_guard s) (text_key (strip text)) < 10)%Q.

End HandlerLogic.

(** The bubble is read, marked and passes both scanner guards in [s]: the
    scanner hands it to the handler. *)
Definition readable (b : bubble) (raw : pystr) (s : state) : Prop :=
  b_get_attribute_ok b = true /\ b_id b ∉ seen_attr s
  /\ b_inner_text b = Ok raw /\ b_mark_ok b = true /\ strip raw <> [].

Section ScanLogic.
Context `{UnicodeDb}.

Definition sender_msg_hot (b : bubble) (raw : pystr) (s : state) : Prop :=
  (clock s - get_ts (trigger_seen s)
     (sender_msg_key (item_sender b (strip raw)) (item_msg (strip raw)))
   < SENDER_MSG_TTL)%Q.

Definition msg_only_hot (raw : pystr) (s : state) : Prop :=
  (clock s - get_ts (msg_seen s) (msg_key (item_msg (strip raw))) < MSG_ONLY_TTL)%Q.

(** The state after the marker is set and the recent sender noted, and the
    state in which the handler is called. *)
Definition marked (b : bubble) (raw : pystr) (s : state) : state :=
  let s1 := set_seen_attr ({[b_id b]} ∪ seen_attr s) s in
  let sender := item_sender b (strip raw) in
  if truthy sender then set_recent_sender (Some (default [] sender, clock s)) s1
  else s1.

Definition scan_ready (b : bubble) (raw : pystr) (s : state) : state :=
  let sender := item_sender b (strip raw) in
  let msg_text := item_msg (strip raw) in
  let s2 := marked b raw s in
  set_dispatched (dispatched s ++ [(b_id b, sender, msg_text)])
    (set_msg_seen (<[msg_key msg_text := clock s]> (msg_seen s))
       (set_trigger_seen
          (<[sender_msg_key sender msg_text := clock s]> (trigger_seen s)) s2)).

End ScanLogic.

(** ** Concrete pages and states, to run the model *)

Definition BOT : pystr := Eval vm_compute in u "휴식 조교".
Definition CHEOLSU : pystr := Eval vm_compute in u "철수".
Definition YEONGHUI : pystr := Eval vm_compute in u "영희".
Definition MINSU : pystr := Eval vm_compute in u "민수".

(** A round in which everything works, and variations of it. *)
Definition ok_attempt : attempt := {|
  toast_before := Ok false; scroll_ok := true; click_ok := true; fill_ok := true;
  clear_ok := true; type_ok := true; press_ok := true; toast_after := Ok false |}.

Definition script_of (c : res bool) (a : attempt) : send_script :=
  {| control := c; rounds := fun _ => a |}.

(** A bot created at time [t] on a page that always behaves as [sc]. *)
Definition fresh_on (sc : send_script) (t : Q) : state :=
  init_state t (fun _ => sc) (fun _ => O).
Definition fresh (t : Q) : state := fresh_on (script_of (Ok true) ok_attempt) t.

(** A bubble whose calls return, with no usable neighbour. *)
Definition bubble_of (id : N) (content : pystr) (mark : bool) : bubble := {|
  b_id := id; b_get_attribute_ok := true; b_inner_text := Ok content;
  b_mark_ok := mark; b_near := fun _ => NearRaise |}.

Definition SAY_10 : pystr := Eval vm_compute in u "#10".
Definition HELLO : pystr := Eval vm_compute in u "안녕하세요".
Definition CMD_BY_CHEOLSU : pystr := Eval vm_compute in CHEOLSU ++ 10 :: u "#휴식 10".
Definition ANNOUNCEMENT : pystr := Eval vm_compute in u "#휴식 10분 시작 - by 철수".

Definition run_handle (text : pystr) (who : pystr) (s : state) : state :=
  snd (handle_chat_item (H := latin_db) BOT text (Some who) s).
Definition run_scan (polls : list (res (list bubble))) (s : state) : state :=
  snd (scan_loop (H := latin_db) BOT polls s).
Definition run_preload (bs : list bubble) (s : state) : state :=
  snd (preload_mark_seen (Ok bs) s).

(** ** Timer tasks, the HTTP handlers, and the notions of the further properties *)

(** [try: m finally: h]: [h] runs whether [m] returns or raises; the
    outcome is that of [m] unless [h] raises itself. *)
Definition try_finally {A} (m : M A) (h : M unit) : M A :=
  fun s =>
    match m s with
    | (r, s') =>
      match h s' with
      | (Ok _, s'') => (r, s'')
      | (Raise, s'') => (Raise, s'')
      end
    end.

#[global] Instance timer_eq_dec : EqDecision timer.
Proof. solve_decision. Defined.

(** [self.running_timers.discard(asyncio.current_task())]: the task leaves
    the set.  Tasks are told apart by identity; here one record equal to
    [t] leaves the list, which gives the same collection of records. *)
Fixpoint discard_timer (t : timer) (ts : list timer) : list timer :=
  match ts with
  | [] => []
  | t' :: ts' => if decide (t' = t) then ts' else t' :: discard_timer t ts'
  end.

(** The coroutine [timer()] created by [start_break]; [jitter] is what
    [random.uniform(0, 0.7)] returns. *)
Definition run_timer (t : timer) (jitter : Q) : M unit :=
  try_finally
    (sleep (inject_Z (t_minutes t * 60)) ;;;
     sleep jitter ;;;
     say (t_end_text t))
    (modify (fun s => set_running_timers (discard_timer t (running_timers s)) s)).

(** *** HTTP API *)

(** The bodies of the JSON answers. *)
Inductive api_response :=
| RespOk                          (** [{"ok": True}] *)
| RespStarted (started : bool)    (** [{"ok": True, "started": ...}] *)
| RespRejected (reason : string)  (** [{"ok": False, "reason": ...}] *)
| RespBreak (minutes : Z)         (** [{"ok": True, "type": "break", "minutes": ...}] *).




Definition API : pystr := Eval vm_compute in u "API".



Section Api.
Context `{UnicodeDb}.

Definition api_command (text : pystr) : M api_response :=
  match normalize_cmd_text text with
  | Raise => raise
  | Ok None => ret (RespRejected "no-match-or-ignored")
  | Ok (Some minutes) =>
    let minutes := clamp_minutes minutes in
    start_break minutes API ;;;
    ret (RespBreak minutes)
  end.

End Api.

(** *** Notions of the further properties *)

(** The ASCII digits are decimal digits of the interpreter, with their
    values. *)
Class AsciiDigits `{UnicodeDb} : Prop :=
  ascii_digit_value :
    forall c, ascii_digit c = true -> decimal_value c = Some (Z.of_N c - 48)%Z.

(** The first code point and the last one are not white space. *)
Definition trimmed (s : pystr) : Prop :=
  stops isspace_cp s /\ stops isspace_cp (rev s).

(** The three command forms, on a trimmed text [s] with the digits [ds]. *)
Section Forms.
Context `{UnicodeDb}.

Definition canonical_form (s ds : pystr) : Prop :=
  exists hash ws1 ws2 ws3 unit,
    s = hash ++ ws1 ++ KW_BREAK ++ ws2 ++ ds ++ ws3 ++ unit
    /\ is_opt c_hash hash /\ all isspace_cp ws1 /\ all isspace_cp ws2
    /\ all isdecimal_cp ds /\ ds <> [] /\ all isspace_cp ws3 /\ is_opt c_min unit.

Definition short_form (s ds : pystr) : Prop :=
  exists ws,
    s = c_hash :: ws ++ ds
    /\ all isspace_cp ws /\ all isdecimal_cp ds /\ (1 <= length ds <= 3)%nat.

Definition natural_form (s ds : pystr) : Prop :=
  exists ws0 ws1 f kw tr,
    s = ds ++ ws0 ++ c_min :: ws1 ++ f ++ kw ++ tr
    /\ all isdecimal_cp ds /\ (1 <= length ds <= 3)%nat
    /\ all isspace_cp ws0 /\ all isspace_cp ws1 /\ all isdot_cp f
    /\ keyword kw /\ all tail_cp tr.

Definition command_form (s ds : pystr) : Prop :=
  canonical_form s ds \/ short_form s ds \/ natural_form s ds.

End Forms.

Section ReturnAck.
Context `{UnicodeDb}.
Variable BOT_NAME : pystr.

(** The message is taken for a return acknowledgement: it passes the four
    filters and contains the return word. *)
Definition is_return_ack (text : pystr) (sender : option pystr) : bool :=
  let t := strip text in
  negb (is_self_echo BOT_NAME sender) && negb (has_bot_phrase t)
  && negb (is_start_noise t) && negb (py_isdigit t) && is_back t.

End ReturnAck.

(** The cooldown of the return acknowledgement is running. *)
Definition back_cooling (s : state) : Prop := (clock s < back_cooldown s)%Q.

(** The tables of the two guards of [start_break] and the timers. *)
Definition break_tables (s : state) : gmap Z Q * gmap pystr Q * list timer :=
  (minute_global_guard s, cmd_guard s, running_timers s).

(** Timers are only added, at the end, each for 1 to 180 minutes, and not
    more of them than bubbles were handed to the handler. *)
Definition timers_counted (s s' : state) : Prop :=
  exists newt newd,
    running_timers s' = running_timers s ++ newt
    /\ dispatched s' = dispatched s ++ newd
    /\ (length newt <= length newd)%nat
    /\ Forall (fun t => (1 <= t_minutes t <= 180)%Z) newt.

(** Time does not go back, and the time of the last successful send is
    left as it is or moves to a time at least [MIN_SEND_INTERVAL] later,
    not before the cooldown in force and not in the future. *)
Definition send_paced (s s' : state) : Prop :=
  (clock s <= clock s')%Q
  /\ (last_send_ts s' = last_send_ts s
      \/ (last_send_ts s + MIN_SEND_INTERVAL <= last_send_ts s'
          /\ cooldown_until s <= last_send_ts s'
          /\ clock s <= last_send_ts s' /\ last_send_ts s' <= clock s')%Q).

(** *** Further concrete values *)

Definition RETURNED : pystr := Eval vm_compute in u "복귀했습니다".
Definition NATURAL_10 : pystr := Eval vm_compute in u "10분 휴식하겠습니다".
Definition empty_bubble (id : N) : bubble := bubble_of id [32; 10] true.

(** * Properties *)

Local Arguments Qplus : simpl never.
Local Arguments Qminus : simpl never.
Local Arguments Qmult : simpl never.
Local Arguments Qle_bool : simpl never.

(** ** The matcher *)

Section Matcher.
Implicit Types (p : N -> bool) (s w : pystr) (r : regex) (cs : caps).

Lemma star_greedy_sound p s k x :
  star_greedy p s k = Some x ->
  exists w s', s = w ++ s' /\ Forall (fun c => p c = true) w /\ k s' = Some x.
Proof.
  revert x; induction s as [|c s IH]; simpl; intros x Hx.
  - by exists [], [].
  - destruct (p c) eqn:Hp; [|by exists [], (c :: s)].
    destruct (star_greedy p s k) as [y|] eqn:Hs; [|by exists [], (c :: s)].
    destruct (IH y eq_refl) as (w & s' & -> & Hw & Hk).
    exists (c :: w), s'. split; [done|]. split; [by constructor|congruence].
Qed.

Lemma star_lazy_sound p s k x :
  star_lazy p s k = Some x ->
  exists w s', s = w ++ s' /\ Forall (fun c => p c = true) w /\ k s' = Some x.
Proof.
  revert x; induction s as [|c s IH]; simpl; intros x Hx.
  - destruct (k []) eqn:Hk; [|done].
    exists [], []. split; [done|]. split; [constructor|congruence].
  - destruct (k (c :: s)) eqn:Hk.
    { exists [], (c :: s). split; [done|]. split; [constructor|congruence]. }
    destruct (p c) eqn:Hp; [|done].
    destruct (IH x Hx) as (w & s' & -> & Hw & Hk').
    exists (c :: w), s'. split; [done|]. split; [by constructor|done].
Qed.

Lemma star_greedy_complete p w s k :
  Forall (fun c => p c = true) w -> is_Some (k s) -> is_Some (star_greedy p (w ++ s) k).
Proof.
  intros Hw Hk. induction Hw as [|c w Hc Hw IH]; simpl.
  - destruct s as [|c s]; simpl; [done|].
    destruct (p c); [|done]. by destruct (star_greedy p s k).
  - rewrite Hc. destruct IH as [y ->]. by eexists.
Qed.

Lemma star_lazy_complete p w s k :
  Forall (fun c => p c = true) w -> is_Some (k s) -> is_Some (star_lazy p (w ++ s) k).
Proof.
  intros Hw [y Hk]. induction Hw as [|c w Hc Hw IH]; simpl.
  - destruct s; simpl; rewrite Hk; by eexists.
  - destruct (k (c :: w ++ s)); [by eexists|]. by rewrite Hc.
Qed.

Lemma rmatch_sound inp r : forall s cs k x,
  rmatch inp r s cs k = Some x ->
  exists s' cs', spans inp r s s' /\ k s' cs' = Some x.
Proof.
  induction r as [|p|r1 IH1 r2 IH2|r1 IH1 r2 IH2|p|p|n r1 IH1| |];
    simpl; intros s cs k x Hx.
  - by exists s, cs.
  - destruct s as [|c s]; [done|]. destruct (p c) eqn:Hp; [|done].
    exists s, cs. split; [by exists c|done].
  - apply IH1 in Hx as (m & cm & H1 & Hx). apply IH2 in Hx as (s' & cs' & H2 & Hx).
    exists s', cs'. split; [by exists m|done].
  - destruct (rmatch inp r1 s cs k) as [y|] eqn:E.
    + apply IH1 in E as (s' & cs' & H1 & Hk). exists s', cs'. split; [by left|congruence].
    + apply IH2 in Hx as (s' & cs' & H2 & Hk). exists s', cs'. split; [by right|done].
  - apply star_greedy_sound in Hx as (w & s' & -> & Hw & Hk).
    exists s', cs. split; [by exists w|done].
  - apply star_lazy_sound in Hx as (w & s' & -> & Hw & Hk).
    exists s', cs. split; [by exists w|done].
  - apply IH1 in Hx as (s' & cs' & H1 & Hk). by eexists s', _.
  - destruct (length s =? length inp)%nat eqn:E; [|done].
    apply Nat.eqb_eq in E. by exists s, cs.
  - destruct s as [|c [|c' s]]; [by exists [], cs; auto| |done].
    destruct (c =? 10) eqn:E; [|done]. apply N.eqb_eq in E as ->.
    exists [10], cs; auto.
Qed.

Lemma rmatch_complete inp r : forall s s' cs k,
  spans inp r s s' -> (forall cs', is_Some (k s' cs')) ->
  is_Some (rmatch inp r s cs k).
Proof.
  induction r as [|p|r1 IH1 r2 IH2|r1 IH1 r2 IH2|p|p|n r1 IH1| |];
    simpl; intros s s' cs k Hs Hk.
  - by subst.
  - destruct Hs as (c & -> & Hc). by rewrite Hc.
  - destruct Hs as (m & H1 & H2). eapply IH1; [done|]. intros cm. by eapply IH2.
  - destruct (rmatch inp r1 s cs k) eqn:E; [by eexists|].
    destruct Hs as [H1|H2]; [|by eapply IH2].
    eapply (IH1 _ _ cs) in H1; [|done]. rewrite E in H1. by destruct H1.
  - destruct Hs as (w & -> & Hw). by apply star_greedy_complete.
  - destruct Hs as (w & -> & Hw). by apply star_lazy_complete.
  - eapply IH1; [done|]. intros cs'. apply Hk.
  - destruct Hs as [-> E]. apply Nat.eqb_eq in E. by rewrite E.
  - destruct Hs as [-> [->| ->]]; simpl; done.
Qed.

(** A pattern without group [n] leaves the capture of group [n] alone. *)
Lemma rmatch_keeps_group n inp r : forall s cs k x,
  no_grp n r ->
  (forall s' cs' y, k s' cs' = Some y -> group n y = group n cs') ->
  rmatch inp r s cs k = Some x -> group n x = group n cs.
Proof.
  induction r as [|p|r1 IH1 r2 IH2|r1 IH1 r2 IH2|p|p|m r1 IH1| |];
    simpl; intros s cs k x Hn Hk Hx.
  - eauto.
  - destruct s as [|c s]; [done|]. destruct (p c); [eauto|done].
  - destruct Hn as [Hn1 Hn2]. refine (IH1 _ _ _ _ Hn1 _ Hx).
    intros s' cs' y Hy. exact (IH2 _ _ _ _ Hn2 Hk Hy).
  - destruct Hn as [Hn1 Hn2]. destruct (rmatch inp r1 s cs k) eqn:E.
    + inversion Hx; subst. eauto.
    + eauto.
  - apply star_greedy_sound in Hx as (w & s' & _ & _ & Hx). eauto.
  - apply star_lazy_sound in Hx as (w & s' & _ & _ & Hx). eauto.
  - destruct Hn as [Hm Hn]. refine (IH1 _ _ _ _ Hn _ Hx).
    intros s' cs' y Hy. apply Hk in Hy. rewrite Hy. simpl.
    destruct (m =? n)%nat eqn:E; [|done]. by apply Nat.eqb_eq in E.
  - destruct (length s =? length inp)%nat; [eauto|done].
  - destruct s as [|c [|c' s]]; [eauto| |done]. destruct (c =? 10); [eauto|done].
Qed.

Lemma leads_eps inp s cs : leads inp Eps s cs s cs.
Proof. by intros k x Hk. Qed.

Lemma leads_cls inp p c s cs : p c = true -> leads inp (Cls p) (c :: s) cs s cs.
Proof. intros Hc k x Hk. simpl. by rewrite Hc. Qed.

Lemma leads_chr inp c s cs : leads inp (chr c) (c :: s) cs s cs.
Proof. apply leads_cls, N.eqb_refl. Qed.

Lemma leads_cat inp r1 r2 s cs m cm s' cs' :
  leads inp r1 s cs m cm -> leads inp r2 m cm s' cs' ->
  leads inp (r1 ⋅ r2) s cs s' cs'.
Proof. intros H1 H2 k x Hk. simpl. apply H1, H2, Hk. Qed.

Lemma leads_lit inp w s cs : leads inp (lit w) (w ++ s) cs s cs.
Proof.
  induction w as [|c w IH]; simpl; [apply leads_eps|].
  eapply leads_cat; [apply leads_chr|apply IH].
Qed.

Lemma leads_alt_l inp r1 r2 s cs s' cs' :
  leads inp r1 s cs s' cs' -> leads inp (Alt r1 r2) s cs s' cs'.
Proof. intros H1 k x Hk. simpl. by rewrite (H1 k x Hk). Qed.

Lemma leads_alt_r inp r1 r2 s cs s' cs' :
  (forall k, rmatch inp r1 s cs k = None) ->
  leads inp r2 s cs s' cs' -> leads inp (Alt r1 r2) s cs s' cs'.
Proof. intros H1 H2 k x Hk. simpl. rewrite H1. by apply H2. Qed.

Lemma cls_miss inp p s cs k : stops p s -> rmatch inp (Cls p) s cs k = None.
Proof. destruct s as [|c s]; simpl; [done|]. by intros ->. Qed.

Lemma leads_opt_skip inp p s cs : stops p s -> leads inp (Opt (Cls p)) s cs s cs.
Proof. intros Hs. apply leads_alt_r; [intros k; by apply cls_miss|apply leads_eps]. Qed.

Lemma star_greedy_max p w s k x :
  Forall (fun c => p c = true) w -> stops p s -> k s = Some x ->
  star_greedy p (w ++ s) k = Some x.
Proof.
  intros Hw Hs Hk. induction Hw as [|c w Hc Hw IH]; simpl.
  - destruct s as [|c s]; simpl in *; [done|]. by rewrite Hs.
  - by rewrite Hc, IH.
Qed.

Lemma leads_star inp p w s cs :
  Forall (fun c => p c = true) w -> stops p s ->
  leads inp (Star p) (w ++ s) cs s cs.
Proof. intros Hw Hs k x Hk. simpl. by apply star_greedy_max. Qed.

Lemma leads_grp inp n r s cs s' cs' :
  leads inp r s cs s' cs' ->
  leads inp (Grp n r) s cs s' ((n, take (length s - length s') s) :: cs').
Proof. intros H1 k x Hk. simpl. by apply H1. Qed.

Lemma leads_bol s cs : leads s Bol s cs s cs.
Proof. intros k x Hk. simpl. by rewrite Nat.eqb_refl. Qed.

Lemma leads_eol inp cs : leads inp Eol [] cs [] cs.
Proof. by intros k x Hk. Qed.

Lemma take_app_diff w s : take (length (w ++ s) - length s) (w ++ s) = w.
Proof.
  rewrite length_app, Nat.add_sub. by rewrite take_app_length.
Qed.

End Matcher.

(** ** The command normaliser *)

Section Normalizer.
Context `{UnicodeDb} `{!UnicodeLaws}.
Implicit Types (p q : N -> bool) (s w ds ws : pystr) (c : N).

Lemma dec_not_space c : isdecimal_cp c = true -> isspace_cp c = false.
Proof.
  unfold isdecimal_cp. intros Hd. destruct (isspace_cp c) eqn:E; [|done].
  by rewrite (space_not_decimal c E) in Hd.
Qed.

Lemma space_not_dec c : isspace_cp c = true -> isdecimal_cp c = false.
Proof. unfold isdecimal_cp. by intros ->%space_not_decimal. Qed.

Lemma hangul_not_dec c : 44032 <= c <= 55203 -> isdecimal_cp c = false.
Proof. unfold isdecimal_cp. by intros ->%hangul_not_decimal. Qed.

Lemma dec_neq c k :
  isdecimal_cp c = true -> isdecimal_cp k = false -> (k =? c) = false.
Proof. intros Hc Hk. apply N.eqb_neq. intros ->. congruence. Qed.

Lemma hash_not_dec : isdecimal_cp c_hash = false.
Proof. unfold isdecimal_cp, c_hash. by rewrite hash_not_decimal. Qed.

Lemma stops_all_app p q w s :
  all q w -> (forall c, q c = true -> p c = false) -> stops p s -> stops p (w ++ s).
Proof. intros Hw Hq Hs. destruct Hw as [|c w Hc Hw]; simpl; auto. Qed.

Lemma stops_app_cons p c w s : p c = false -> stops p ((c :: w) ++ s).
Proof. done. Qed.

Lemma cat_miss inp r1 r2 s cs :
  (forall k, rmatch inp r1 s cs k = None) ->
  forall k, rmatch inp (r1 ⋅ r2) s cs k = None.
Proof. intros Hr k. exact (Hr _). Qed.

Lemma leads_plus_grp inp n p ds s cs :
  all p ds -> ds <> [] -> stops p s ->
  leads inp (Grp n (Plus p)) (ds ++ s) cs s ((n, ds) :: cs).
Proof.
  intros Hds Hne Hs. destruct Hds as [|d ds Hd Hds]; [done|].
  pose proof (leads_grp inp n (Plus p) ((d :: ds) ++ s) cs s cs) as L.
  rewrite take_app_diff in L. apply L.
  eapply leads_cat; [by apply leads_cls|by apply leads_star].
Qed.

Lemma leads_digit_1_3 inp ds s cs :
  all isdecimal_cp ds -> (1 <= length ds <= 3)%nat -> stops isdecimal_cp s ->
  leads inp digit_1_3 (ds ++ s) cs s cs.
Proof.
  intros Hds Hlen Hs. unfold digit_1_3, digit.
  destruct ds as [|a [|b [|c [|? ?]]]]; simpl in Hlen; try lia.
  - apply Forall_cons in Hds as [Ha _].
    eapply leads_cat; [by apply leads_cls|].
    apply leads_alt_r; [|apply leads_eps].
    apply cat_miss. intros k. by apply cls_miss.
  - apply Forall_cons in Hds as [Ha [Hb _]%Forall_cons].
    eapply leads_cat; [by apply leads_cls|]. apply leads_alt_l.
    eapply leads_cat; [by apply leads_cls|]. by apply leads_opt_skip.
  - apply Forall_cons in Hds as [Ha [Hb [Hc _]%Forall_cons]%Forall_cons].
    eapply leads_cat; [by apply leads_cls|]. apply leads_alt_l.
    eapply leads_cat; [by apply leads_cls|]. apply leads_alt_l. by apply leads_cls.
Qed.

Lemma leads_digit_1_3_grp inp n ds s cs :
  all isdecimal_cp ds -> (1 <= length ds <= 3)%nat -> stops isdecimal_cp s ->
  leads inp (Grp n digit_1_3) (ds ++ s) cs s ((n, ds) :: cs).
Proof.
  intros Hds Hlen Hs.
  pose proof (leads_grp inp n digit_1_3 (ds ++ s) cs s cs) as L.
  rewrite take_app_diff in L. by apply L, leads_digit_1_3.
Qed.

Lemma leads_then inp r1 r2 s cs m cm k x :
  leads inp r1 s cs m cm -> rmatch inp r2 m cm k = Some x ->
  rmatch inp (r1 ⋅ r2) s cs k = Some x.
Proof. intros H1 H2. simpl. by apply H1. Qed.

(** *** Rule 2: the canonical form *)

Lemma cmd_re_core hash ws1 ws2 ds ws3 unit :
  hash = [] \/ hash = [c_hash] ->
  all isspace_cp ws1 -> all isspace_cp ws2 ->
  all isdecimal_cp ds -> ds <> [] ->
  all isspace_cp ws3 -> unit = [] \/ unit = [c_min] ->
  re_match CMD_RE (hash ++ ws1 ++ KW_BREAK ++ ws2 ++ ds ++ ws3 ++ unit)
  = Some [(1%nat, ds)].
Proof.
  intros Hh H1 H2 Hds Hne H3 Hu. unfold re_match.
  set (core := hash ++ _).
  assert (leads core CMD_RE core [] [] [(1%nat, ds)]) as L; [|by apply L].
  assert (stops isdecimal_cp (ws3 ++ unit)) as Hstop.
  { eapply stops_all_app; [done|apply space_not_dec|].
    destruct Hu as [-> | ->]; [done|]. by apply hangul_not_dec. }
  assert (Hd0 : stops isspace_cp (ds ++ ws3 ++ unit)).
  { destruct Hds as [|d ds Hd _]; [done|]. by apply dec_not_space. }
  eapply leads_cat; [apply leads_bol|]. subst core.
  eapply leads_cat.
  { destruct Hh as [-> | ->].
    - rewrite app_nil_l. apply leads_opt_skip.
      eapply stops_all_app; [done| |done].
      intros c Hc. apply N.eqb_neq. by intros <-.
    - apply leads_alt_l, (leads_chr _ c_hash). }
  eapply leads_cat; [by apply leads_star|].
  eapply leads_cat; [apply leads_lit|].
  eapply leads_cat; [by apply leads_star|].
  eapply leads_cat; [by apply leads_plus_grp|].
  eapply leads_cat.
  { apply leads_star; [done|]. by destruct Hu as [-> | ->]. }
  apply leads_cat with (m := []) (cm := [(1%nat, ds)]).
  { destruct Hu as [-> | ->]; [by apply leads_opt_skip|apply leads_alt_l, leads_chr]. }
  eapply leads_cat; [by apply (leads_star _ _ [] [])|apply leads_eol].
Qed.

Lemma spans_opt_chr inp k s s' :
  spans inp (Opt (chr k)) s s' -> exists h, s = h ++ s' /\ (h = [] \/ h = [k]).
Proof.
  intros [(c & -> & Hc%N.eqb_eq)| ->]; [exists [k]; subst|exists []]; auto.
Qed.

Lemma spans_lit inp w s s' : spans inp (lit w) s s' <-> s = w ++ s'.
Proof.
  revert s. induction w as [|c w IH]; intros s; simpl; [done|]. split.
  - intros (m & (c' & -> & Hc%N.eqb_eq) & Hm%IH). by subst.
  - intros ->. exists (w ++ s'). split; [|by apply IH].
    exists c. by rewrite N.eqb_refl.
Qed.

Lemma spans_plus inp p s s' :
  spans inp (Plus p) s s' <-> exists w, s = w ++ s' /\ all p w /\ w <> [].
Proof.
  split.
  - intros (m & (c & -> & Hc) & w & -> & Hw). exists (c :: w). by repeat constructor.
  - intros (w & -> & Hw & Hne). destruct Hw as [|c w Hc Hw]; [done|].
    exists (w ++ s'). split; [by exists c|by exists w].
Qed.

Lemma spans_digit_1_3 inp s s' :
  spans inp digit_1_3 s s' <->
  exists w, s = w ++ s' /\ all isdecimal_cp w /\ (1 <= length w <= 3)%nat.
Proof.
  split.
  - intros (m & (a & -> & Ha) & [(m' & (b & -> & Hb) & [(c & -> & Hc)| ->])| ->]).
    + exists [a; b; c]. repeat constructor; simpl; auto; lia.
    + exists [a; b]. repeat constructor; simpl; auto; lia.
    + exists [a]. repeat constructor; simpl; auto; lia.
  - intros (w & -> & Hw & Hlen).
    destruct w as [|a [|b [|c [|? ?]]]]; simpl in Hlen; try lia.
    + apply Forall_cons in Hw as [Ha _]. exists s'. split; [by exists a|by right].
    + apply Forall_cons in Hw as [Ha [Hb _]%Forall_cons].
      exists (b :: s'). split; [by exists a|]. left.
      exists s'. split; [by exists b|by right].
    + apply Forall_cons in Hw as [Ha [Hb [Hc _]%Forall_cons]%Forall_cons].
      exists (b :: c :: s'). split; [by exists a|]. left.
      exists (c :: s'). split; [by exists b|]. left. by exists c.
Qed.

(** Rule 2 accepts nothing but the canonical form. *)
Lemma cmd_re_shape s m :
  re_match CMD_RE s = Some m ->
  exists hash ws1 ws2 ds ws3 unit ws4 e,
    s = hash ++ ws1 ++ KW_BREAK ++ ws2 ++ ds ++ ws3 ++ unit ++ ws4 ++ e
    /\ (hash = [] \/ hash = [c_hash])
    /\ all isspace_cp ws1 /\ all isspace_cp ws2
    /\ all isdecimal_cp ds /\ ds <> []
    /\ all isspace_cp ws3 /\ (unit = [] \/ unit = [c_min])
    /\ all isspace_cp ws4 /\ (e = [] \/ e = [10]).
Proof.
  unfold re_match. intros Hm.
  apply rmatch_sound in Hm as (s' & cs' & Hsp & _).
  destruct Hsp as (? & [-> _] & m1 & (hash & -> & Hh)%spans_opt_chr
    & m2 & (ws1 & -> & H1) & m3 & ->%spans_lit & m4 & (ws2 & -> & H2)
    & m5 & (ds & -> & Hds & Hne)%spans_plus & m6 & (ws3 & -> & H3)
    & m7 & (unit & -> & Hu)%spans_opt_chr & m8 & (ws4 & -> & H4) & -> & He).
  by exists hash, ws1, ws2, ds, ws3, unit, ws4, m8.
Qed.

(** Rule 3 accepts nothing but the short marker form. *)
Lemma short_re_shape s m :
  re_match SHORT_RE s = Some m ->
  exists ws0 ws1 ds ws2 e,
    s = ws0 ++ c_hash :: ws1 ++ ds ++ ws2 ++ e
    /\ all isspace_cp ws0 /\ all isspace_cp ws1
    /\ all isdecimal_cp ds /\ (1 <= length ds <= 3)%nat
    /\ all isspace_cp ws2 /\ (e = [] \/ e = [10]).
Proof.
  unfold re_match. intros Hm.
  apply rmatch_sound in Hm as (s' & cs' & Hsp & _).
  destruct Hsp as (? & [-> _] & m1 & (ws0 & -> & H0') & m2
    & (c & -> & <-%N.eqb_eq) & m3 & (ws1 & -> & H1) & m4
    & (ds & -> & Hds & Hlen)%spans_digit_1_3 & m5 & (ws2 & -> & H2) & -> & He).
  by exists ws0, ws1, ds, ws2, m5.
Qed.

(** Rule 4 needs a digit first (after optional white space). *)
Lemma natural_re_head s m :
  re_match NATURAL_RE s = Some m ->
  exists c s', s = c :: s' /\ (isspace_cp c = true \/ isdecimal_cp c = true).
Proof.
  unfold re_match. intros Hm.
  apply rmatch_sound in Hm as (s' & cs' & Hsp & _).
  destruct Hsp as (? & [-> _] & m1 & (ws0 & -> & H0') & m2
    & (ds & -> & Hds & Hlen)%spans_digit_1_3 & _).
  destruct H0' as [|c ws0 Hc _]; [|by eauto].
  destruct Hds as [|d ds Hd _]; [simpl in Hlen; lia|]. by eauto.
Qed.

(** *** Rule 3: the short marker form *)

Lemma short_re_core ws ds :
  all isspace_cp ws -> all isdecimal_cp ds -> (1 <= length ds <= 3)%nat ->
  re_match SHORT_RE (c_hash :: ws ++ ds) = Some [(1%nat, ds)].
Proof.
  intros Hws Hds Hlen. rewrite <- (app_nil_r ds) at 1. unfold re_match.
  set (core := c_hash :: _).
  assert (leads core SHORT_RE core [] [] [(1%nat, ds)]) as L; [|by apply L].
  eapply leads_cat; [apply leads_bol|]. subst core.
  eapply leads_cat; [by apply (leads_star _ _ [] (c_hash :: _))|].
  eapply leads_cat; [apply leads_chr|].
  eapply leads_cat.
  { apply leads_star; [done|]. destruct Hds as [|d ds Hd _]; [done|].
    by apply dec_not_space. }
  eapply leads_cat; [by apply leads_digit_1_3_grp|].
  eapply leads_cat; [by apply (leads_star _ _ [] [])|apply leads_eol].
Qed.

(** *** Rule 4: the natural-language form *)

Lemma natural_re_core ds ws0 ws1 f kw tr :
  all isdecimal_cp ds -> (1 <= length ds <= 3)%nat ->
  all isspace_cp ws0 -> all isspace_cp ws1 -> all isdot_cp f ->
  kw = KW_BREAK \/ kw = KW_REST -> all tail_cp tr ->
  exists m,
    re_match NATURAL_RE (ds ++ ws0 ++ c_min :: ws1 ++ f ++ kw ++ tr) = Some m
    /\ group 1 m = Some ds.
Proof.
  intros Hds Hlen H0' H1 Hf Hkw Htr. unfold re_match.
  set (core := ds ++ _).
  set (suffix := sp ⋅ LazyStar isdot_cp ⋅ Grp 2 (Alt (lit KW_BREAK) (lit KW_REST))
                 ⋅ Star tail_cp ⋅ Eol).
  assert (is_Some (rmatch core suffix (ws1 ++ f ++ kw ++ tr) [(1%nat, ds)] accept))
    as [m Hm].
  { apply rmatch_complete with (s' := []); [|by eexists].
    exists (f ++ kw ++ tr). split; [by exists ws1|].
    exists (kw ++ tr). split; [by exists f|].
    exists tr. split.
    { destruct Hkw as [-> | ->]; [left|right]; by apply spans_lit. }
    exists []. split; [exists tr; by rewrite app_nil_r|]. split; auto. }
  exists m. split.
  - eapply leads_then; [apply leads_bol|]. subst core.
    eapply leads_then.
    { apply (leads_star _ _ [] (ds ++ _)); [done|].
      destruct Hds as [|d ds Hd _]; [simpl in Hlen; lia|]. by apply dec_not_space. }
    eapply leads_then.
    { apply leads_digit_1_3_grp; [done..|].
      eapply stops_all_app; [done|apply space_not_dec|]. by apply hangul_not_dec. }
    eapply leads_then; [apply leads_star; [done|reflexivity]|].
    eapply leads_then; [apply leads_chr|]. exact Hm.
  - change (Some ds) with (group 1 [(1%nat, ds)]).
    eapply rmatch_keeps_group; [| |exact Hm].
    + subst suffix. simpl. repeat split; lia.
    + by intros s' cs' y [= ->].
Qed.

(** *** What the rules refuse *)

Lemma forallb_elem_false p c s : c ∈ s -> p c = false -> forallb p s = false.
Proof.
  intros Hc Hp. induction Hc as [|c d s Hc IH]; simpl.
  - by rewrite Hp.
  - rewrite IH; [apply andb_false_r|done].
Qed.

Lemma py_isdigit_elem_false c s : c ∈ s -> isdigit_cp c = false -> py_isdigit s = false.
Proof.
  intros Hc Hp. unfold py_isdigit. destruct s; [done|]. by eapply forallb_elem_false.
Qed.

Lemma py_isdigit_all ds : all isdigit_cp ds -> ds <> [] -> py_isdigit ds = true.
Proof.
  intros Hds Hne. unfold py_isdigit. destruct ds as [|d ds]; [done|].
  apply forallb_forall. intros c Hc. rewrite Forall_forall in Hds.
  apply Hds. by apply list_elem_of_In.
Qed.

(** Rule 2 needs its keyword. *)
Lemma cmd_re_none_without_kw s : 55092 ∉ s -> re_match CMD_RE s = None.
Proof.
  intros Hs. destruct (re_match CMD_RE s) as [m|] eqn:E; [|done].
  apply cmd_re_shape in E as (hash & ws1 & ws2 & ds & ws3 & unit & ws4 & e & -> & _).
  exfalso. apply Hs. rewrite !elem_of_app. right; right; left. by left.
Qed.

Lemma cmd_re_none_head c s :
  c <> c_hash -> isspace_cp c = false -> c <> 55092 -> re_match CMD_RE (c :: s) = None.
Proof.
  intros Hh Hs Hk. destruct (re_match CMD_RE (c :: s)) as [m|] eqn:E; [|done].
  apply cmd_re_shape in E
    as (hash & ws1 & ws2 & ds & ws3 & unit & ws4 & e & E & Hhash & H1 & _).
  exfalso. destruct Hhash as [-> | ->]; [|simpl in E; congruence].
  destruct H1 as [|c' ws1 Hc' _]; simpl in E; [|congruence].
  unfold KW_BREAK in E. simpl in E. congruence.
Qed.

Lemma short_re_none_head c s :
  c <> c_hash -> isspace_cp c = false -> re_match SHORT_RE (c :: s) = None.
Proof.
  intros Hh Hs. destruct (re_match SHORT_RE (c :: s)) as [m|] eqn:E; [|done].
  apply short_re_shape in E as (ws0 & ws1 & ds & ws2 & e & E & H0' & _).
  exfalso. destruct H0' as [|c' ws0 Hc' _]; simpl in E; congruence.
Qed.

Lemma short_re_none_unit s : re_match SHORT_RE (s ++ [c_min]) = None.
Proof.
  destruct (re_match SHORT_RE (s ++ [c_min])) as [m|] eqn:E; [|done].
  apply short_re_shape in E
    as (ws0 & ws1 & ds & ws2 & e & E & H0' & H1 & Hds & _ & H2 & He).
  exfalso.
  assert (Forall (fun c => c <> c_min) (ws0 ++ c_hash :: ws1 ++ ds ++ ws2 ++ e)) as Hall.
  { assert (forall w, all isspace_cp w -> Forall (fun c => c <> c_min) w) as Hsp.
    { intros w Hw. eapply Forall_impl; [exact Hw|]. by intros c Hc ->. }
    rewrite Forall_app, Forall_cons, !Forall_app. split_and!; auto.
    - eapply Forall_impl; [exact Hds|]. intros c Hc ->.
      by rewrite hangul_not_dec in Hc.
    - destruct He as [-> | ->]; by repeat constructor. }
  rewrite <- E in Hall. apply Forall_app in Hall as [_ Hall].
  by apply Forall_cons in Hall as [Hall _].
Qed.

Lemma natural_re_none_head c s :
  isspace_cp c = false -> isdecimal_cp c = false -> re_match NATURAL_RE (c :: s) = None.
Proof.
  intros Hs Hd. destruct (re_match NATURAL_RE (c :: s)) as [m|] eqn:E; [|done].
  apply natural_re_head in E as (c' & s' & [= <- <-] & [?|?]); congruence.
Qed.

(** *** The five families *)

Lemma py_int_within ds :
  (Z.of_nat (length ds) <= INT_MAX_STR_DIGITS)%Z -> py_int ds = Ok (digits_value ds).
Proof.
  intros Hlen. unfold py_int.
  by destruct (Z.ltb_spec INT_MAX_STR_DIGITS (Z.of_nat (length ds))); [lia|].
Qed.

Lemma py_int_beyond ds :
  (INT_MAX_STR_DIGITS < Z.of_nat (length ds))%Z -> py_int ds = Raise.
Proof.
  intros Hlen. unfold py_int.
  by destruct (Z.ltb_spec INT_MAX_STR_DIGITS (Z.of_nat (length ds))); [|lia].
Qed.

Lemma py_int_1_3 ds : (1 <= length ds <= 3)%nat -> py_int ds = Ok (digits_value ds).
Proof. intros Hlen. apply py_int_within. unfold INT_MAX_STR_DIGITS. lia. Qed.

Lemma normalize_canonical t hash ws1 ws2 ds ws3 unit :
  strip t = hash ++ ws1 ++ KW_BREAK ++ ws2 ++ ds ++ ws3 ++ unit ->
  is_opt c_hash hash -> all isspace_cp ws1 -> all isspace_cp ws2 ->
  all isdecimal_cp ds -> ds <> [] -> all isspace_cp ws3 -> is_opt c_min unit ->
  normalize_cmd_text t
  = match py_int ds with Ok n => Ok (Some n) | Raise => Raise end.
Proof.
  intros Hs Hh H1 H2 Hds Hne H3 Hu. unfold normalize_cmd_text. rewrite Hs.
  rewrite (py_isdigit_elem_false 55092).
  - by rewrite cmd_re_core.
  - rewrite !elem_of_app. right; right; left. by left.
  - by apply hangul_not_isdigit.
Qed.

Lemma no_kw_in_spaces ws : all isspace_cp ws -> 55092 ∉ ws.
Proof. intros Hws Hin. rewrite Forall_forall in Hws. by apply Hws in Hin. Qed.

Lemma no_kw_in_digits ds : all isdecimal_cp ds -> 55092 ∉ ds.
Proof.
  intros Hds Hin. rewrite Forall_forall in Hds. apply Hds in Hin.
  by rewrite hangul_not_dec in Hin.
Qed.

Lemma normalize_short t ws ds :
  strip t = c_hash :: ws ++ ds ->
  all isspace_cp ws -> all isdecimal_cp ds -> (1 <= length ds <= 3)%nat ->
  normalize_cmd_text t = Ok (Some (digits_value ds)).
Proof.
  intros Hs Hws Hds Hlen. unfold normalize_cmd_text. rewrite Hs.
  rewrite (py_isdigit_elem_false c_hash); [|by left|apply hash_not_isdigit].
  rewrite cmd_re_none_without_kw.
  - rewrite short_re_core by done. unfold int_group1. simpl group.
    simpl default. by rewrite py_int_1_3.
  - rewrite not_elem_of_cons, not_elem_of_app.
    split; [done|]. split; [by apply no_kw_in_spaces|by apply no_kw_in_digits].
Qed.

Lemma normalize_natural t ds ws0 ws1 f kw tr :
  strip t = ds ++ ws0 ++ c_min :: ws1 ++ f ++ kw ++ tr ->
  all isdecimal_cp ds -> (1 <= length ds <= 3)%nat ->
  all isspace_cp ws0 -> all isspace_cp ws1 -> all isdot_cp f ->
  keyword kw -> all tail_cp tr ->
  normalize_cmd_text t = Ok (Some (digits_value ds)).
Proof.
  intros Hs Hds Hlen H0' H1 Hf Hkw Htr. unfold normalize_cmd_text. rewrite Hs.
  pose proof (py_int_1_3 ds Hlen) as Hint.
  destruct (natural_re_core ds ws0 ws1 f kw tr) as (m & Hm & Hg); [done..|].
  rewrite (py_isdigit_elem_false c_min);
    [|rewrite !elem_of_app; right; right; by left|by apply hangul_not_isdigit].
  destruct Hds as [|d ds Hd Hds]; [simpl in Hlen; lia|].
  change ((d :: ds) ++ ?x) with (d :: ds ++ x) in *.
  rewrite cmd_re_none_head, short_re_none_head, Hm.
  - unfold int_group1. rewrite Hg. simpl default. by rewrite Hint.
  - intros ->. by rewrite hash_not_dec in Hd.
  - by apply dec_not_space.
  - intros ->. by rewrite hash_not_dec in Hd.
  - by apply dec_not_space.
  - intros ->. by rewrite hangul_not_dec in Hd.
Qed.

Lemma normalize_digits t ds :
  strip t = ds -> ds <> [] -> all isdigit_cp ds -> normalize_cmd_text t = Ok None.
Proof.
  intros Hs Hne Hds. unfold normalize_cmd_text. rewrite Hs.
  by rewrite py_isdigit_all.
Qed.

Lemma normalize_near_miss t ws ds ws' :
  strip t = c_hash :: ws ++ ds ++ ws' ++ [c_min] ->
  all isspace_cp ws -> all isdecimal_cp ds -> all isspace_cp ws' ->
  normalize_cmd_text t = Ok None.
Proof.
  intros Hs Hws Hds Hws'. unfold normalize_cmd_text. rewrite Hs.
  destruct (py_isdigit _); [done|].
  rewrite cmd_re_none_without_kw.
  - rewrite natural_re_none_head; [|done|apply hash_not_dec].
    replace (c_hash :: ws ++ ds ++ ws' ++ [c_min])
      with ((c_hash :: ws ++ ds ++ ws') ++ [c_min])
      by (simpl; by rewrite <- !app_assoc).
    rewrite short_re_none_unit. by destruct (re_match _ _).
  - rewrite not_elem_of_cons, !not_elem_of_app, not_elem_of_cons.
    split_and!; [done|by apply no_kw_in_spaces|by apply no_kw_in_digits
                 |by apply no_kw_in_spaces|done|apply not_elem_of_nil].
Qed.

(** C4 (as amended): [normalize_cmd_text] returns the written number of
    minutes for every text whose trimmed form is in the canonical family
    (optional [#], keyword, digits, optional unit word, white space allowed
    between the parts) with at most 4300 digits, in the short-marker family
    ([#] and 1-3 digits) or in the natural-language family (1-3 digits, unit
    word, a filler made of white space followed by characters other than a
    line feed, then one of the two keywords); it returns no-match for every
    pure-digit text and for every near-miss text ([#], digits, unit
    word). *)
Theorem normalize_cmd_text_families (t : pystr) :
  (forall hash ws1 ws2 ds ws3 unit,
      strip t = hash ++ ws1 ++ KW_BREAK ++ ws2 ++ ds ++ ws3 ++ unit ->
      is_opt c_hash hash -> all isspace_cp ws1 -> all isspace_cp ws2 ->
      all isdecimal_cp ds -> ds <> [] -> all isspace_cp ws3 -> is_opt c_min unit ->
      (length ds <= 4300)%nat ->
      normalize_cmd_text t = Ok (Some (digits_value ds)))
  /\ (forall ws ds,
      strip t = c_hash :: ws ++ ds ->
      all isspace_cp ws -> all isdecimal_cp ds -> (1 <= length ds <= 3)%nat ->
      normalize_cmd_text t = Ok (Some (digits_value ds)))
  /\ (forall ds ws0 ws1 f kw,
      strip t = ds ++ ws0 ++ c_min :: ws1 ++ f ++ kw ->
      all isdecimal_cp ds -> (1 <= length ds <= 3)%nat ->
      all isspace_cp ws0 -> all isspace_cp ws1 -> all isdot_cp f -> keyword kw ->
      normalize_cmd_text t = Ok (Some (digits_value ds)))
  /\ (forall ds,
      strip t = ds -> ds <> [] -> all isdigit_cp ds ->
      normalize_cmd_text t = Ok None)
  /\ (forall ws ds ws',
      strip t = c_hash :: ws ++ ds ++ ws' ++ [c_min] ->
      all isspace_cp ws -> all isdecimal_cp ds -> ds <> [] -> all isspace_cp ws' ->
      normalize_cmd_text t = Ok None).
Proof.
  split_and!.
  - intros hash ws1 ws2 ds ws3 unit Hs Hh H1 H2 Hds Hne H3 Hu Hlen.
    rewrite (normalize_canonical t hash ws1 ws2 ds ws3 unit) by done.
    rewrite py_int_within; [done|]. unfold INT_MAX_STR_DIGITS. lia.
  - intros. by eapply normalize_short.
  - intros ds ws0 ws1 f kw Hs **.
    apply (normalize_natural t ds ws0 ws1 f kw []); [|done..].
    by rewrite app_nil_r.
  - intros. by eapply normalize_digits.
  - intros. by eapply normalize_near_miss.
Qed.

(** C5 (as amended): for every text whose trimmed form is 1-3 digits, the
    unit word, a filler (white space, then characters other than a line
    feed), one of the two keywords, and then trailing characters that are
    Hangul syllables, white space or word characters, [normalize_cmd_text]
    returns the leading digits; and rule 4 is the only rule with such a
    tail: what rules 2 and 3 accept has nothing after the keyword (the
    marker) but white space, the digits and the unit word. *)
Theorem natural_form_tolerates_tail (t : pystr) :
  (forall ds ws0 ws1 f kw tr,
      strip t = ds ++ ws0 ++ c_min :: ws1 ++ f ++ kw ++ tr ->
      all isdecimal_cp ds -> (1 <= length ds <= 3)%nat ->
      all isspace_cp ws0 -> all isspace_cp ws1 -> all isdot_cp f -> keyword kw ->
      all tail_cp tr ->
      normalize_cmd_text t = Ok (Some (digits_value ds)))
  /\ (forall m, re_match CMD_RE (strip t) = Some m ->
      exists hash ws1 ws2 ds ws3 unit ws4 e,
        strip t = hash ++ ws1 ++ KW_BREAK ++ ws2 ++ ds ++ ws3 ++ unit ++ ws4 ++ e
        /\ is_opt c_hash hash /\ all isspace_cp ws1 /\ all isspace_cp ws2
        /\ all isdecimal_cp ds /\ ds <> [] /\ all isspace_cp ws3
        /\ is_opt c_min unit /\ all isspace_cp ws4 /\ is_opt 10 e)
  /\ (forall m, re_match SHORT_RE (strip t) = Some m ->
      exists ws0 ws1 ds ws2 e,
        strip t = ws0 ++ c_hash :: ws1 ++ ds ++ ws2 ++ e
        /\ all isspace_cp ws0 /\ all isspace_cp ws1 /\ all isdecimal_cp ds
        /\ (1 <= length ds <= 3)%nat /\ all isspace_cp ws2 /\ is_opt 10 e).
Proof.
  split_and!.
  - intros. by eapply normalize_natural.
  - intros m Hm. by eapply cmd_re_shape.
  - intros m Hm. by eapply short_re_shape.
Qed.

End Normalizer.

(** The Basic Latin database satisfies the laws. *)
Lemma latin_laws : @UnicodeLaws latin_db.
Proof.
  assert (forall c, isspace_cp c = true -> ascii_digit c = false) as Hsp.
  { intros c. unfold isspace_cp, ascii_digit.
    rewrite !orb_true_iff, !andb_true_iff, andb_false_iff, !N.leb_le, !N.eqb_eq,
      !N.leb_gt. lia. }
  assert (forall c, 44032 <= c <= 55203 -> ascii_digit c = false) as Hh.
  { intros c. unfold ascii_digit. rewrite andb_false_iff, !N.leb_gt. lia. }
  split; simpl.
  - intros c Hc. by rewrite Hsp.
  - intros c Hc. by rewrite Hh.
  - apply Hh.
  - done.
  - done.
Qed.

(** ** Effects: frames and the send arbiter *)


Lemma keeps_preorder {B} (f : state -> B) : PreOrder (keeps f).
Proof. split; [by intros s|]. intros s1 s2 s3 H1 H2. unfold keeps in *. congruence. Qed.

Lemma preserves_ret {A} R `{!Reflexive R} (a : A) : preserves R (ret a).
Proof. by intros s r s' [= <- <-]. Qed.

Lemma preserves_raise {A} R `{!Reflexive R} : preserves R (@raise A).
Proof. by intros s r s' [= <- <-]. Qed.

Lemma preserves_gets {A} R `{!Reflexive R} (f : state -> A) : preserves R (gets f).
Proof. by intros s r s' [= <- <-]. Qed.

Lemma preserves_modify R (g : state -> state) :
  (forall s, R s (g s)) -> preserves R (modify g).
Proof. intros Hg s r s' [= <- <-]. apply Hg. Qed.

Lemma preserves_page {A} R `{!Reflexive R} (r : res A) : preserves R (page r).
Proof. destruct r; [apply preserves_ret|apply preserves_raise]; done. Qed.

Lemma preserves_page_do R `{!Reflexive R} (ok : bool) : preserves R (page_do ok).
Proof. destruct ok; [apply preserves_ret|apply preserves_raise]; done. Qed.

Lemma preserves_bind {A B} R `{!Transitive R} (m : M A) (k : A -> M B) :
  preserves R m -> (forall a, preserves R (k a)) -> preserves R (bind m k).
Proof.
  intros Hm Hk s r s'. unfold bind. destruct (m s) as [[a|] s1] eqn:E.
  - intros Hr. etrans; [by eapply Hm|by eapply Hk].
  - intros [= <- <-]. by eapply Hm.
Qed.

Lemma preserves_try {A} R `{!Transitive R} (m h : M A) :
  preserves R m -> preserves R h -> preserves R (try_except m h).
Proof.
  intros Hm Hh s r s'. unfold try_except. destruct (m s) as [[a|] s1] eqn:E.
  - intros [= <- <-]. by eapply Hm.
  - intros Hr. etrans; [by eapply Hm|by eapply Hh].
Qed.

Lemma preserves_sleep R d : (forall v s, R s (set_clock v s)) -> preserves R (sleep d).
Proof. intros Hc. apply preserves_modify. intros s. apply Hc. Qed.

Lemma preserves_choice R `{!Reflexive R} n :
  (forall v s, R s (set_n_choices v s)) -> preserves R (choice n).
Proof. intros Hc s r s' [= <- <-]. apply Hc. Qed.

Lemma preserves_back_off R b : send_frame R -> preserves R (back_off b).
Proof.
  intros [[] ? ? ? ? ? ? ?]. unfold back_off.
  apply preserves_bind; [done|by apply preserves_gets|intros t].
  apply preserves_bind; [done|by apply preserves_modify|intros _].
  apply preserves_bind; [done|by apply preserves_modify|intros _].
  by apply preserves_sleep.
Qed.

Lemma preserves_submit R a text b : send_frame R -> preserves R (submit a text b).
Proof.
  intros HR. pose proof HR as [[] ? ? ? ? ? ? ?]. unfold submit.
  repeat (apply preserves_bind; [done| |intros ?]);
    try (by apply preserves_page_do); try (by apply preserves_page);
    try (by apply preserves_modify); try (by apply preserves_sleep).
  - apply preserves_try; [done|..]; by apply preserves_page_do.
  - match goal with |- preserves _ (if ?t then _ else _) => destruct t end.
    + apply preserves_bind; [done|by apply preserves_back_off|intros _].
      by apply preserves_ret.
    + apply preserves_bind; [done|by apply preserves_gets|intros t].
      apply preserves_bind; [done|by apply preserves_modify|intros _].
      apply preserves_bind; [done|by apply preserves_sleep|intros _].
      by apply preserves_ret.
Qed.

Lemma preserves_send_rounds R sc text n :
  send_frame R -> forall i b, preserves R (send_rounds sc text n i b).
Proof.
  intros HR. pose proof HR as [[] ? ? ? ? ? ? ?].
  induction n as [|n IH]; intros i b; simpl.
  - by apply preserves_modify.
  - assert (preserves R
      (sent <- try_except (submit (rounds sc i) text b) (back_off b ;;; ret false) ;;
       if sent then ret tt else send_rounds sc text n (S i) (next_backoff b))) as Hgo.
    { apply preserves_bind; [done| |intros [|]; [by apply preserves_ret|apply IH]].
      apply preserves_try; [done|by apply preserves_submit|].
      apply preserves_bind; [done|by apply preserves_back_off|intros _].
      by apply preserves_ret. }
    destruct (toast_before (rounds sc i)) as [[|]|]; [|done..].
    apply preserves_bind; [done|by apply preserves_back_off|intros _]. apply IH.
Qed.

Lemma preserves_type_and_send R text : send_frame R -> preserves R (type_and_send text).
Proof.
  intros HR. pose proof HR as [[] ? ? ? ? ? ? ?]. unfold type_and_send.
  apply preserves_bind; [done|by apply preserves_gets|intros now].
  apply preserves_bind; [done|by apply preserves_gets|intros cu].
  apply preserves_bind; [done| |intros _].
  { destruct (Qlt_bool now cu); [by apply preserves_sleep|by apply preserves_ret]. }
  apply preserves_bind; [done|by apply preserves_gets|intros t].
  apply preserves_bind; [done|by apply preserves_gets|intros lst].
  apply preserves_bind; [done| |intros _].
  { destruct (Qlt_bool _ _); [by apply preserves_sleep|by apply preserves_ret]. }
  apply preserves_bind; [done| |intros sc].
  { intros s r s' [= <- <-]. done. }
  apply preserves_bind; [done|by apply preserves_page|intros [|]].
  - by apply preserves_send_rounds.
  - by apply preserves_modify.
Qed.

Lemma Qlt_bool_true a b : Qlt_bool a b = true <-> (a < b)%Q.
Proof.
  unfold Qlt_bool. rewrite negb_true_iff. split.
  - intros Hf. apply Qnot_le_lt. intros Hle. apply Qle_bool_iff in Hle. congruence.
  - intros Hlt. destruct (Qle_bool b a) eqn:E; [|done].
    apply Qle_bool_iff in E. by apply Qle_not_lt in E.
Qed.

Lemma Qlt_bool_false a b : Qlt_bool a b = false <-> (b <= a)%Q.
Proof. unfold Qlt_bool. rewrite negb_false_iff. apply Qle_bool_iff. Qed.

(** *** The retry loop *)

Lemma back_off_eq b s :
  back_off b s
  = (Ok tt, set_clock (clock s + b)
              (set_backoffs (backoffs s ++ [b]) (set_cooldown_until (clock s + b) s))).
Proof. reflexivity. Qed.

Lemma failed_round sc text n i b s :
  round_fails (rounds sc i) = true ->
  exists s1,
    send_rounds sc text (S n) i b s = send_rounds sc text n (S i) (next_backoff b) s1
    /\ warnings s1 = warnings s /\ backoffs s1 = backoffs s ++ [b]
    /\ last_send_ts s1 = last_send_ts s /\ cooldown_until s1 = clock s1.
Proof.
  unfold round_fails, submit_ok. simpl send_rounds.
  destruct (rounds sc i) as [tb sk ck fk cl ty pr ta]. simpl.
  destruct tb as [[|]|]; intros Hf;
    [eexists; split; [reflexivity|by simpl]|..];
    destruct sk; try (eexists; split; [reflexivity|by simpl]);
    destruct ck; try (eexists; split; [reflexivity|by simpl]);
    destruct fk, cl; try (eexists; split; [reflexivity|by simpl]);
    destruct ty; try (eexists; split; [reflexivity|by simpl]);
    destruct pr; try (eexists; split; [reflexivity|by simpl]);
    destruct ta as [[|]|]; try (eexists; split; [reflexivity|by simpl]);
    done.
Qed.

Lemma good_round sc text n i b s :
  round_fails (rounds sc i) = false ->
  exists s1,
    send_rounds sc text (S n) i b s = (Ok tt, s1)
    /\ warnings s1 = warnings s /\ backoffs s1 = backoffs s
    /\ entered s1 = entered s ++ [text]
    /\ last_send_ts s1 = (clock s + (3 # 25))%Q.
Proof.
  unfold round_fails, submit_ok. simpl send_rounds.
  destruct (rounds sc i) as [tb sk ck fk cl ty pr ta]. simpl.
  destruct tb as [[|]|], sk, ck, fk, cl, ty, pr, ta as [[|]|]; try done;
    intros _; (eexists; split; [reflexivity|by simpl]).
Qed.

Lemma send_rounds_give_up sc text n : forall i b s,
  (forall k, (i <= k < i + n)%nat -> round_fails (rounds sc k) = true) ->
  exists s',
    send_rounds sc text n i b s = (Ok tt, s')
    /\ warnings s' = warnings s ++ [WarnSendFailed text]
    /\ backoffs s' = backoffs s ++ backoff_seq n b
    /\ last_send_ts s' = last_send_ts s
    /\ (n <> O \/ cooldown_until s = clock s -> cooldown_until s' = clock s').
Proof.
  induction n as [|n IH]; intros i b s Hall.
  - eexists. split; [reflexivity|]. simpl. rewrite app_nil_r.
    split_and!; try done. by intros [?|?].
  - destruct (failed_round sc text n i b s) as (s1 & -> & Hw & Hb & Hl & Hc).
    { apply Hall. lia. }
    destruct (IH (S i) (next_backoff b) s1) as (s' & -> & Hw' & Hb' & Hl' & Hc').
    { intros k Hk. apply Hall. lia. }
    exists s'. split; [done|]. rewrite Hw', Hb', Hl', Hw, Hb, Hl, <- app_assoc.
    split_and!; try done. intros _. apply Hc'. by right.
Qed.

Lemma send_rounds_succeed sc text j : forall n i b s,
  (j < n)%nat ->
  (forall k, (i <= k < i + j)%nat -> round_fails (rounds sc k) = true) ->
  round_fails (rounds sc (i + j)) = false ->
  exists s',
    send_rounds sc text n i b s = (Ok tt, s')
    /\ warnings s' = warnings s
    /\ backoffs s' = backoffs s ++ backoff_seq j b
    /\ last (entered s') = Some text.
Proof.
  induction j as [|j IH]; intros n i b s Hn Hall Hgood.
  - destruct n as [|n]; [lia|]. rewrite Nat.add_0_r in Hgood.
    destruct (good_round sc text n i b s Hgood) as (s1 & -> & Hw & Hb & He & _).
    exists s1. rewrite Hw, Hb, He, app_nil_r, last_snoc. done.
  - destruct n as [|n]; [lia|].
    destruct (failed_round sc text n i b s) as (s1 & -> & Hw & Hb & Hl & Hc).
    { apply Hall. lia. }
    destruct (IH n (S i) (next_backoff b) s1) as (s' & -> & Hw' & Hb' & He').
    { lia. } { intros k Hk. apply Hall. lia. }
    { by replace (S i + j)%nat with (i + S j)%nat by lia. }
    exists s'. rewrite Hw', Hb', Hw, Hb, <- app_assoc. done.
Qed.

Lemma send_rounds_returns sc text n : forall i b s,
  exists s', send_rounds sc text n i b s = (Ok tt, s').
Proof.
  induction n as [|n IH]; intros i b s; [by eexists|].
  destruct (round_fails (rounds sc i)) eqn:E.
  - destruct (failed_round sc text n i b s E) as (s1 & -> & _). apply IH.
  - destruct (good_round sc text n i b s E) as (s1 & -> & _). by eexists.
Qed.

(** *** [type_and_send] *)

Local Arguments send_rounds : simpl never.
Local Arguments type_and_send : simpl never.

(** Up to the look-up of the input control only the clock moves. *)
Lemma type_and_send_unfold text s :
  exists s0,
    type_and_send text s
    = match control (sends s (n_sends s)) with
      | Ok true => send_rounds (sends s (n_sends s)) text MAX_RETRY 0 (4 # 5) s0
      | Ok false => warn WarnNoInput s0
      | Raise => (Raise, s0)
      end
    /\ warnings s0 = warnings s /\ backoffs s0 = backoffs s
    /\ last_send_ts s0 = last_send_ts s /\ entered s0 = entered s.
Proof.
  unfold type_and_send, bind, time, gets. simpl.
  destruct (Qlt_bool (clock s) (cooldown_until s)); simpl;
    (match goal with |- context [Qlt_bool ?a ?b] => destruct (Qlt_bool a b) end); simpl;
    (eexists; split; [destruct (control _) as [[|]|]; reflexivity|by simpl]).
Qed.

(** *** [start_break] *)

Lemma clamp_minutes_range m : (1 <= clamp_minutes m <= 180)%Z.
Proof. unfold clamp_minutes. lia. Qed.

Lemma clamp_minutes_idem m : clamp_minutes (clamp_minutes m) = clamp_minutes m.
Proof. unfold clamp_minutes. lia. Qed.

Lemma start_break_refused_global m who s :
  global_guard_hot m s ->
  start_break m who s = (Ok (BreakRefused "minute-guard"), s).
Proof.
  intros Hg%Qlt_bool_true. unfold start_break, bind, time, gets. simpl.
  by rewrite Hg.
Qed.

Lemma start_break_refused_user m who s :
  ~ global_guard_hot m s -> user_guard_hot m who s ->
  start_break m who s
  = (Ok (BreakRefused "user-minute-guard"),
     set_minute_global_guard
       (<[clamp_minutes m := clock s]> (minute_global_guard s)) s).
Proof.
  intros Hg%Qnot_lt_le%Qlt_bool_false Hu%Qlt_bool_true.
  unfold start_break, bind, time, gets. simpl. by rewrite Hg, Hu.
Qed.

Lemma start_break_passed m who s :
  ~ global_guard_hot m s -> ~ user_guard_hot m who s ->
  start_break m who s
  = match type_and_send (start_text m who s) (guards_passed m who s) with
    | (Ok _, s2) =>
      (Ok BreakOk, set_running_timers (running_timers s2 ++ [break_timer m who s]) s2)
    | (Raise, s2) => (Raise, s2)
    end.
Proof.
  intros Hg%Qnot_lt_le%Qlt_bool_false Hu%Qnot_lt_le%Qlt_bool_false.
  unfold start_break, bind at 1 2 3 4 5 6 7 8 9, time, gets, say. simpl.
  rewrite Hg, Hu. unfold bind. simpl.
  change (type_and_send ?t ?s0) with (type_and_send (start_text m who s) (guards_passed m who s)).
  by destruct (type_and_send _ _) as [[[]|] s2].
Qed.

(** ** Break timers and the send arbiter: the claims *)

Local Arguments start_break : simpl never.

Lemma send_frame_keeps {B} (f : state -> B) :
  (forall v s, f (set_clock v s) = f s) ->
  (forall v s, f (set_cooldown_until v s) = f s) ->
  (forall v s, f (set_last_send_ts v s) = f s) ->
  (forall v s, f (set_entered v s) = f s) ->
  (forall v s, f (set_warnings v s) = f s) ->
  (forall v s, f (set_backoffs v s) = f s) ->
  (forall v s, f (set_n_sends v s) = f s) ->
  send_frame (keeps f).
Proof. intros. split; [apply keeps_preorder|done..]. Qed.

Lemma type_and_send_keeps_guards text s r s' :
  type_and_send text s = (r, s') ->
  minute_global_guard s' = minute_global_guard s
  /\ cmd_guard s' = cmd_guard s
  /\ running_timers s' = running_timers s.
Proof.
  intros Hrun. split_and!.
  - refine (preserves_type_and_send (keeps minute_global_guard) text _ s r s' Hrun).
    apply send_frame_keeps; done.
  - refine (preserves_type_and_send (keeps cmd_guard) text _ s r s' Hrun).
    apply send_frame_keeps; done.
  - refine (preserves_type_and_send (keeps running_timers) text _ s r s' Hrun).
    apply send_frame_keeps; done.
Qed.

Lemma type_and_send_returns text s :
  control (sends s (n_sends s)) <> Raise ->
  exists s', type_and_send text s = (Ok tt, s').
Proof.
  intros Hc. destruct (type_and_send_unfold text s) as (s0 & -> & _).
  destruct (control _) as [[|]|]; [apply send_rounds_returns|by eexists|done].
Qed.

(** A call that gets past the global guard records its time there; what it
    records in the requester table depends on the second guard. *)
Lemma start_break_tables m who s r s1 :
  start_break m who s = (r, s1) ->
  ~ global_guard_hot m s ->
  minute_global_guard s1 = <[clamp_minutes m := clock s]> (minute_global_guard s)
  /\ (user_guard_hot m who s ->
      r = Ok (BreakRefused "user-minute-guard") /\ cmd_guard s1 = cmd_guard s
      /\ running_timers s1 = running_timers s)
  /\ (~ user_guard_hot m who s ->
      cmd_guard s1
      = <[guard_key who (clamp_minutes m) := clock s]> (cmd_guard s)).
Proof.
  intros Hrun Hg.
  destruct (Qlt_le_dec (clock s - get_ts (cmd_guard s) (guard_key who (clamp_minutes m)))
              CMD_GUARD_TTL) as [Hu|Hu].
  - rewrite start_break_refused_user in Hrun by done.
    injection Hrun as <- <-. split_and!; [done|done|]. intros Hn. by destruct Hn.
  - apply Qle_not_lt in Hu. rewrite start_break_passed in Hrun by done.
    destruct (type_and_send _ _) as [[[]|] s2] eqn:E;
      apply type_and_send_keeps_guards in E as (E1 & E2 & E3);
      injection Hrun as <- <-; (split_and!; [done|by intros ?|by intros _]).
Qed.






(** ** The chat-item handler *)

Section Handler.
Context `{UnicodeDb}.
Variable BOT_NAME : pystr.

Lemma preserves_start_break R m who : break_frame R -> preserves R (start_break m who).
Proof.
  intros [HR ? ? ? ?]. pose proof HR as [[] ? ? ? ? ? ? ?]. unfold start_break.
  apply preserves_bind; [done|by apply preserves_gets|intros now].
  apply preserves_bind; [done|by apply preserves_gets|intros g].
  destruct (Qlt_bool _ _); [by apply preserves_ret|].
  apply preserves_bind; [done|by apply preserves_modify|intros _].
  apply preserves_bind; [done|by apply preserves_gets|intros cg].
  destruct (Qlt_bool _ _); [by apply preserves_ret|].
  apply preserves_bind; [done|by apply preserves_modify|intros _].
  apply preserves_bind; [done|by apply preserves_choice|intros i].
  apply preserves_bind; [done|by apply preserves_choice|intros j].
  apply preserves_bind; [done|by apply preserves_type_and_send|intros _].
  apply preserves_bind; [done|by apply preserves_modify|intros _].
  by apply preserves_ret.
Qed.

Lemma preserves_run_command R t sender :
  break_frame R -> preserves R (run_command t sender).
Proof.
  intros HB. pose proof HB as [HR ? ? ? ?]. pose proof HR as [[] ? ? ? ? ? ? ?].
  unfold run_command.
  destruct (normalize_cmd_text t) as [[minutes|]|];
    [|by apply preserves_ret|by apply preserves_raise].
  apply preserves_bind; [done| |intros sender'].
  { destruct sender; [by apply preserves_ret|].
    apply preserves_bind; [done|by apply preserves_sleep|intros _].
    apply preserves_bind; [done|by apply preserves_gets|intros now1].
    apply preserves_bind; [done|by apply preserves_gets|intros rs].
    by apply preserves_ret. }
  apply preserves_bind; [done|by apply preserves_gets|intros now2].
  apply preserves_bind; [done|by apply preserves_gets|intros rs].
  apply preserves_bind; [done|by apply preserves_start_break|intros _].
  by apply preserves_ret.
Qed.

Lemma preserves_handle_chat_item R text sender :
  handler_frame R -> preserves R (handle_chat_item BOT_NAME text sender).
Proof.
  intros [HB ? ?]. pose proof HB as [HR ? ? ? ?]. pose proof HR as [[] ? ? ? ? ? ? ?].
  unfold handle_chat_item.
  destruct (is_self_echo _ _); [by apply preserves_ret|].
  destruct (has_bot_phrase _); [by apply preserves_ret|].
  destruct (is_start_noise _); [by apply preserves_ret|].
  destruct (py_isdigit _); [by apply preserves_ret|].
  destruct (is_back _).
  - apply preserves_bind; [done|by apply preserves_gets|intros now].
    apply preserves_bind; [done|by apply preserves_gets|intros bc].
    destruct (Qle_bool _ _); [|by apply preserves_ret].
    apply preserves_bind; [done|by apply preserves_modify|intros _].
    apply preserves_bind; [done|by apply preserves_choice|intros i].
    by apply preserves_type_and_send.
  - apply preserves_bind; [done|by apply preserves_gets|intros now].
    apply preserves_bind; [done|by apply preserves_gets|intros g].
    destruct (Qlt_bool _ _); [by apply preserves_ret|].
    apply preserves_bind; [done|by apply preserves_gets|intros now'].
    apply preserves_bind; [done|by apply preserves_modify|intros _].
    by apply preserves_run_command.
Qed.

Lemma break_frame_keeps {B} (f : state -> B) :
  send_frame (keeps f) ->
  (forall v s, f (set_minute_global_guard v s) = f s) ->
  (forall v s, f (set_cmd_guard v s) = f s) ->
  (forall v s, f (set_running_timers v s) = f s) ->
  (forall v s, f (set_n_choices v s) = f s) ->
  break_frame (keeps f).
Proof. intros. by split. Qed.

Lemma reaches_text_guard_tests text sender :
  reaches_text_guard BOT_NAME text sender = true ->
  is_self_echo BOT_NAME sender = false /\ has_bot_phrase (strip text) = false
  /\ is_start_noise (strip text) = false /\ py_isdigit (strip text) = false
  /\ is_back (strip text) = false.
Proof.
  unfold reaches_text_guard. rewrite !andb_true_iff, !negb_true_iff. tauto.
Qed.

Lemma handle_ignored text sender s :
  reaches_text_guard BOT_NAME text sender = true ->
  text_guard_hot text s ->
  handle_chat_item BOT_NAME text sender s = (Ok tt, s).
Proof.
  intros (E1 & E2 & E3 & E4 & E5)%reaches_text_guard_tests Hhot%Qlt_bool_true.
  unfold handle_chat_item. rewrite E1, E2, E3, E4, E5.
  unfold bind, time, gets. simpl. by rewrite Hhot.
Qed.

Lemma handle_recorded text sender s :
  reaches_text_guard BOT_NAME text sender = true ->
  ~ text_guard_hot text s ->
  handle_chat_item BOT_NAME text sender s
  = run_command (strip text) sender
      (set_cmd_text_guard
         (<[text_key (strip text) := clock s]> (cmd_text_guard s)) s).
Proof.
  intros (E1 & E2 & E3 & E4 & E5)%reaches_text_guard_tests
         Hcold%Qnot_lt_le%Qlt_bool_false.
  unfold handle_chat_item. rewrite E1, E2, E3, E4, E5.
  unfold bind at 1 2 3 4, time, gets. simpl. by rewrite Hcold.
Qed.

Lemma run_command_keeps_text_guard t sender s r s' :
  run_command t sender s = (r, s') -> cmd_text_guard s' = cmd_text_guard s.
Proof.
  apply (preserves_run_command (keeps cmd_text_guard)).
  apply break_frame_keeps; [apply send_frame_keeps|..]; done.
Qed.

(** C9 (as amended): for every message that is not a self-echo, known
    noise, pure digits or a return acknowledgement, [handle_chat_item]
    consults the 10-second same-sentence guard.  A message the guard refuses
    is ignored and nothing is recorded for it.  For a message the guard lets
    through, the time is recorded under its key before the normaliser runs,
    so also when the normaliser returns no-match; and a later message with
    the same key (the text trimmed, lower-cased, white space collapsed), less
    than 10 seconds after the recorded one, is ignored. *)
Theorem same_sentence_guard text sender s r s' :
  reaches_text_guard BOT_NAME text sender = true ->
  handle_chat_item BOT_NAME text sender s = (r, s') ->
  (text_guard_hot text s -> r = Ok tt /\ s' = s)
  /\ (~ text_guard_hot text s ->
      cmd_text_guard s'
      = <[text_key (strip text) := clock s]> (cmd_text_guard s)
      /\ (normalize_cmd_text (strip text) = Ok None ->
          r = Ok tt
          /\ s' = set_cmd_text_guard
                    (<[text_key (strip text) := clock s]> (cmd_text_guard s)) s)
      /\ forall text2 sender2 s2,
          reaches_text_guard BOT_NAME text2 sender2 = true ->
          text_key (strip text2) = text_key (strip text) ->
          cmd_text_guard s2 !! text_key (strip text)
          = cmd_text_guard s' !! text_key (strip text) ->
          (clock s2 - clock s < 10)%Q ->
          handle_chat_item BOT_NAME text2 sender2 s2 = (Ok tt, s2)).
Proof.
  intros Hreach Hrun. split.
  - intros Hhot. rewrite handle_ignored in Hrun by done. by injection Hrun as <- <-.
  - intros Hcold. rewrite handle_recorded in Hrun by done.
    assert (cmd_text_guard s'
            = <[text_key (strip text) := clock s]> (cmd_text_guard s)) as Hrec.
    { by apply run_command_keeps_text_guard in Hrun. }
    split_and!; [done| |].
    + intros Hnone. unfold run_command in Hrun. rewrite Hnone in Hrun.
      by injection Hrun as <- <-.
    + intros text2 sender2 s2 Hreach2 Hkey Hs2 Hlt.
      apply handle_ignored; [done|]. unfold text_guard_hot.
      unfold get_ts. by rewrite Hkey, Hs2, Hrec, lookup_insert_eq.
Qed.

End Handler.

(** ** The feed scanner and the bootstrap *)

Local Arguments handle_chat_item : simpl never.

Section Scanner.
Context `{UnicodeDb}.
Variable BOT_NAME : pystr.

Lemma handler_frame_keeps {B} (f : state -> B) :
  break_frame (keeps f) ->
  (forall v s, f (set_cmd_text_guard v s) = f s) ->
  (forall v s, f (set_back_cooldown v s) = f s) ->
  handler_frame (keeps f).
Proof. intros. by split. Qed.

Ltac solve_keeps :=
  apply handler_frame_keeps;
    [apply break_frame_keeps; [apply send_frame_keeps|..]|..]; done.

(** The handler leaves the scanner's tables, the markers and the dispatch
    log alone. *)
Lemma handle_keeps_scanner text sender s r s' :
  handle_chat_item BOT_NAME text sender s = (r, s') ->
  trigger_seen s' = trigger_seen s /\ msg_seen s' = msg_seen s
  /\ seen_attr s' = seen_attr s /\ dispatched s' = dispatched s.
Proof.
  intros Hrun. split_and!.
  - refine (preserves_handle_chat_item BOT_NAME (keeps trigger_seen) text sender
              _ s r s' Hrun). solve_keeps.
  - refine (preserves_handle_chat_item BOT_NAME (keeps msg_seen) text sender
              _ s r s' Hrun). solve_keeps.
  - refine (preserves_handle_chat_item BOT_NAME (keeps seen_attr) text sender
              _ s r s' Hrun). solve_keeps.
  - refine (preserves_handle_chat_item BOT_NAME (keeps dispatched) text sender
              _ s r s' Hrun). solve_keeps.
Qed.

(** The bubble is handed over: both guards were cold. *)
Lemma scan_item_dispatch b raw s :
  readable b raw s -> ~ sender_msg_hot b raw s -> ~ msg_only_hot raw s ->
  scan_item BOT_NAME b s
  = handle_chat_item BOT_NAME (item_msg (strip raw)) (item_sender b (strip raw))
      (scan_ready b raw s).
Proof.
  intros (Ha & Hid & Hraw & Hm & Hne) Hk%Qnot_lt_le%Qlt_bool_false
         Hk2%Qnot_lt_le%Qlt_bool_false.
  unfold scan_item, mark_seen, scan_ready, marked.
  rewrite Ha, Hraw, Hm. unfold bind at 1 2 3 4 5 6. simpl.
  rewrite bool_decide_eq_false_2 by done. simpl.
  destruct (strip raw) as [|c0 content] eqn:Ec; [done|]. simpl.
  destruct (truthy (item_sender b (c0 :: content))) eqn:Et;
    unfold bind, time, gets; simpl; rewrite Hk;
    cbn [msg_seen set_recent_sender set_seen_attr]; rewrite Hk2; reflexivity.
Qed.

(** The bubble is marked and dropped: a guard was hot. *)
Lemma scan_item_suppressed b raw s :
  readable b raw s -> sender_msg_hot b raw s \/ msg_only_hot raw s ->
  scan_item BOT_NAME b s = (Ok tt, marked b raw s).
Proof.
  intros (Ha & Hid & Hraw & Hm & Hne) Hhot.
  unfold scan_item, mark_seen, marked.
  rewrite Ha, Hraw, Hm. unfold bind at 1 2 3 4 5 6. simpl.
  rewrite bool_decide_eq_false_2 by done. simpl.
  destruct (strip raw) as [|c0 content] eqn:Ec; [done|]. simpl.
  assert (Qlt_bool (clock s - get_ts (trigger_seen s)
            (sender_msg_key (item_sender b (c0 :: content)) (item_msg (c0 :: content))))
            SENDER_MSG_TTL = true
          \/ Qlt_bool (clock s - get_ts (msg_seen s) (msg_key (item_msg (c0 :: content))))
               MSG_ONLY_TTL = true) as Hb.
  { unfold sender_msg_hot, msg_only_hot in Hhot. rewrite Ec in Hhot.
    destruct Hhot as [?%Qlt_bool_true|?%Qlt_bool_true]; auto. }
  destruct (truthy (item_sender b (c0 :: content))) eqn:Et;
    unfold bind, time, gets; simpl;
    (destruct (Qlt_bool _ SENDER_MSG_TTL) eqn:E1; [reflexivity|]);
    (destruct Hb as [Hb|Hb]; [congruence|]);
    cbn [msg_seen set_recent_sender set_seen_attr]; by rewrite Hb.
Qed.

(** Without a readable, unmarked, non-empty bubble nothing is handed over
    and at most the marker is set. *)
Lemma scan_item_skipped b s r s' :
  scan_item BOT_NAME b s = (r, s') ->
  (forall raw, ~ readable b raw s) ->
  dispatched s' = dispatched s /\ seen_attr s ⊆ seen_attr s'
  /\ trigger_seen s' = trigger_seen s /\ msg_seen s' = msg_seen s.
Proof.
  intros Hrun Hno. unfold scan_item, mark_seen in Hrun.
  destruct (b_get_attribute_ok b) eqn:Ha; simpl in Hrun;
    [|by injection Hrun as <- <-].
  unfold bind at 1 2 in Hrun. simpl in Hrun.
  case_bool_decide as Hid; [by injection Hrun as <- <-|].
  destruct (b_inner_text b) as [raw|] eqn:Hraw; simpl in Hrun;
    [|by injection Hrun as <- <-].
  unfold bind at 1 2 in Hrun. simpl in Hrun.
  destruct (b_mark_ok b) eqn:Hm; simpl in Hrun; [|by injection Hrun as <- <-].
  destruct (strip raw) as [|c0 content] eqn:Ec; simpl in Hrun.
  - injection Hrun as <- <-. simpl. split_and!; [done|set_solver|done|done].
  - destruct (Hno raw). unfold readable. rewrite Ec. done.
Qed.

Lemma readable_dec b s :
  (exists raw, readable b raw s) \/ (forall raw, ~ readable b raw s).
Proof.
  unfold readable.
  destruct (b_get_attribute_ok b); [|right; intros raw (? & _); done].
  destruct (decide (b_id b ∈ seen_attr s)); [right; intros raw (_ & ? & _); done|].
  destruct (b_inner_text b) as [raw|]; [|right; intros raw (_ & _ & ? & _); done].
  destruct (b_mark_ok b); [|right; intros raw' (_ & _ & _ & ? & _); done].
  destruct (strip raw) as [|c0 content] eqn:E.
  - right. intros raw' (_ & _ & [= <-] & _ & Hne). done.
  - left. exists raw. rewrite E. done.
Qed.

Lemma marked_fields b raw s :
  seen_attr (marked b raw s) = {[b_id b]} ∪ seen_attr s
  /\ dispatched (marked b raw s) = dispatched s
  /\ trigger_seen (marked b raw s) = trigger_seen s
  /\ msg_seen (marked b raw s) = msg_seen s.
Proof. unfold marked. by destruct (truthy _). Qed.

Lemma scan_ready_fields b raw s :
  seen_attr (scan_ready b raw s) = {[b_id b]} ∪ seen_attr s
  /\ dispatched (scan_ready b raw s)
     = dispatched s ++ [(b_id b, item_sender b (strip raw), item_msg (strip raw))]
  /\ trigger_seen (scan_ready b raw s)
     = <[sender_msg_key (item_sender b (strip raw)) (item_msg (strip raw)) := clock s]>
         (trigger_seen s)
  /\ msg_seen (scan_ready b raw s)
     = <[msg_key (item_msg (strip raw)) := clock s]> (msg_seen s).
Proof.
  unfold scan_ready. simpl. split_and!; try done. apply marked_fields.
Qed.

(** A hot guard keeps the bubble from the handler. *)
Lemma scan_item_hot_no_dispatch b s r s' :
  (forall raw, readable b raw s -> sender_msg_hot b raw s \/ msg_only_hot raw s) ->
  scan_item BOT_NAME b s = (r, s') -> dispatched s' = dispatched s.
Proof.
  intros Hhot Hrun. destruct (readable_dec b s) as [[raw Hr]|Hno].
  - rewrite (scan_item_suppressed b raw s Hr (Hhot raw Hr)) in Hrun.
    injection Hrun as <- <-. apply marked_fields.
  - by apply (scan_item_skipped b s r s' Hrun).
Qed.

Lemma scan_rel_same s s' :
  seen_attr s' = seen_attr s -> dispatched s' = dispatched s -> scan_rel s s'.
Proof.
  intros Hs Hd. split; [by rewrite Hs|]. exists []. rewrite Hd, app_nil_r.
  split_and!; [done|constructor|]. intros i Hi. by apply elem_of_nil in Hi.
Qed.

Lemma scan_rel_marked s s' :
  seen_attr s ⊆ seen_attr s' -> dispatched s' = dispatched s -> scan_rel s s'.
Proof.
  intros Hs Hd. split; [done|]. exists []. rewrite Hd, app_nil_r.
  split_and!; [done|constructor|]. intros i Hi. by apply elem_of_nil in Hi.
Qed.

Lemma scan_rel_preorder : PreOrder scan_rel.
Proof.
  split.
  - intros s. by apply scan_rel_same.
  - intros s1 s2 s3 (Hs12 & new1 & Hd1 & Hn1 & Hi1) (Hs23 & new2 & Hd2 & Hn2 & Hi2).
    split; [set_solver|]. exists (new1 ++ new2).
    rewrite Hd2, Hd1, <- app_assoc. split; [done|].
    unfold ids in *. rewrite fmap_app. split.
    + apply NoDup_app. split_and!; [done| |done].
      intros i Hin1 Hin2. apply Hi1 in Hin1 as [_ Hin1]. apply Hi2 in Hin2 as [Hin2 _].
      done.
    + intros i [Hi|Hi]%elem_of_app.
      * apply Hi1 in Hi as [? ?]. split; [done|set_solver].
      * apply Hi2 in Hi as [? ?]. split; [set_solver|done].
Qed.

Lemma scan_item_rel b : preserves scan_rel (scan_item BOT_NAME b).
Proof.
  intros s r s' Hrun. destruct (readable_dec b s) as [[raw Hr]|Hno].
  - destruct (Qlt_le_dec
      (clock s - get_ts (trigger_seen s)
         (sender_msg_key (item_sender b (strip raw)) (item_msg (strip raw))))
      SENDER_MSG_TTL) as [Hk|Hk].
    { rewrite (scan_item_suppressed b raw s Hr) in Hrun by (by left).
      injection Hrun as <- <-. destruct (marked_fields b raw s) as (E1 & E2 & _).
      apply scan_rel_marked; [rewrite E1; set_solver|done]. }
    destruct (Qlt_le_dec
      (clock s - get_ts (msg_seen s) (msg_key (item_msg (strip raw)))) MSG_ONLY_TTL)
      as [Hk2|Hk2].
    { rewrite (scan_item_suppressed b raw s Hr) in Hrun by (by right).
      injection Hrun as <- <-. destruct (marked_fields b raw s) as (E1 & E2 & _).
      apply scan_rel_marked; [rewrite E1; set_solver|done]. }
    rewrite (scan_item_dispatch b raw s Hr) in Hrun
      by (by apply Qle_not_lt).
    apply handle_keeps_scanner in Hrun as (_ & _ & Hs & Hd).
    destruct (scan_ready_fields b raw s) as (E1 & E2 & _).
    destruct Hr as (_ & Hid & _).
    split; [rewrite Hs, E1; set_solver|].
    eexists. rewrite Hd, E2. split; [done|]. simpl. split.
    + apply NoDup_singleton.
    + intros i ->%list_elem_of_singleton. split; [done|]. rewrite Hs, E1. set_solver.
  - destruct (scan_item_skipped b s r s' Hrun Hno) as (Hd & Hs & _).
    by apply scan_rel_marked.
Qed.

Lemma scan_items_rel bs : preserves scan_rel (scan_items BOT_NAME bs).
Proof.
  pose proof scan_rel_preorder as [].
  induction bs as [|b bs IH]; simpl; [by apply preserves_ret|].
  apply preserves_bind; [done| |intros _; apply IH].
  apply preserves_try; [done|apply scan_item_rel|by apply preserves_ret].
Qed.

Lemma scan_cycle_rel p : preserves scan_rel (scan_cycle BOT_NAME p).
Proof.
  pose proof scan_rel_preorder as []. unfold scan_cycle.
  apply preserves_bind; [done| |intros _].
  - apply preserves_try; [done| |by apply preserves_ret].
    apply preserves_bind; [done|by apply preserves_page|intros bs].
    apply scan_items_rel.
  - apply preserves_sleep. intros v s. by apply scan_rel_same.
Qed.

Lemma scan_loop_rel polls : preserves scan_rel (scan_loop BOT_NAME polls).
Proof.
  pose proof scan_rel_preorder as [].
  induction polls as [|p ps IH]; simpl; [by apply preserves_ret|].
  apply preserves_bind; [done|apply scan_cycle_rel|intros _; apply IH].
Qed.

(** Neither a failing poll nor a failing item stops the loop. *)
Lemma scan_cycle_returns p s : exists s', scan_cycle BOT_NAME p s = (Ok tt, s').
Proof.
  unfold scan_cycle, bind at 1, try_except.
  destruct ((bs <- page p ;; scan_items BOT_NAME bs) s) as [[[]|] s1]; by eexists.
Qed.

Lemma scan_loop_returns polls : forall s r s',
  scan_loop BOT_NAME polls s = (r, s') -> r = Ok tt.
Proof.
  induction polls as [|p ps IH]; intros s r s'; simpl.
  - by intros [= <- _].
  - unfold bind. destruct (scan_cycle_returns p s) as (s1 & ->). apply IH.
Qed.

Lemma preload_marks_spec bs : forall cnt s,
  exists n s',
    preload_marks bs cnt s = (Ok n, s')
    /\ dispatched s' = dispatched s /\ seen_attr s ⊆ seen_attr s'
    /\ forall b, b ∈ bs -> b_mark_ok b = true -> b_id b ∈ seen_attr s'.
Proof.
  induction bs as [|b bs IH]; intros cnt s.
  - exists cnt, s. split_and!; [done..|]. intros b Hb. by apply elem_of_nil in Hb.
  - simpl. unfold bind at 1, try_except, mark_seen, bind at 1 2.
    destruct (b_mark_ok b) eqn:Hm; simpl.
    + destruct (IH (S cnt) (set_seen_attr ({[b_id b]} ∪ seen_attr s) s))
        as (n & s' & -> & Hd & Hs & Hin).
      exists n, s'. simpl in *. split_and!; [done|done|set_solver|].
      intros b' [->|Hb']%elem_of_cons Hok; [set_solver|by apply Hin].
    + destruct (IH cnt s) as (n & s' & -> & Hd & Hs & Hin).
      exists n, s'. split_and!; [done..|].
      intros b' [->|Hb']%elem_of_cons Hok; [congruence|by apply Hin].
Qed.

(** C2: once the marker of a feed item is set, no later scan cycle hands
    the item to the handler.  The scanner sets the marker right after it
    has read the content and before anything else, so the handler is called
    in a state where the marker is already there; over any run of polls,
    whatever is fetched, however often, and whatever raises, no item is
    handed over twice, every item handed over is marked, and the loop goes
    on. *)
Theorem marked_items_dispatched_once polls s r s' :
  scan_loop BOT_NAME polls s = (r, s') ->
  r = Ok tt
  /\ seen_attr s ⊆ seen_attr s'
  /\ (exists new,
        dispatched s' = dispatched s ++ new
        /\ NoDup (ids new)
        /\ (forall i, i ∈ seen_attr s -> i ∉ ids new)
        /\ (forall i, i ∈ ids new -> i ∈ seen_attr s'))
  /\ (forall b raw s0,
        readable b raw s0 -> ~ sender_msg_hot b raw s0 -> ~ msg_only_hot raw s0 ->
        scan_item BOT_NAME b s0
        = handle_chat_item BOT_NAME (item_msg (strip raw)) (item_sender b (strip raw))
            (scan_ready b raw s0)
        /\ b_id b ∈ seen_attr (scan_ready b raw s0)).
Proof.
  intros Hrun. split; [by eapply scan_loop_returns|].
  destruct (scan_loop_rel polls s r s' Hrun) as (Hs & new & Hd & Hn & Hi).
  split; [done|]. split.
  - exists new. split_and!; [done|done| |].
    + intros i Hin Hnew. by apply Hi in Hnew as [? _].
    + intros i Hnew. by apply Hi in Hnew as [_ ?].
  - intros b raw s0 Hr Hk Hk2. split; [by apply scan_item_dispatch|].
    destruct (scan_ready_fields b raw s0) as (-> & _). set_solver.
Qed.

(** The bootstrap hands nothing to the handler and marks every visible
    item whose marking call returns; an item it has marked is never handed
    to the handler by a later scan cycle, whatever its content. *)
Theorem bootstrap_items_never_dispatched bs s :
  exists n s',
    preload_mark_seen (Ok bs) s = (Ok n, s')
    /\ dispatched s' = dispatched s
    /\ forall b, b ∈ bs -> b_mark_ok b = true ->
       b_id b ∈ seen_attr s'
       /\ forall s1 polls r s'',
           seen_attr s' ⊆ seen_attr s1 ->
           scan_loop BOT_NAME polls s1 = (r, s'') ->
           exists new, dispatched s'' = dispatched s1 ++ new /\ b_id b ∉ ids new.
Proof.
  destruct (preload_marks_spec bs 0 s) as (n & s' & Hrun & Hd & Hs & Hin).
  exists n, s'. split; [done|]. split; [done|].
  intros b Hb Hok. split; [by apply Hin|].
  intros s1 polls r s'' Hsub Hloop.
  destruct (scan_loop_rel polls s1 r s'' Hloop) as (_ & new & Hd' & _ & Hi).
  exists new. split; [done|]. intros Hnew. apply Hi in Hnew as [Hnot _].
  apply Hnot, Hsub. by apply Hin.
Qed.

(** C10: for every unmarked, non-empty feed item that passes the two TTL
    guards, the scanner records the time under the sender+message key and
    under the message-only key before it calls the handler, whatever the
    handler then does with the item; so a later item with the same message
    key less than 15 seconds later, or with the same sender+message key less
    than 8 seconds later, is not handed to the handler. *)
Theorem scanner_guards_recorded_first b raw s r s' :
  readable b raw s -> ~ sender_msg_hot b raw s -> ~ msg_only_hot raw s ->
  scan_item BOT_NAME b s = (r, s') ->
  let sender := item_sender b (strip raw) in
  let msg_text := item_msg (strip raw) in
  scan_item BOT_NAME b s
  = handle_chat_item BOT_NAME msg_text sender (scan_ready b raw s)
  /\ trigger_seen (scan_ready b raw s)
     = <[sender_msg_key sender msg_text := clock s]> (trigger_seen s)
  /\ msg_seen (scan_ready b raw s) = <[msg_key msg_text := clock s]> (msg_seen s)
  /\ trigger_seen s' = <[sender_msg_key sender msg_text := clock s]> (trigger_seen s)
  /\ msg_seen s' = <[msg_key msg_text := clock s]> (msg_seen s)
  /\ dispatched s' = dispatched s ++ [(b_id b, sender, msg_text)]
  /\ (forall b2 s2 r2 s2',
        (forall raw2, b_inner_text b2 = Ok raw2 ->
                      msg_key (item_msg (strip raw2)) = msg_key msg_text) ->
        msg_seen s2 !! msg_key msg_text = msg_seen s' !! msg_key msg_text ->
        (clock s2 - clock s < MSG_ONLY_TTL)%Q ->
        scan_item BOT_NAME b2 s2 = (r2, s2') ->
        dispatched s2' = dispatched s2)
  /\ (forall b2 s2 r2 s2',
        (forall raw2, b_inner_text b2 = Ok raw2 ->
                      sender_msg_key (item_sender b2 (strip raw2)) (item_msg (strip raw2))
                      = sender_msg_key sender msg_text) ->
        trigger_seen s2 !! sender_msg_key sender msg_text
        = trigger_seen s' !! sender_msg_key sender msg_text ->
        (clock s2 - clock s < SENDER_MSG_TTL)%Q ->
        scan_item BOT_NAME b2 s2 = (r2, s2') ->
        dispatched s2' = dispatched s2).
Proof.
  intros Hr Hk Hk2 Hrun sender msg_text.
  pose proof (scan_item_dispatch b raw s Hr Hk Hk2) as Heq.
  destruct (scan_ready_fields b raw s) as (E1 & E2 & E3 & E4).
  rewrite Heq in Hrun. apply handle_keeps_scanner in Hrun as (Ht & Hm & Hs & Hd).
  assert (trigger_seen s'
          = <[sender_msg_key sender msg_text := clock s]> (trigger_seen s)) as Ht'
    by (by rewrite Ht).
  assert (msg_seen s' = <[msg_key msg_text := clock s]> (msg_seen s)) as Hm'
    by (by rewrite Hm).
  split_and!; [done|done|done|done|done|by rewrite Hd| |].
  - intros b2 s2 r2 s2' Hkey Hs2 Hlt.
    apply scan_item_hot_no_dispatch. intros raw2 (_ & _ & Hraw2 & _). right.
    unfold msg_only_hot, get_ts.
    by rewrite (Hkey raw2 Hraw2), Hs2, Hm', lookup_insert_eq.
  - intros b2 s2 r2 s2' Hkey Hs2 Hlt.
    apply scan_item_hot_no_dispatch. intros raw2 (_ & _ & Hraw2 & _). left.
    unfold sender_msg_hot, get_ts.
    by rewrite (Hkey raw2 Hraw2), Hs2, Ht', lookup_insert_eq.
Qed.

End Scanner.

(** ** Trimming, and what the normaliser accepts *)

Section Trim.
Implicit Types (s w ws x y : pystr) (c : N).

Lemma lstrip_stops s : stops isspace_cp (lstrip s).
Proof.
  induction s as [|c s IH]; simpl; [done|].
  by destruct (isspace_cp c) eqn:E.
Qed.

Lemma lstrip_fixed s : stops isspace_cp s -> lstrip s = s.
Proof. destruct s as [|c s]; simpl; [done|]. by intros ->. Qed.

Lemma lstrip_split s : exists ws, s = ws ++ lstrip s /\ all isspace_cp ws.
Proof.
  induction s as [|c s (ws & E & Hws)]; [by exists []|]. simpl.
  destruct (isspace_cp c) eqn:Hc; [|by exists []].
  exists (c :: ws). split; [simpl; by f_equal|by constructor].
Qed.

Lemma lstrip_app_keep x y :
  y <> [] -> stops isspace_cp y -> exists x', lstrip (x ++ y) = x' ++ y.
Proof.
  intros Hne Hy. induction x as [|c x (x' & IH)]; simpl.
  - exists []. by apply lstrip_fixed.
  - destruct (isspace_cp c); [by exists x'|by exists (c :: x)].
Qed.

Lemma strip_trimmed s : trimmed (strip s).
Proof.
  unfold strip, rstrip.
  pose proof (lstrip_stops s) as Hy. set (y := lstrip s) in *.
  destruct (lstrip_split (rev y)) as (ws & E & Hws).
  pose proof (lstrip_stops (rev y)) as Hz. set (z := lstrip (rev y)) in *.
  split; [|by rewrite rev_involutive].
  assert (y = rev z ++ rev ws) as Ey.
  { by rewrite <- rev_app_distr, <- E, rev_involutive. }
  destruct (rev z) as [|c r]; [done|]. rewrite Ey in Hy. exact Hy.
Qed.

Lemma strip_fixed s : trimmed s -> strip s = s.
Proof.
  intros [Hh Hl]. unfold strip, rstrip.
  by rewrite (lstrip_fixed s), (lstrip_fixed (rev s)), rev_involutive.
Qed.

Lemma strip_idem s : strip (strip s) = strip s.
Proof. apply strip_fixed, strip_trimmed. Qed.

Lemma trimmed_no_lead ws s : trimmed (ws ++ s) -> all isspace_cp ws -> ws = [].
Proof.
  destruct ws as [|c ws]; [done|]. intros [Hh _] Hall.
  inversion Hall; subst. simpl in Hh. congruence.
Qed.

Lemma trimmed_no_trail s ws : trimmed (s ++ ws) -> all isspace_cp ws -> ws = [].
Proof.
  intros [_ Hl] Hall. rewrite rev_app_distr in Hl.
  destruct (rev ws) as [|c r] eqn:E.
  - apply (f_equal (@rev N)) in E. by rewrite rev_involutive in E.
  - assert (c ∈ ws) as Hc.
    { apply list_elem_of_In, in_rev. rewrite E. by left. }
    rewrite Forall_forall in Hall. apply Hall in Hc. simpl in Hl. congruence.
Qed.

(** Trimming keeps a prefix that begins and ends with something visible. *)
Lemma strip_app_core x y :
  x <> [] -> trimmed x -> exists y', strip (x ++ y) = x ++ y'.
Proof.
  intros Hne [Hh Hl]. unfold strip, rstrip.
  rewrite (lstrip_fixed (x ++ y)); [|by destruct x].
  rewrite rev_app_distr.
  destruct (lstrip_app_keep (rev y) (rev x)) as (y' & ->); [|done|].
  { intros E. apply Hne. apply (f_equal (@rev N)) in E.
    by rewrite rev_involutive in E. }
  exists (rev y'). by rewrite rev_app_distr, rev_involutive.
Qed.

Lemma py_prefix_app a y : py_prefix a (a ++ y) = true.
Proof. induction a as [|c a IH]; simpl; [done|]. by rewrite N.eqb_refl. Qed.

Lemma py_in_prefix a b : py_prefix a b = true -> py_in a b = true.
Proof. intros Hp. destruct b; simpl; by rewrite Hp. Qed.

Lemma py_in_app a x y : py_in a (x ++ a ++ y) = true.
Proof.
  induction x as [|c x IH]; simpl.
  - apply py_in_prefix, py_prefix_app.
  - rewrite IH. apply orb_true_r.
Qed.

Lemma name_like_spec txt :
  name_like txt = true ->
  (length txt <= 32)%nat /\ py_prefix [c_hash] txt = false
  /\ py_in [c_min] txt = false /\ py_in KW_BREAK txt = false.
Proof.
  unfold name_like. rewrite !andb_true_iff, !negb_true_iff, Nat.leb_le. tauto.
Qed.

End Trim.

Section Accepts.
Context `{UnicodeDb} `{!UnicodeLaws}.
Implicit Types (s w ds ws : pystr) (c : N).

Lemma natural_re_shape s m :
  re_match NATURAL_RE s = Some m ->
  exists ws ds ws0 ws1 f kw tr e,
    s = ws ++ ds ++ ws0 ++ c_min :: ws1 ++ f ++ kw ++ tr ++ e
    /\ all isspace_cp ws /\ all isdecimal_cp ds /\ (1 <= length ds <= 3)%nat
    /\ all isspace_cp ws0 /\ all isspace_cp ws1 /\ all isdot_cp f
    /\ keyword kw /\ all tail_cp tr /\ (e = [] \/ e = [10]).
Proof.
  unfold re_match. intros Hm.
  apply rmatch_sound in Hm as (s' & cs' & Hsp & _).
  destruct Hsp as (? & [-> _] & m1 & (ws & -> & Hws) & m2
    & (ds & -> & Hds & Hlen)%spans_digit_1_3 & m3 & (ws0 & -> & H0')
    & m4 & (c & -> & <-%N.eqb_eq) & m5 & (ws1 & -> & H1) & m6 & (f & -> & Hf)
    & m7 & Hkw & m8 & (tr & -> & Htr) & -> & He).
  assert (exists kw, m6 = kw ++ tr ++ m8 /\ keyword kw) as (kw & -> & Hk).
  { destruct Hkw as [->%spans_lit | ->%spans_lit];
      [exists KW_BREAK|exists KW_REST]; split; try done; [by left|by right]. }
  by exists ws, ds, ws0, ws1, f, kw, tr, m8.
Qed.

Lemma eol_spaces ws e : all isspace_cp ws -> e = [] \/ e = [10] -> all isspace_cp (ws ++ e).
Proof.
  intros Hws [->| ->]; [by rewrite app_nil_r|].
  apply Forall_app. split; [done|]. by constructor.
Qed.

Lemma eol_tail tr e : all tail_cp tr -> e = [] \/ e = [10] -> all tail_cp (tr ++ e).
Proof.
  intros Htr [->| ->]; [by rewrite app_nil_r|].
  apply Forall_app. split; [done|]. by constructor.
Qed.

(** A text for which the normaliser does anything but return no-match is
    in one of the three forms. *)
Lemma normalize_inv t :
  normalize_cmd_text t <> Ok None -> exists ds, command_form (strip t) ds.
Proof.
  intros Hn. pose proof (strip_trimmed t) as Ht.
  unfold normalize_cmd_text in Hn.
  destruct (py_isdigit (strip t)); [done|].
  destruct (re_match CMD_RE (strip t)) as [m|] eqn:E1.
  { clear Hn. apply cmd_re_shape in E1
      as (hash & ws1 & ws2 & ds & ws3 & unit & ws4 & e & E & Hh & H1 & H2 & Hds
          & Hne & H3 & Hu & H4 & He).
    pose proof (eol_spaces ws4 e H4 He) as Hend.
    assert (exists ws3' unit',
      strip t = hash ++ ws1 ++ KW_BREAK ++ ws2 ++ ds ++ ws3' ++ unit'
      /\ all isspace_cp ws3' /\ is_opt c_min unit') as (ws3' & unit' & E' & H3' & Hu').
    { destruct Hu as [->| ->].
      - assert (ws3 ++ ws4 ++ e = []) as Hnil.
        { apply (trimmed_no_trail (hash ++ ws1 ++ KW_BREAK ++ ws2 ++ ds)).
          - rewrite E in Ht. by rewrite <- !app_assoc.
          - by apply Forall_app. }
        exists [], []. rewrite E. simpl in Hnil |- *. rewrite Hnil.
        split; [done|]. split; [done|by left].
      - assert (ws4 ++ e = []) as Hnil.
        { apply (trimmed_no_trail (hash ++ ws1 ++ KW_BREAK ++ ws2 ++ ds ++ ws3 ++ [c_min])).
          - rewrite E in Ht. by rewrite <- !app_assoc.
          - done. }
        exists ws3, [c_min]. rewrite E, Hnil, app_nil_r.
        split; [done|]. split; [done|by right]. }
    exists ds. left. by exists hash, ws1, ws2, ws3', unit'. }
  destruct (re_match SHORT_RE (strip t)) as [m|] eqn:E2.
  { clear Hn. apply short_re_shape in E2
      as (ws0 & ws1 & ds & ws2 & e & E & H0' & H1 & Hds & Hlen & H2 & He).
    assert (ws0 = []) as ->.
    { apply (trimmed_no_lead ws0 (c_hash :: ws1 ++ ds ++ ws2 ++ e)); [|done].
      by rewrite <- E. }
    assert (ws2 ++ e = []) as Hnil.
    { apply (trimmed_no_trail (c_hash :: ws1 ++ ds)).
      - rewrite E in Ht. simpl in Ht |- *. by rewrite <- !app_assoc.
      - by apply eol_spaces. }
    simpl in E. rewrite Hnil, app_nil_r in E.
    exists ds. right; left. by exists ws1. }
  destruct (re_match NATURAL_RE (strip t)) as [m|] eqn:E3.
  { clear Hn. apply natural_re_shape in E3
      as (ws & ds & ws0 & ws1 & f & kw & tr & e & E & Hws & Hds & Hlen & H0'
          & H1 & Hf & Hk & Htr & He).
    assert (ws = []) as ->.
    { apply (trimmed_no_lead ws (ds ++ ws0 ++ c_min :: ws1 ++ f ++ kw ++ tr ++ e));
        [|done]. by rewrite <- E. }
    simpl in E. pose proof (eol_tail tr e Htr He) as Htr'.
    exists ds. right; right. by exists ws0, ws1, f, kw, (tr ++ e). }
  by destruct (re_match NEAR_MISS_RE (strip t)).
Qed.

(** On a text in one of the three forms the normaliser answers what [int]
    answers on the digits. *)
Lemma normalize_command_form t ds :
  command_form (strip t) ds ->
  normalize_cmd_text t
  = match py_int ds with Ok n => Ok (Some n) | Raise => Raise end.
Proof.
  intros [Hc | [Hs | Hn]].
  - destruct Hc as (hash & ws1 & ws2 & ws3 & unit & E & ?).
    apply (normalize_canonical t hash ws1 ws2 ds ws3 unit); tauto.
  - destruct Hs as (ws & E & Hws & Hds & Hlen).
    rewrite (normalize_short t ws ds) by done. by rewrite py_int_1_3.
  - destruct Hn as (ws0 & ws1 & f & kw & tr & E & Hds & Hlen & ?).
    rewrite (normalize_natural t ds ws0 ws1 f kw tr) by tauto.
    by rewrite py_int_1_3.
Qed.

(** X1.  [normalize_cmd_text] returns a number of minutes for exactly the
    texts which, once trimmed, are in the canonical form, the short-marker
    form or the natural-language form with at most 4300 digits, and the
    number is the one written in the text: no accepted text is read as
    another number.  It raises for exactly the texts in the canonical form
    with more than 4300 digits, and it returns no-match for exactly the
    texts in none of the three forms. *)
Theorem normalize_cmd_text_exact (t : pystr) :
  (forall n,
      normalize_cmd_text t = Ok (Some n)
      <-> exists ds, command_form (strip t) ds /\ (length ds <= 4300)%nat
                     /\ n = digits_value ds)
  /\ (normalize_cmd_text t = Raise
      <-> exists ds, canonical_form (strip t) ds /\ (4300 < length ds)%nat)
  /\ (normalize_cmd_text t = Ok None
      <-> ~ exists ds, command_form (strip t) ds).
Proof.
  assert (forall ds, (length ds <= 4300)%nat -> py_int ds = Ok (digits_value ds))
    as Hin.
  { intros ds Hlen. apply py_int_within. unfold INT_MAX_STR_DIGITS. lia. }
  assert (forall ds, (4300 < length ds)%nat -> py_int ds = Raise) as Hout.
  { intros ds Hlen. apply py_int_beyond. unfold INT_MAX_STR_DIGITS. lia. }
  split_and!.
  - intros n. split.
    + intros Hn.
      destruct (normalize_inv t) as (ds & Hf); [by rewrite Hn|].
      exists ds. split; [done|]. rewrite (normalize_command_form t ds Hf) in Hn.
      destruct (le_lt_dec (length ds) 4300) as [Hlen|Hlen].
      * rewrite Hin in Hn by done. split; [done|]. congruence.
      * by rewrite Hout in Hn.
    + intros (ds & Hf & Hlen & ->).
      by rewrite (normalize_command_form t ds Hf), Hin.
  - split.
    + intros Hn.
      destruct (normalize_inv t) as (ds & Hf); [by rewrite Hn|].
      exists ds. rewrite (normalize_command_form t ds Hf) in Hn.
      destruct (le_lt_dec (length ds) 4300) as [Hlen|Hlen];
        [by rewrite Hin in Hn|].
      split; [|done].
      destruct Hf as [Hc | [(ws & _ & _ & _ & Hl) | (? & ? & ? & ? & ? & _ & _ & Hl & _)]];
        [done|lia|lia].
    + intros (ds & Hc & Hlen).
      rewrite (normalize_command_form t ds) by by left. by rewrite Hout.
  - split.
    + intros Hn (ds & Hf). rewrite (normalize_command_form t ds Hf) in Hn.
      by destruct (py_int ds).
    + intros Hno. destruct (normalize_cmd_text t) as [[n|]|] eqn:E; [|done|];
        destruct Hno; apply normalize_inv; by rewrite E.
Qed.

(** A text the normaliser does not answer with no-match does not pass for
    a name. *)
Lemma command_not_name_like t :
  normalize_cmd_text t <> Ok None -> name_like (strip t) = false.
Proof.
  intros (ds & Hf)%normalize_inv. unfold name_like.
  destruct Hf as [Hc | [Hs | Hn]].
  - destruct Hc as (hash & ws1 & ws2 & ws3 & unit & -> & _).
    rewrite (app_assoc hash ws1), py_in_app. by rewrite andb_false_r.
  - destruct Hs as (ws & -> & _).
    change (py_prefix [c_hash] (c_hash :: ws ++ ds)) with true.
    by rewrite andb_false_r.
  - destruct Hn as (ws0 & ws1 & f & kw & tr & -> & _).
    rewrite (app_assoc ds ws0).
    change (c_min :: ws1 ++ f ++ kw ++ tr) with ([c_min] ++ ws1 ++ f ++ kw ++ tr).
    rewrite py_in_app. simpl. by rewrite andb_false_r.
Qed.

End Accepts.

(** *** The sender the scanner attributes a message to *)

Lemma split_content_sender content nm :
  fst (split_content content) = Some nm ->
  nm <> [] /\ name_like nm = true /\ exists l, nm = strip l.
Proof.
  unfold split_content.
  destruct (filter _ _) as [|p0 [|p1 ps]] eqn:E; simpl; try done.
  destruct (name_like p0) eqn:Hn; simpl; [|done]. intros [= <-].
  assert (p0 ∈ filter (fun p => negb (is_empty p) = true) (strip <$> split_lf content))
    as [Hne Hin]%list_elem_of_filter by (rewrite E; left).
  apply list_elem_of_fmap in Hin as (l & -> & _).
  split; [|by eauto]. intros Hnil. by rewrite Hnil in Hne.
Qed.

Lemma near_walk_sender near n : forall i nm,
  near_walk near n i = Some nm ->
  nm <> [] /\ name_like nm = true /\ exists l, nm = strip l.
Proof.
  induction n as [|n IH]; simpl; intros i nm; [done|].
  destruct (near i) as [|r]; [done|].
  destruct (negb (is_empty _) && name_like _) eqn:E; [|by apply IH].
  intros [= <-]. apply andb_true_iff in E as [Hne Hn].
  destruct r as [x|]; [|done].
  split; [|by eauto]. intros Hnil. by rewrite Hnil in Hne.
Qed.

Lemma item_sender_inv b content nm :
  item_sender b content = Some nm ->
  nm <> [] /\ name_like nm = true /\ exists l, nm = strip l.
Proof.
  unfold item_sender.
  destruct (truthy (fst (split_content content))).
  - apply split_content_sender.
  - apply near_walk_sender.
Qed.

(** X2.  Whoever the scanner names as the sender of a bubble — the first
    line of the bubble or a neighbouring element — has a non-empty, trimmed
    name of at most 32 code points that does not begin with the marker and
    contains neither the unit word nor the break keyword; such a name is
    never itself a command. *)
Theorem attributed_sender_is_a_name `{UnicodeDb} `{!UnicodeLaws}
    (b : bubble) (content nm : pystr) :
  item_sender b content = Some nm ->
  nm <> [] /\ strip nm = nm /\ (length nm <= 32)%nat
  /\ py_prefix [c_hash] nm = false /\ py_in [c_min] nm = false
  /\ py_in KW_BREAK nm = false
  /\ normalize_cmd_text nm = Ok None.
Proof.
  intros (Hne & Hn & l & ->)%item_sender_inv.
  pose proof (name_like_spec _ Hn) as (Hlen & Hp & Hm & Hk).
  split; [done|]. split; [apply strip_idem|]. do 4 (split; [done|]).
  destruct (normalize_cmd_text (strip l)) as [[n|]|] eqn:E; [|done|];
    (assert (name_like (strip (strip l)) = false) as Hno
       by (apply command_not_name_like; by rewrite E));
    rewrite strip_idem in Hno; congruence.
Qed.

(** X3.  When the bot's own name does not pass for a name — as the default
    name, which contains the break keyword — the sender the scanner
    attributes is never the bot: the self-echo test of the handler does not
    fire for any bubble. *)
Theorem self_echo_test_never_fires (BOT_NAME : pystr) (b : bubble) (content : pystr) :
  name_like (strip BOT_NAME) = false ->
  is_self_echo BOT_NAME (item_sender b content) = false.
Proof.
  intros Hbot. unfold is_self_echo.
  destruct (item_sender b content) as [nm|] eqn:E; [|done].
  apply item_sender_inv in E as (Hne & Hn & l & ->).
  simpl. rewrite strip_idem. case_bool_decide as Heq; [|apply andb_false_r].
  rewrite Heq in Hn. congruence.
Qed.

(** ** The send arbiter: pacing, and what is entered *)

Lemma next_backoff_nonneg b : (0 <= b)%Q -> (0 <= next_backoff b)%Q.
Proof.
  intros Hb. unfold next_backoff.
  destruct (Qle_bool (b * (8 # 5)) 6); lra.
Qed.

Lemma send_rounds_S sc text n i b :
  send_rounds sc text (S n) i b
  = match toast_before (rounds sc i) with
    | Ok true =>
      back_off b ;;; send_rounds sc text n (S i) (next_backoff b)
    | _ =>
      sent <- try_except (submit (rounds sc i) text b) (back_off b ;;; ret false) ;;
      if sent then ret tt else send_rounds sc text n (S i) (next_backoff b)
    end.
Proof. reflexivity. Qed.

(** One round of the retry loop: it ends the loop with the text entered
    once, or goes on to the next round after one back-off, with the text
    entered at most once. *)
Lemma round_cases sc text n i b s :
  exists s1 k,
    ((send_rounds sc text (S n) i b s = (Ok tt, s1)
      /\ k = 1%nat /\ backoffs s1 = backoffs s
      /\ last_send_ts s1 = (clock s + (3 # 25))%Q
      /\ clock s1 = (clock s + (3 # 25) + (1 # 20))%Q)
     \/ (send_rounds sc text (S n) i b s
         = send_rounds sc text n (S i) (next_backoff b) s1
         /\ (k <= 1)%nat /\ backoffs s1 = backoffs s ++ [b]
         /\ last_send_ts s1 = last_send_ts s
         /\ (clock s1 = (clock s + b)%Q \/ clock s1 = (clock s + (3 # 25) + b)%Q)))
    /\ entered s1 = entered s ++ replicate k text /\ warnings s1 = warnings s.
Proof.
  rewrite send_rounds_S.
  destruct (rounds sc i) as [tb sk ck fk cl ty pr ta]. simpl.
  pose proof (app_nil_r (entered s)) as E0.
  destruct tb as [[|]|];
    [eexists _, 0%nat; split;
      [right; split; [reflexivity|]; split; [lia|]; split; [done|]; split; [done|by left]
      |by simpl]|..];
    (destruct sk;
      [|eexists _, 0%nat; split;
         [right; split; [reflexivity|]; split; [lia|]; split; [done|]; split; [done|by left]
         |by simpl]]);
    (destruct ck;
      [|eexists _, 0%nat; split;
         [right; split; [reflexivity|]; split; [lia|]; split; [done|]; split; [done|by left]
         |by simpl]]);
    (destruct fk, cl;
      try (eexists _, 0%nat; split;
         [right; split; [reflexivity|]; split; [lia|]; split; [done|]; split; [done|by left]
         |by simpl]));
    (destruct ty;
      [|eexists _, 0%nat; split;
         [right; split; [reflexivity|]; split; [lia|]; split; [done|]; split; [done|by left]
         |by simpl]]);
    (destruct pr;
      [|eexists _, 0%nat; split;
         [right; split; [reflexivity|]; split; [lia|]; split; [done|]; split; [done|by left]
         |by simpl]]);
    destruct ta as [[|]|];
    try (eexists _, 1%nat; split;
         [right; split; [reflexivity|]; split; [lia|]; split; [done|]; split; [done|by right]
         |by simpl]);
    (eexists _, 1%nat; split; [left; split; [reflexivity|]; done|by simpl]).
Qed.

(** The whole loop, from a back-off that is not negative. *)
Lemma send_rounds_trace sc text n : forall i b s,
  (0 <= b)%Q ->
  exists s' k bs,
    send_rounds sc text n i b s = (Ok tt, s')
    /\ (k <= n)%nat /\ (length bs <= n)%nat /\ (k <= S (length bs))%nat
    /\ entered s' = entered s ++ replicate k text
    /\ backoffs s' = backoffs s ++ bs
    /\ (warnings s' = warnings s
        \/ (warnings s' = warnings s ++ [WarnSendFailed text] /\ length bs = n))
    /\ (clock s <= clock s')%Q
    /\ (last_send_ts s' = last_send_ts s
        \/ (clock s <= last_send_ts s' /\ last_send_ts s' <= clock s')%Q).
Proof.
  induction n as [|n IH]; intros i b s Hb.
  - exists (set_warnings (warnings s ++ [WarnSendFailed text]) s), 0%nat, [].
    simpl. rewrite !app_nil_r. split_and!; try done; try lia; try lra.
    + by right.
    + by left.
  - destruct (round_cases sc text n i b s)
      as (s1 & k & [(Hrun & -> & Hbo & Hl & Hc) | (Hrun & Hk & Hbo & Hl & Hc)]
          & Hent & Hw).
    + exists s1, 1%nat, []. rewrite app_nil_r. simpl.
      split_and!; try done; try lia.
      * by left.
      * rewrite Hc. lra.
      * right. rewrite Hl, Hc. lra.
    + destruct (IH (S i) (next_backoff b) s1 (next_backoff_nonneg b Hb))
        as (s' & k' & bs & Hrun' & Hk' & Hlen & Hkb & Hent' & Hbo' & Hw' & Hc' & Hl').
      exists s', (k + k')%nat, (b :: bs).
      assert (clock s <= clock s1)%Q as Hc1 by (destruct Hc as [-> | ->]; lra).
      split; [by rewrite Hrun|]. simpl.
      split_and!; try lia.
      * by rewrite Hent', Hent, replicate_add, app_assoc.
      * by rewrite Hbo', Hbo, <- app_assoc.
      * destruct Hw' as [->|[-> Hn]]; [by left|right]. split; [by rewrite Hw|lia].
      * lra.
      * destruct Hl' as [->|[Ha Hb']]; [by left|right]. lra.
Qed.

(** The two waits at the head of [type_and_send]. *)
Lemma type_and_send_waits text s :
  exists s0,
    type_and_send text s
    = match control (sends s (n_sends s)) with
      | Ok true => send_rounds (sends s (n_sends s)) text MAX_RETRY 0 (4 # 5) s0
      | Ok false => warn WarnNoInput s0
      | Raise => (Raise, s0)
      end
    /\ warnings s0 = warnings s /\ backoffs s0 = backoffs s
    /\ last_send_ts s0 = last_send_ts s /\ entered s0 = entered s
    /\ cooldown_until s0 = cooldown_until s
    /\ running_timers s0 = running_timers s
    /\ (clock s <= clock s0)%Q /\ (cooldown_until s <= clock s0)%Q
    /\ (last_send_ts s + MIN_SEND_INTERVAL <= clock s0)%Q.
Proof.
  unfold type_and_send, bind, time, gets. simpl.
  destruct (Qlt_bool (clock s) (cooldown_until s)) eqn:E1; simpl;
    (match goal with |- context [Qlt_bool ?a ?b] => destruct (Qlt_bool a b) eqn:E2 end);
    simpl;
    (eexists; split; [destruct (control _) as [[|]|]; reflexivity|]; simpl;
     do 6 (split; [done|]));
    first [apply Qlt_bool_true in E1|apply Qlt_bool_false in E1];
    first [apply Qlt_bool_true in E2|apply Qlt_bool_false in E2];
    unfold MIN_SEND_INTERVAL in *; split_and!; lra.
Qed.

Lemma type_and_send_paced text s r s' :
  type_and_send text s = (r, s') -> send_paced s s'.
Proof.
  destruct (type_and_send_waits text s)
    as (s0 & -> & _ & _ & Hl & _ & _ & _ & Hc & Hcu & Hgap).
  unfold send_paced. destruct (control _) as [[|]|].
  - destruct (send_rounds_trace (sends s (n_sends s)) text MAX_RETRY 0 (4 # 5) s0)
      as (s1 & k & bs & -> & _ & _ & _ & _ & _ & _ & Hc1 & Hl1); [lra|].
    intros [= _ <-]. split; [lra|].
    destruct Hl1 as [->|[Ha Hb]]; [by left|right]. lra.
  - intros [= _ <-]. simpl. split; [lra|by left].
  - intros [= _ <-]. split; [lra|by left].
Qed.

(** X4.  Pacing of the sends.  Across any call of [type_and_send], whether
    it returns or raises, time does not go back, and the recorded time of
    the last successful send either stays as it was or moves to a time that
    is at least 1.8 seconds after the previous one, not before the end of
    the cooldown that was in force, and not in the future. *)
Theorem sends_are_paced (text : pystr) (s : state) :
  send_paced s (snd (type_and_send text s)).
Proof. apply (type_and_send_paced text s (fst (type_and_send text s))), surjective_pairing. Qed.

Lemma type_and_send_trace text s r s' :
  type_and_send text s = (r, s') ->
  exists k bs,
    (k <= MAX_RETRY)%nat /\ (length bs <= MAX_RETRY)%nat /\ (k <= S (length bs))%nat
    /\ entered s' = entered s ++ replicate k text
    /\ backoffs s' = backoffs s ++ bs
    /\ (warnings s' = warnings s
        \/ (warnings s' = warnings s ++ [WarnSendFailed text] /\ length bs = MAX_RETRY)
        \/ (warnings s' = warnings s ++ [WarnNoInput] /\ k = 0%nat /\ bs = [])).
Proof.
  destruct (type_and_send_waits text s)
    as (s0 & -> & Hw & Hb & _ & He & _).
  destruct (control _) as [[|]|].
  - destruct (send_rounds_trace (sends s (n_sends s)) text MAX_RETRY 0 (4 # 5) s0)
      as (s1 & k & bs & -> & Hk & Hlen & Hkb & He1 & Hb1 & Hw1 & _); [lra|].
    intros [= _ <-]. exists k, bs. rewrite He1, Hb1, He, Hb.
    split_and!; try done.
    destruct Hw1 as [->|[-> Hn]]; [left|right; left]; by rewrite Hw.
  - intros [= _ <-]. exists 0%nat, []. simpl. rewrite !app_nil_r, He, Hb, Hw.
    split_and!; try done; try lia. by right; right.
  - intros [= _ <-]. exists 0%nat, []. simpl. rewrite !app_nil_r, He, Hb, Hw.
    split_and!; try done; try lia. by left.
Qed.

(** X5.  [type_and_send] enters nothing but the text it was given: at most
    [MAX_RETRY] copies of it, at most one more than the number of back-offs
    slept, with at most [MAX_RETRY] back-offs and at most one warning — and
    a warning only after [MAX_RETRY] back-offs or when there is no chat
    input. *)
Theorem only_the_text_is_entered (text : pystr) (s : state) :
  exists k bs,
    (k <= MAX_RETRY)%nat /\ (length bs <= MAX_RETRY)%nat /\ (k <= S (length bs))%nat
    /\ entered (snd (type_and_send text s)) = entered s ++ replicate k text
    /\ backoffs (snd (type_and_send text s)) = backoffs s ++ bs
    /\ (warnings (snd (type_and_send text s)) = warnings s
        \/ (warnings (snd (type_and_send text s)) = warnings s ++ [WarnSendFailed text]
            /\ length bs = MAX_RETRY)
        \/ (warnings (snd (type_and_send text s)) = warnings s ++ [WarnNoInput]
            /\ k = 0%nat /\ bs = [])).
Proof.
  apply (type_and_send_trace text s (fst (type_and_send text s))), surjective_pairing.
Qed.


(** ** The guard keys, the announcements, and the bot's own announcements *)

(** The decimal text of a clamped duration. *)
Lemma str_minutes_digits m :
  (1 <= m <= 180)%Z ->
  py_str_of_Z m <> [] /\ all ascii_digit (py_str_of_Z m)
  /\ digits_value (H := latin_db) (py_str_of_Z m) = m.
Proof.
  intros Hm.
  assert (forallb (fun k => negb (is_empty (py_str_of_Z k))
                            && forallb ascii_digit (py_str_of_Z k)
                            && (digits_value (H := latin_db) (py_str_of_Z k) =? k)%Z)
            (seqZ 1 180) = true) as Hall by (vm_compute; reflexivity).
  rewrite forallb_forall in Hall.
  assert (In m (seqZ 1 180)) as Hin by (apply list_elem_of_In, elem_of_seqZ; lia).
  apply Hall in Hin. rewrite !andb_true_iff in Hin. destruct Hin as [[Hne Hd] Hi].
  split; [|split].
  - intros E. by rewrite E in Hne.
  - apply Forall_forall. intros c Hc%list_elem_of_In.
    rewrite forallb_forall in Hd. by apply Hd.
  - by apply Z.eqb_eq.
Qed.

Lemma sep_inj (c : N) x : forall y a b,
  c ∉ a -> c ∉ b -> x ++ c :: a = y ++ c :: b -> x = y /\ a = b.
Proof.
  induction x as [|d x IH]; intros [|e y] a b Ha Hb; simpl; intros E;
    inversion E; subst.
  - done.
  - destruct Ha. apply elem_of_app. right. by left.
  - destruct Hb. apply elem_of_app. right. by left.
  - by destruct (IH y a b Ha Hb) as [-> ->].
Qed.

Lemma colon_not_digit ds : all ascii_digit ds -> 58 ∉ ds.
Proof.
  intros Hall Hin. rewrite Forall_forall in Hall. by apply Hall in Hin.
Qed.

(** Two requests have the same requester key only when they have the same
    requester and the same duration, whatever the names contain. *)
Lemma guard_key_inj who1 who2 m1 m2 :
  (1 <= m1 <= 180)%Z -> (1 <= m2 <= 180)%Z ->
  guard_key who1 m1 = guard_key who2 m2 -> who1 = who2 /\ m1 = m2.
Proof.
  intros (_ & Hd1 & Hi1)%str_minutes_digits (_ & Hd2 & Hi2)%str_minutes_digits.
  unfold guard_key. change (u "::") with [58; 58].
  assert (forall w d : pystr, w ++ [58; 58] ++ d = (w ++ [58]) ++ 58 :: d) as Hs
    by (intros; by rewrite <- app_assoc).
  rewrite !Hs.
  intros [E1 E2]%sep_inj; [|by apply colon_not_digit..].
  apply app_inj_tail in E1 as [-> _]. split; [done|]. congruence.
Qed.

(** X7.  The requester keys never collide, and a call of [start_break]
    touches the guard entries of its own duration and requester only: the
    global entry of every other duration and the requester entry of every
    other pair of requester and duration are left as they were, whether the
    call starts a break, is refused or raises. *)
Theorem other_requests_unaffected (m1 m2 : Z) (who1 who2 : pystr) (s : state) :
  (guard_key who1 (clamp_minutes m1) = guard_key who2 (clamp_minutes m2)
   <-> who1 = who2 /\ clamp_minutes m1 = clamp_minutes m2)
  /\ (clamp_minutes m2 <> clamp_minutes m1 ->
      minute_global_guard (snd (start_break m1 who1 s)) !! clamp_minutes m2
      = minute_global_guard s !! clamp_minutes m2)
  /\ (who2 <> who1 \/ clamp_minutes m2 <> clamp_minutes m1 ->
      cmd_guard (snd (start_break m1 who1 s)) !! guard_key who2 (clamp_minutes m2)
      = cmd_guard s !! guard_key who2 (clamp_minutes m2)).
Proof.
  assert (guard_key who1 (clamp_minutes m1) = guard_key who2 (clamp_minutes m2)
          <-> who1 = who2 /\ clamp_minutes m1 = clamp_minutes m2) as Hinj.
  { split; [|by intros [-> ->]].
    apply guard_key_inj; apply clamp_minutes_range. }
  split; [done|].
  destruct (start_break m1 who1 s) as [r s1] eqn:Hrun. simpl.
  destruct (Qlt_le_dec (clock s - get_ts (minute_global_guard s) (clamp_minutes m1))
              GLOBAL_MINUTE_GUARD) as [Hg|Hg].
  { rewrite start_break_refused_global in Hrun by done. by injection Hrun as <- <-. }
  apply Qle_not_lt in Hg.
  destruct (start_break_tables _ _ _ _ _ Hrun Hg) as (Ht & Hhot & Hcold).
  split.
  - intros Hne. by rewrite Ht, lookup_insert_ne.
  - intros Hne.
    destruct (Qlt_le_dec (clock s - get_ts (cmd_guard s) (guard_key who1 (clamp_minutes m1)))
                CMD_GUARD_TTL) as [Hu|Hu].
    + destruct (Hhot Hu) as (_ & -> & _). done.
    + apply Qle_not_lt in Hu. rewrite (Hcold Hu), lookup_insert_ne; [done|].
      rewrite Hinj. intros [-> E]. destruct Hne as [Hne|Hne]; [done|]. by rewrite E in Hne.
Qed.



Ltac eval_u :=
  repeat match goal with
         | |- context [u ?str] =>
           let x := eval vm_compute in (u str) in change (u str) with x
         end.




(** ** The handler: what it ignores, what starts a break, whom it names *)

Lemma ascii_digit_not_space c : ascii_digit c = true -> isspace_cp c = false.
Proof.
  unfold ascii_digit. rewrite andb_true_iff, !N.leb_le. intros [Hlo Hhi].
  assert (c = 48 \/ c = 49 \/ c = 50 \/ c = 51 \/ c = 52 \/ c = 53 \/ c = 54
          \/ c = 55 \/ c = 56 \/ c = 57) as Hc by lia.
  destruct Hc as [->|[->|[->|[->|[->|[->|[->|[->|[->| ->]]]]]]]]]; reflexivity.
Qed.

(** Trimming keeps an infix that begins and ends with something visible. *)
Lemma strip_keeps_infix pre a post :
  a <> [] -> trimmed a -> exists p q, strip (pre ++ a ++ post) = p ++ a ++ q.
Proof.
  intros Hne [Hh Hl]. unfold strip, rstrip.
  destruct (lstrip_app_keep pre (a ++ post)) as (p & ->); [by destruct a..|].
  rewrite !rev_app_distr, <- app_assoc.
  assert (rev a <> []) as Hne'.
  { intros E. apply (f_equal (@rev N)) in E. by rewrite rev_involutive in E. }
  destruct (lstrip_app_keep (rev post) (rev a ++ rev p)) as (q & ->).
  - by destruct (rev a).
  - by destruct (rev a).
  - exists p, (rev q). by rewrite !rev_app_distr, !rev_involutive, <- app_assoc.
Qed.

Lemma search_from_some inp r p : forall s,
  is_Some (rmatch inp r s [] accept) -> is_Some (search_from inp r (p ++ s)).
Proof.
  induction p as [|c p IH]; intros s [x Hx]; simpl.
  - destruct s; simpl; rewrite Hx; by eexists.
  - destruct (rmatch inp r (c :: p ++ s) [] accept); [by eexists|].
    apply IH. by eexists.
Qed.

Lemma re_search_infix r p a q :
  (forall inp, spans inp r (a ++ q) q) -> some (re_search r (p ++ a ++ q)) = true.
Proof.
  intros Hs. unfold re_search.
  destruct (search_from_some (p ++ a ++ q) r p (a ++ q)) as [x ->]; [|done].
  eapply rmatch_complete; [apply Hs|]. intros cs'. by eexists.
Qed.

Section Filters.
Context `{UnicodeDb}.
Variable BOT_NAME : pystr.
Implicit Types (text t d who : pystr) (sender : option pystr) (s : state).

Lemma handle_filtered text sender s :
  is_self_echo BOT_NAME sender || has_bot_phrase (strip text)
  || is_start_noise (strip text) || py_isdigit (strip text) = true ->
  handle_chat_item BOT_NAME text sender s = (Ok tt, s).
Proof.
  unfold handle_chat_item. cbv zeta.
  destruct (is_self_echo _ _); [done|]. destruct (has_bot_phrase _); [done|].
  destruct (is_start_noise _); [done|]. by destruct (py_isdigit _).
Qed.

Lemma handle_back text sender s :
  is_return_ack BOT_NAME text sender = true ->
  handle_chat_item BOT_NAME text sender s
  = if Qle_bool (back_cooldown s) (clock s) then
      type_and_send (nth (choices s (n_choices s) `mod` length BACK_TPL) BACK_TPL [])
        (set_n_choices (S (n_choices s)) (set_back_cooldown (clock s + 2) s))
    else (Ok tt, s).
Proof.
  unfold is_return_ack. cbv zeta.
  rewrite !andb_true_iff, !negb_true_iff. intros ((((H1 & H2) & H3) & H4) & H5).
  unfold handle_chat_item. cbv zeta. rewrite H1, H2, H3, H4, H5.
  unfold bind, time, gets, modify, choice, say. simpl.
  by destruct (Qle_bool _ _).
Qed.

Lemma handle_not_reaching text sender s :
  reaches_text_guard BOT_NAME text sender = false ->
  handle_chat_item BOT_NAME text sender s = (Ok tt, s)
  \/ is_return_ack BOT_NAME text sender = true.
Proof.
  unfold reaches_text_guard, is_return_ack. cbv zeta. intros Hr.
  destruct (is_self_echo BOT_NAME sender) eqn:E1;
    [left; apply handle_filtered; by rewrite E1|].
  destruct (has_bot_phrase (strip text)) eqn:E2;
    [left; apply handle_filtered; by rewrite E1, E2|].
  destruct (is_start_noise (strip text)) eqn:E3;
    [left; apply handle_filtered; by rewrite E1, E2, E3|].
  destruct (py_isdigit (strip text)) eqn:E4;
    [left; apply handle_filtered; by rewrite E1, E2, E3, E4|].
  right. simpl in *. by destruct (is_back (strip text)).
Qed.

Lemma return_ack_tables text sender s r s' :
  is_return_ack BOT_NAME text sender = true ->
  handle_chat_item BOT_NAME text sender s = (r, s') ->
  break_tables s' = break_tables s /\ cmd_text_guard s' = cmd_text_guard s.
Proof.
  intros Hb. rewrite (handle_back _ _ _ Hb).
  destruct (Qle_bool _ _); [|by intros [= _ <-]].
  intros Hrun. split.
  - apply type_and_send_keeps_guards in Hrun as (E1 & E2 & E3).
    unfold break_tables. by rewrite E1, E2, E3.
  - refine (preserves_type_and_send (keeps cmd_text_guard) _ _ _ _ _ Hrun).
    by apply send_frame_keeps.
Qed.

(** X10.  The handler starts a break — touches a guard table of
    [start_break] or the timers — only for a message that passes its
    filters, is not a return acknowledgement, is not refused by the
    same-sentence guard, and that the normaliser accepts. *)
Theorem handler_breaks_only_on_commands text sender s :
  break_tables (snd (handle_chat_item BOT_NAME text sender s)) <> break_tables s ->
  reaches_text_guard BOT_NAME text sender = true
  /\ ~ text_guard_hot text s
  /\ exists n, normalize_cmd_text (strip text) = Ok (Some n).
Proof.
  destruct (handle_chat_item BOT_NAME text sender s) as [r s'] eqn:Hrun. simpl.
  intros Hne.
  destruct (reaches_text_guard BOT_NAME text sender) eqn:Hr.
  - split; [done|].
    destruct (Qlt_le_dec (clock s - get_ts (cmd_text_guard s) (text_key (strip text))) 10)
      as [Hhot|Hcold].
    { rewrite handle_ignored in Hrun by done. by injection Hrun as _ <-. }
    apply Qle_not_lt in Hcold. split; [done|].
    rewrite handle_recorded in Hrun by done.
    destruct (normalize_cmd_text (strip text)) as [[n|]|] eqn:E; [by eauto|..];
      unfold run_command in Hrun; rewrite E in Hrun; by injection Hrun as _ <-.
  - destruct (handle_not_reaching text sender s Hr) as [E|Hb].
    + rewrite E in Hrun. by injection Hrun as _ <-.
    + destruct (return_ack_tables _ _ _ _ _ Hb Hrun) as [E _]. by destruct Hne.
Qed.

(** X11.  Whom a break is attributed to.  A command that gets as far as
    the normaliser starts [start_break] with the clamped duration and: the
    sender, when the scanner gave a non-empty one; otherwise the most
    recent sender the scanner saw, when it was seen at most 30 seconds
    before — measured a quarter of a second later when no sender was given
    at all — and the placeholder name when there is no recent sender or it
    was seen more than 30 seconds before. *)
Theorem break_requester_resolution text sender s n :
  reaches_text_guard BOT_NAME text sender = true ->
  ~ text_guard_hot text s ->
  normalize_cmd_text (strip text) = Ok (Some n) ->
  let s1 := set_cmd_text_guard
              (<[text_key (strip text) := clock s]> (cmd_text_guard s)) s in
  let recent now :=
    match recent_sender s with
    | Some (name, seen) => if Qle_bool (now - seen) 30 then name else u "누군가"
    | None => u "누군가"
    end in
  handle_chat_item BOT_NAME text sender s
  = match sender with
    | Some (c :: nm) =>
      (start_break (clamp_minutes n) (c :: nm) ;;; ret tt) s1
    | Some [] =>
      (start_break (clamp_minutes n) (recent (clock s)) ;;; ret tt) s1
    | None =>
      (start_break (clamp_minutes n) (recent (clock s + (1 # 4))%Q) ;;; ret tt)
        (set_clock (clock s + (1 # 4)) s1)
    end.
Proof.
  intros Hr Hcold Hn s1 recent. rewrite handle_recorded by done. fold s1.
  unfold run_command. rewrite Hn.
  assert (forall now, default NOBODY (fresh_sender (recent_sender s) now) = recent now)
    as Hrecent.
  { intros now. unfold recent, fresh_sender.
    destruct (recent_sender s) as [[name seen]|]; [|reflexivity].
    change RECENT_NAME_SEC with (30 : Q). by destruct (Qle_bool _ _). }
  destruct sender as [[|c nm]|]; try reflexivity.
  - unfold bind at 1 2 3 4, time, gets, ret. simpl. by rewrite Hrecent.
  - unfold bind at 1 2 3 4 5 6, sleep, time, gets, modify, ret. simpl.
    rewrite <- Hrecent.
    destruct (fresh_sender _ _) as [[|c nm]|]; reflexivity.
Qed.

Lemma back_reply_in i : nth (i `mod` length BACK_TPL) BACK_TPL [] ∈ BACK_TPL.
Proof.
  pose proof (Nat.mod_upper_bound i (length BACK_TPL)) as Hlt.
  destruct (i `mod` length BACK_TPL)%nat as [|[|[|[|k]]]];
    [repeat constructor..|simpl in Hlt; lia].
Qed.

(** X12.  A message taken for a return acknowledgement never starts a
    break and never reaches the same-sentence guard, even when it is a
    well-formed command.  While the cooldown runs it is ignored; otherwise
    the cooldown is set to two seconds from now, one of the four reply
    texts is chosen and handed to the send arbiter, and every return
    acknowledgement handled before the two seconds are over is ignored.
    The reply is entered, as the last text, when the chat input is found
    and one of the ten rounds works; when the chat input is absent or its
    look-up raises nothing is entered, and after ten failed rounds the
    failure is logged. *)
Theorem return_ack_rate_limited text sender s :
  is_return_ack BOT_NAME text sender = true ->
  let r' := fst (handle_chat_item BOT_NAME text sender s) in
  let s' := snd (handle_chat_item BOT_NAME text sender s) in
  let sc := sends s (n_sends s) in
  break_tables s' = break_tables s
  /\ cmd_text_guard s' = cmd_text_guard s
  /\ (back_cooling s -> r' = Ok tt /\ s' = s)
  /\ (~ back_cooling s ->
      back_cooldown s' = (clock s + 2)%Q
      /\ (exists reply,
            reply ∈ BACK_TPL
            /\ (exists k, (k <= MAX_RETRY)%nat
                          /\ entered s' = entered s ++ replicate k reply)
            /\ (control sc = Ok true ->
                round_fails (rounds sc 0) = false ->
                r' = Ok tt /\ entered s' = entered s ++ [reply])
            /\ (forall j,
                  control sc = Ok true -> (j < MAX_RETRY)%nat ->
                  (forall i, (i < j)%nat -> round_fails (rounds sc i) = true) ->
                  round_fails (rounds sc j) = false ->
                  r' = Ok tt /\ last (entered s') = Some reply
                  /\ warnings s' = warnings s)
            /\ (control sc = Ok true ->
                (forall i, (i < MAX_RETRY)%nat -> round_fails (rounds sc i) = true) ->
                r' = Ok tt /\ warnings s' = warnings s ++ [WarnSendFailed reply])
            /\ (control sc <> Ok true -> entered s' = entered s))
      /\ forall text2 sender2 s2,
          is_return_ack BOT_NAME text2 sender2 = true ->
          back_cooldown s2 = back_cooldown s' ->
          (clock s2 < clock s + 2)%Q ->
          handle_chat_item BOT_NAME text2 sender2 s2 = (Ok tt, s2)).
Proof.
  intros Hb r' s' sc. subst r' s'.
  destruct (handle_chat_item BOT_NAME text sender s) as [r s'] eqn:Hrun. simpl.
  destruct (return_ack_tables _ _ _ _ _ Hb Hrun) as [Ht Hg].
  split; [done|]. split; [done|].
  rewrite (handle_back _ _ _ Hb) in Hrun. split.
  - intros Hc. destruct (Qle_bool _ _) eqn:E; [|by injection Hrun as <- <-].
    apply Qle_bool_iff in E. unfold back_cooling in Hc. lra.
  - intros Hc. destruct (Qle_bool _ _) eqn:E.
    2:{ destruct Hc. unfold back_cooling. apply Qlt_bool_true.
        unfold Qlt_bool. by rewrite E. }
    assert (back_cooldown s' = (clock s + 2)%Q) as Hbc.
    { refine (preserves_type_and_send (keeps back_cooldown) _ _ _ _ _ Hrun).
      by apply send_frame_keeps. }
    split; [done|]. split.
    + set (reply := nth (choices s (n_choices s) `mod` length BACK_TPL) BACK_TPL [])
        in Hrun.
      set (sB := set_n_choices _ _) in Hrun.
      exists reply. split; [apply back_reply_in|].
      destruct (type_and_send_unfold reply sB) as (s0 & E0 & Hw0 & _ & _ & He0).
      change (sends sB (n_sends sB)) with sc in E0.
      change (warnings sB) with (warnings s) in Hw0.
      change (entered sB) with (entered s) in He0.
      split_and!.
      * destruct (type_and_send_trace _ _ _ _ Hrun) as (k & bs & Hk & _ & _ & He & _).
        by exists k.
      * intros Hc0 Hgood. rewrite Hc0 in E0.
        destruct (good_round sc reply (pred MAX_RETRY) 0 (4 # 5) s0 Hgood)
          as (s3 & E3 & _ & _ & He & _).
        change (S (pred MAX_RETRY)) with MAX_RETRY in E3.
        rewrite E3 in E0. rewrite E0 in Hrun. injection Hrun as <- <-.
        by rewrite He, He0.
      * intros j Hc0 Hj Hall Hgood. rewrite Hc0 in E0.
        destruct (send_rounds_succeed sc reply j MAX_RETRY 0 (4 # 5) s0)
          as (s3 & E3 & Hw & _ & He); [done| |done|].
        { intros k Hk. apply Hall. lia. }
        rewrite E3 in E0. rewrite E0 in Hrun. injection Hrun as <- <-.
        by rewrite Hw, Hw0.
      * intros Hc0 Hall. rewrite Hc0 in E0.
        destruct (send_rounds_give_up sc reply MAX_RETRY 0 (4 # 5) s0)
          as (s3 & E3 & Hw & _).
        { intros k Hk. apply Hall. lia. }
        rewrite E3 in E0. rewrite E0 in Hrun. injection Hrun as <- <-.
        by rewrite Hw, Hw0.
      * intros Hc0. rewrite E0 in Hrun.
        destruct (control sc) as [[|]|]; [done|..]; by injection Hrun as <- <-.
    + intros text2 sender2 s2 Hb2 Hbc2 Hlt.
      rewrite (handle_back _ _ _ Hb2).
      destruct (Qle_bool (back_cooldown s2) (clock s2)) eqn:E2; [|done].
      apply Qle_bool_iff in E2. rewrite Hbc2, Hbc in E2. lra.
Qed.

(** *** The bot's own start announcements *)

Context `{!AsciiDigits}.

Lemma ascii_digits_decimal d : all ascii_digit d -> all isdecimal_cp d.
Proof.
  intros Hd. eapply Forall_impl; [exact Hd|]. intros c Hc. unfold isdecimal_cp.
  by rewrite (ascii_digit_value c Hc).
Qed.

Lemma noise_phrase text pre a post :
  text = pre ++ a ++ post -> a <> [] -> trimmed a ->
  (forall inp q, spans inp START_NOISE_RE (a ++ q) q) ->
  is_start_noise (strip text) = true.
Proof.
  intros -> Hne Ht Hs. destruct (strip_keeps_infix pre a post Hne Ht) as (p & q & ->).
  apply re_search_infix. intros inp. apply Hs.
Qed.

Lemma bot_phrase text pre post :
  text = pre ++ u "시작 - by" ++ post -> has_bot_phrase (strip text) = true.
Proof.
  intros ->.
  destruct (strip_keeps_infix pre (u "시작 - by") post) as (p & q & ->);
    [done|by split|].
  unfold has_bot_phrase. by rewrite py_in_app.
Qed.

(** X13.  The handler ignores every start announcement the bot can make,
    whatever the duration, the requester and the sender it is given: each
    of the three templates is caught by the phrase test or by the noise
    pattern, and the state is left as it was.  The bot cannot trigger
    itself with its own start announcement. *)
Theorem own_start_announcement_ignored (i : nat) (m : Z) (who : pystr)
    (sender : option pystr) (s : state) :
  handle_chat_item BOT_NAME
    (nth i START_TPL fmt_start_1 (py_str_of_Z (clamp_minutes m)) who) sender s
  = (Ok tt, s).
Proof.
  apply handle_filtered.
  destruct (str_minutes_digits (clamp_minutes m) (clamp_minutes_range m))
    as (Hne & Hd & _).
  set (d := py_str_of_Z _) in *.
  assert (has_bot_phrase (strip (fmt_start_1 d who)) = true) as H1.
  { apply (bot_phrase _ (u "#휴식 " ++ d ++ u "분 ") (32 :: who)).
    unfold fmt_start_1. by rewrite <- !app_assoc. }
  assert (is_start_noise (strip (fmt_start_2 d who)) = true) as H2.
  { apply (noise_phrase _ (u "⏱️ ") (d ++ u "분 쉬어요") (u "!! - " ++ who)).
    - unfold fmt_start_2. by rewrite <- !app_assoc.
    - by destruct d.
    - split.
      + destruct d as [|c d']; [done|]. inversion Hd; subst.
        by apply ascii_digit_not_space.
      + rewrite rev_app_distr. done.
    - intros inp q. right; left.
      exists (u "분 쉬어요" ++ q). split.
      { apply spans_plus. exists d. split; [by rewrite <- app_assoc|].
        split; [by apply ascii_digits_decimal|done]. }
      exists (u "분 쉬어요" ++ q). split; [by exists []|].
      exists (u " 쉬어요" ++ q). split; [by exists c_min|].
      exists (u "쉬어요" ++ q). split; [by exists [32]; split; [|repeat constructor]|].
      by apply spans_lit. }
  assert (is_start_noise (strip (fmt_start_3 d who)) = true) as H3.
  { apply (noise_phrase _ (u "휴식 " ++ d ++ u "분 ") (u "가즈아") (u "~ 🙌 - " ++ who)).
    - unfold fmt_start_3. by rewrite <- !app_assoc.
    - done.
    - by split.
    - intros inp q. right; right; left. by apply spans_lit. }
  destruct i as [|[|[|[|k]]]]; unfold START_TPL; cbn [nth];
    rewrite ?H1, ?H2, ?H3, ?orb_true_r; done.
Qed.

End Filters.

Lemma latin_ascii_digits : @AsciiDigits latin_db.
Proof. intros c Hc. simpl. by rewrite Hc. Qed.

(** ** The model on concrete inputs *)

Ltac by_run := vm_compute; reflexivity.
Ltac refute := let Hx := fresh in intros Hx; vm_compute in Hx; discriminate Hx.
Ltac all_of := repeat (constructor; try reflexivity).

(** *** C1 *)



(** *** C3 *)



(** *** C4 *)

Lemma normalize_cmd_text_families_witness :
  normalize_cmd_text (H := latin_db) (u "#휴식 10") = Ok (Some 10%Z)
  /\ normalize_cmd_text (H := latin_db) (u " 휴식 25분 ") = Ok (Some 25%Z)
  /\ normalize_cmd_text (H := latin_db) (u "#10") = Ok (Some 10%Z)
  /\ normalize_cmd_text (H := latin_db) (u "10분 뒤에 휴식") = Ok (Some 10%Z)
  /\ normalize_cmd_text (H := latin_db) (u "10") = Ok None
  /\ normalize_cmd_text (H := latin_db) (u "#20분") = Ok None.
Proof.
  split_and!.
  - apply (proj1 (@normalize_cmd_text_families latin_db latin_laws (u "#휴식 10"))
             [c_hash] [] [32] (u "10") [] []);
      [by_run|by right|all_of..|discriminate|all_of|by left|].
    apply Nat.leb_le. by_run.
  - apply (proj1 (@normalize_cmd_text_families latin_db latin_laws (u " 휴식 25분 "))
             [] [] [32] (u "25") [] [c_min]);
      [by_run|by left|all_of..|discriminate|all_of|by right|].
    apply Nat.leb_le. by_run.
  - apply (proj1 (proj2 (@normalize_cmd_text_families latin_db latin_laws (u "#10")))
             [] (u "10")); [by_run|all_of..|simpl; lia].
  - apply (proj1 (proj2 (proj2
             (@normalize_cmd_text_families latin_db latin_laws (u "10분 뒤에 휴식"))))
             (u "10") [] [32] (u "뒤에 ") KW_BREAK);
      [by_run|all_of|simpl; lia|all_of..|by left].
  - apply (proj1 (proj2 (proj2 (proj2
             (@normalize_cmd_text_families latin_db latin_laws (u "10")))))
             (u "10")); [by_run|discriminate|all_of].
  - apply (proj2 (proj2 (proj2 (proj2
             (@normalize_cmd_text_families latin_db latin_laws (u "#20분")))))
             [] (u "20") []); [by_run|all_of..|discriminate|all_of].
Defined.

(** The keyword and 4301 digits: [int] raises.  1-3 digits, the unit word,
    a filler with a line feed in it, the keyword: no match. *)
Lemma normalize_cmd_text_families_counterexample :
  let long := u "휴식 " ++ replicate 4301 49 in
  let filler := u " a" ++ [10] ++ u "b " in
  let t := u "10" ++ [c_min] ++ filler ++ KW_BREAK in
  strip long = long
  /\ normalize_cmd_text (H := latin_db) long = Raise
  /\ strip t = t
  /\ normalize_cmd_text (H := latin_db) t = Ok None.
Proof. split_and!; by_run. Qed.

(** *** C5 *)

Lemma natural_form_tolerates_tail_witness :
  normalize_cmd_text (H := latin_db) (u "10분 휴식하겠습니다") = Ok (Some 10%Z)
  /\ normalize_cmd_text (H := latin_db) (u "5분만 쉬고 올게요 ok_1") = Ok (Some 5%Z).
Proof.
  split.
  - apply (proj1 (@natural_form_tolerates_tail latin_db latin_laws
                    (u "10분 휴식하겠습니다"))
             (u "10") [] [32] [] KW_BREAK (u "하겠습니다"));
      [by_run|all_of|simpl; lia|all_of..|by left|all_of].
  - apply (proj1 (@natural_form_tolerates_tail latin_db latin_laws
                    (u "5분만 쉬고 올게요 ok_1"))
             (u "5") [] [] (u "만 ") KW_REST (u "고 올게요 ok_1"));
      [by_run|all_of|simpl; lia|all_of..|by right|all_of].
Defined.

(** The natural-language form followed by an exclamation mark: no match. *)
Lemma natural_form_tolerates_tail_counterexample :
  let t := u "10" ++ [c_min] ++ u " " ++ KW_BREAK ++ u "!" in
  strip t = t
  /\ normalize_cmd_text (H := latin_db) t = Ok None.
Proof. split; by_run. Qed.

(** *** C7 *)



(** *** C8 *)


(** *** C9 *)

(** A sentence that is no command, said again 5 seconds later. *)
Lemma same_sentence_guard_witness :
  let s := fresh 100 in
  let s' := run_handle HELLO CHEOLSU s in
  cmd_text_guard s'
  = <[text_key (H := latin_db) (strip HELLO) := 100%Q]> (cmd_text_guard s)
  /\ handle_chat_item (H := latin_db) BOT HELLO (Some YEONGHUI) (set_clock 105 s')
     = (Ok tt, set_clock 105 s').
Proof.
  intros s s'.
  destruct (same_sentence_guard (H := latin_db) BOT HELLO (Some CHEOLSU) s
              (fst (handle_chat_item (H := latin_db) BOT HELLO (Some CHEOLSU) s)) s')
    as [_ Hcold].
  - by_run.
  - apply surjective_pairing.
  - destruct Hcold as (Hrec & _ & Hnext); [refute|].
    split; [exact Hrec|]. apply Hnext; [by_run|reflexivity|by_run|by_run].
Defined.

(** [#10] at 100, 105 and 111 seconds by three people: the message at 105
    reaches the guard and nothing is recorded for it; the message at 111,
    6 seconds later, is not ignored and starts a second break. *)
Lemma same_sentence_guard_counterexample :
  let key := text_key (H := latin_db) (strip SAY_10) in
  let s100 := run_handle SAY_10 CHEOLSU (fresh 100) in
  let s105 := run_handle SAY_10 YEONGHUI (set_clock 105 s100) in
  let s111 := run_handle SAY_10 MINSU (set_clock 111 s105) in
  reaches_text_guard (H := latin_db) BOT SAY_10 (Some YEONGHUI) = true
  /\ cmd_text_guard s105 !! key = Some 100%Q
  /\ (111 - 105 < 10)%Q
  /\ cmd_text_guard s111 !! key = Some 111%Q
  /\ length (running_timers s105) = 1%nat
  /\ length (running_timers s111) = 2%nat.
Proof. vm_compute. repeat split; reflexivity. Qed.

(** *** C2 *)

(** The same bubble fetched twice in one poll and again two polls later,
    with a poll that raises in between. *)
Lemma marked_items_dispatched_once_witness :
  let b := bubble_of 1 CMD_BY_CHEOLSU true in
  let polls := [Ok [b; b]; Raise; Ok [b]] in
  let run := scan_loop (H := latin_db) BOT polls (fresh 100) in
  fst run = Ok tt
  /\ (exists new, dispatched (snd run) = dispatched (fresh 100) ++ new
                  /\ NoDup (ids new))
  /\ ids (dispatched (snd run)) = [1].
Proof.
  intros b polls run.
  destruct (marked_items_dispatched_once (H := latin_db) BOT polls (fresh 100)
              (fst run) (snd run)) as (Hr & _ & (new & Hd & Hn & _) & _).
  - apply surjective_pairing.
  - split; [exact Hr|]. split; [by exists new|by_run].
Defined.

(** *** C6 *)

(** A command that is on the page at bootstrap and is fetched again later. *)
Lemma bootstrap_items_never_dispatched_witness :
  let b := bubble_of 1 CMD_BY_CHEOLSU true in
  let s' := run_preload [b] (fresh 100) in
  dispatched s' = []
  /\ 1 ∈ seen_attr s'
  /\ 1 ∉ ids (dispatched (run_scan [Ok [b]; Ok [b]] s')).
Proof.
  intros b s'.
  destruct (bootstrap_items_never_dispatched (H := latin_db) BOT [b] (fresh 100))
    as (n & s1 & E & Hd & Hall).
  assert (s' = s1) as -> by (unfold s', run_preload; by rewrite E).
  destruct (Hall b) as [Hin Hlater]; [constructor|reflexivity|].
  destruct (Hlater s1 [Ok [b]; Ok [b]]
              (fst (scan_loop (H := latin_db) BOT [Ok [b]; Ok [b]] s1))
              (run_scan [Ok [b]; Ok [b]] s1)) as (new & E2 & Hnot);
    [done|apply surjective_pairing|].
  split; [exact Hd|]. split; [exact Hin|].
  rewrite E2, Hd. exact Hnot.
Defined.

(** C6.  Every bubble visible at bootstrap is to be ignored for good.
    Here the marking call of the bootstrap raises for the one bubble in the
    feed, a command of 철수: the bootstrap passes the bubble over and marks
    nothing, and the first scan cycle, which can read the bubble, hands it
    to the handler, which starts a break. *)
Theorem bootstrap_mark_failure_dispatched :
  let at_boot := bubble_of 1 CMD_BY_CHEOLSU false in
  let later := bubble_of 1 CMD_BY_CHEOLSU true in
  let s' := run_preload [at_boot] (fresh 100) in
  fst (preload_mark_seen (Ok [at_boot]) (fresh 100)) = Ok 0%nat
  /\ elements (seen_attr s') = []
  /\ dispatched s' = []
  /\ dispatched (run_scan [Ok [later]] s') = [(1, Some CHEOLSU, u "#휴식 10")]
  /\ (t_minutes <$> running_timers (run_scan [Ok [later]] s')) = [10%Z].
Proof. vm_compute. repeat split; reflexivity. Qed.

(** *** C10 *)

(** The bot's own announcement comes back through the feed, twice, 5
    seconds apart: the handler ignores the first, the scanner drops the
    second. *)
Lemma scanner_guards_recorded_first_witness :
  let b := bubble_of 1 ANNOUNCEMENT true in
  let b2 := bubble_of 2 ANNOUNCEMENT true in
  let s := fresh 100 in
  let s' := snd (scan_item (H := latin_db) BOT b s) in
  msg_seen s'
  = <[msg_key (H := latin_db) (item_msg (strip ANNOUNCEMENT)) := 100%Q]> (msg_seen s)
  /\ running_timers s' = []
  /\ dispatched (snd (scan_item (H := latin_db) BOT b2 (set_clock 105 s')))
     = dispatched (set_clock 105 s').
Proof.
  intros b b2 s s'.
  pose proof (scanner_guards_recorded_first (H := latin_db) BOT b ANNOUNCEMENT s
                (fst (scan_item (H := latin_db) BOT b s)) s') as Hw.
  cbv zeta in Hw.
  destruct Hw as (_ & _ & _ & _ & Hm & _ & Hlater & _).
  - unfold readable. split_and!; [reflexivity|apply not_elem_of_empty|reflexivity
                                  |reflexivity|discriminate].
  - refute.
  - refute.
  - apply surjective_pairing.
  - split; [exact Hm|]. split; [by_run|].
    apply (Hlater b2 (set_clock 105 s')
             (fst (scan_item (H := latin_db) BOT b2 (set_clock 105 s')))).
    + intros raw2 [= <-]. reflexivity.
    + by_run.
    + by_run.
    + apply surjective_pairing.
Defined.

(** ** Timers across the scanner, and bubbles that are not handed over *)

Lemma start_break_clamped m who s :
  start_break (clamp_minutes m) who s = start_break m who s.
Proof. unfold start_break. by rewrite clamp_minutes_idem. Qed.

Lemma start_break_timers m who s r s1 :
  start_break m who s = (r, s1) ->
  (running_timers s1 = running_timers s /\ r <> Ok BreakOk)
  \/ (running_timers s1 = running_timers s ++ [break_timer m who s] /\ r = Ok BreakOk).
Proof.
  intros Hrun.
  destruct (Qlt_le_dec (clock s - get_ts (minute_global_guard s) (clamp_minutes m))
              GLOBAL_MINUTE_GUARD) as [Hg|Hg].
  { rewrite start_break_refused_global in Hrun by done.
    injection Hrun as <- <-. by left. }
  apply Qle_not_lt in Hg.
  destruct (Qlt_le_dec (clock s - get_ts (cmd_guard s) (guard_key who (clamp_minutes m)))
              CMD_GUARD_TTL) as [Hu|Hu].
  { rewrite start_break_refused_user in Hrun by done.
    injection Hrun as <- <-. by left. }
  apply Qle_not_lt in Hu. rewrite start_break_passed in Hrun by done.
  destruct (type_and_send _ _) as [[[]|] s2] eqn:E;
    apply type_and_send_keeps_guards in E as (_ & _ & E);
    injection Hrun as <- <-; [right|left]; simpl; by rewrite E.
Qed.

Lemma break_timer_range m who s : (1 <= t_minutes (break_timer m who s) <= 180)%Z.
Proof. apply clamp_minutes_range. Qed.

Section Counting.
Context `{UnicodeDb}.
Variable BOT_NAME : pystr.

Lemma run_command_timers t sender s r s' :
  run_command t sender s = (r, s') ->
  running_timers s' = running_timers s
  \/ exists tm, running_timers s' = running_timers s ++ [tm]
                /\ (1 <= t_minutes tm <= 180)%Z.
Proof.
  unfold run_command.
  destruct (normalize_cmd_text t) as [[n|]|];
    [|intros [= _ <-]; by left|intros [= _ <-]; by left].
  destruct sender as [nm|]; unfold bind, sleep, time, gets, modify, ret; simpl;
    (destruct (start_break _ _ _) as [[x|] s2] eqn:E; intros [= _ <-];
     apply start_break_timers in E as [[-> _]|[-> _]];
     [by left|right; eexists; split; [done|apply break_timer_range]
     |by left|right; eexists; split; [done|apply break_timer_range]]).
Qed.

Lemma handle_timers text sender s r s' :
  handle_chat_item BOT_NAME text sender s = (r, s') ->
  running_timers s' = running_timers s
  \/ exists tm, running_timers s' = running_timers s ++ [tm]
                /\ (1 <= t_minutes tm <= 180)%Z.
Proof.
  intros Hrun.
  destruct (reaches_text_guard BOT_NAME text sender) eqn:Hr.
  - destruct (Qlt_le_dec (clock s - get_ts (cmd_text_guard s) (text_key (strip text))) 10)
      as [Hhot|Hcold].
    { rewrite handle_ignored in Hrun by done. injection Hrun as _ <-. by left. }
    apply Qle_not_lt in Hcold. rewrite handle_recorded in Hrun by done.
    by apply run_command_timers in Hrun.
  - destruct (handle_not_reaching BOT_NAME text sender s Hr) as [E|Hb].
    + rewrite E in Hrun. injection Hrun as _ <-. by left.
    + destruct (return_ack_tables _ _ _ _ _ _ Hb Hrun) as [E _].
      injection E as _ _ E. by left.
Qed.

(** Without a readable, unmarked, non-empty bubble the state is left as it
    is or gets the marker and nothing else. *)
Lemma scan_item_skipped_state b s r s' :
  scan_item BOT_NAME b s = (r, s') ->
  (forall raw, ~ readable b raw s) ->
  s' = s \/ s' = set_seen_attr ({[b_id b]} ∪ seen_attr s) s.
Proof.
  intros Hrun Hno. unfold scan_item, mark_seen in Hrun.
  destruct (b_get_attribute_ok b) eqn:Ha; simpl in Hrun;
    [|injection Hrun as <- <-; by left].
  unfold bind at 1 2 in Hrun. simpl in Hrun.
  case_bool_decide as Hid; [injection Hrun as <- <-; by left|].
  destruct (b_inner_text b) as [raw|] eqn:Hraw; simpl in Hrun;
    [|injection Hrun as <- <-; by left].
  unfold bind at 1 2 in Hrun. simpl in Hrun.
  destruct (b_mark_ok b) eqn:Hm; simpl in Hrun; [|injection Hrun as <- <-; by left].
  destruct (strip raw) as [|c0 content] eqn:Ec; simpl in Hrun.
  - injection Hrun as <- <-. by right.
  - destruct (Hno raw). unfold readable. rewrite Ec. done.
Qed.

Lemma timers_counted_same s s' :
  running_timers s' = running_timers s -> dispatched s' = dispatched s ->
  timers_counted s s'.
Proof.
  intros Ht Hd. exists [], []. rewrite !app_nil_r. by split_and!.
Qed.

Lemma timers_counted_preorder : PreOrder timers_counted.
Proof.
  split.
  - intros s. by apply timers_counted_same.
  - intros s1 s2 s3 (t1 & d1 & Ht1 & Hd1 & Hl1 & Hr1) (t2 & d2 & Ht2 & Hd2 & Hl2 & Hr2).
    exists (t1 ++ t2), (d1 ++ d2). rewrite Ht2, Ht1, Hd2, Hd1, <- !app_assoc.
    split_and!; [done|done|rewrite !length_app; lia|by apply Forall_app].
Qed.

Lemma marked_timers b raw s : running_timers (marked b raw s) = running_timers s.
Proof. unfold marked. by destruct (truthy _). Qed.

Lemma scan_item_counted b : preserves timers_counted (scan_item BOT_NAME b).
Proof.
  intros s r s' Hrun. destruct (readable_dec b s) as [[raw Hr]|Hno].
  - assert (forall Hhot : sender_msg_hot b raw s \/ msg_only_hot raw s,
               timers_counted s s') as Hsup.
    { intros Hhot. rewrite (scan_item_suppressed BOT_NAME b raw s Hr Hhot) in Hrun.
      injection Hrun as <- <-. destruct (marked_fields b raw s) as (_ & E2 & _).
      apply timers_counted_same; [apply marked_timers|done]. }
    destruct (Qlt_le_dec
      (clock s - get_ts (trigger_seen s)
         (sender_msg_key (item_sender b (strip raw)) (item_msg (strip raw))))
      SENDER_MSG_TTL) as [Hk|Hk]; [apply Hsup; by left|].
    destruct (Qlt_le_dec
      (clock s - get_ts (msg_seen s) (msg_key (item_msg (strip raw)))) MSG_ONLY_TTL)
      as [Hk2|Hk2]; [apply Hsup; by right|].
    rewrite (scan_item_dispatch BOT_NAME b raw s Hr) in Hrun by (by apply Qle_not_lt).
    pose proof (handle_keeps_scanner BOT_NAME _ _ _ _ _ Hrun) as (_ & _ & _ & Hd).
    destruct (scan_ready_fields b raw s) as (_ & E2 & _).
    assert (running_timers (scan_ready b raw s) = running_timers s) as Et
      by apply marked_timers.
    apply handle_timers in Hrun as [Ht|(tm & Ht & Hrange)].
    + exists [], [(b_id b, item_sender b (strip raw), item_msg (strip raw))].
      rewrite app_nil_r, Ht, Et, Hd, E2. split_and!; [done|done|simpl; lia|done].
    + exists [tm], [(b_id b, item_sender b (strip raw), item_msg (strip raw))].
      rewrite Ht, Et, Hd, E2. split_and!; [done|done|simpl; lia|by constructor].
  - destruct (scan_item_skipped_state b s r s' Hrun Hno) as [-> | ->];
      by apply timers_counted_same.
Qed.

Lemma scan_items_counted bs : preserves timers_counted (scan_items BOT_NAME bs).
Proof.
  pose proof timers_counted_preorder as [].
  induction bs as [|b bs IH]; simpl; [by apply preserves_ret|].
  apply preserves_bind; [done| |intros _; apply IH].
  apply preserves_try; [done|apply scan_item_counted|by apply preserves_ret].
Qed.

Lemma scan_loop_counted polls : preserves timers_counted (scan_loop BOT_NAME polls).
Proof.
  pose proof timers_counted_preorder as [].
  induction polls as [|p ps IH]; simpl; [by apply preserves_ret|].
  apply preserves_bind; [done| |intros _; apply IH].
  unfold scan_cycle. apply preserves_bind; [done| |intros _].
  - apply preserves_try; [done| |by apply preserves_ret].
    apply preserves_bind; [done|by apply preserves_page|intros bs].
    apply scan_items_counted.
  - apply preserves_sleep. intros v s. by apply timers_counted_same.
Qed.

(** X14.  Across any run of the scanner — any polls, any call raising —
    timers are only added, at the end of the list, every one of them for 1
    to 180 minutes, and no more of them than bubbles were handed to the
    handler: each handled bubble starts at most one break. *)
Theorem scanner_timers_counted (polls : list (res (list bubble))) (s : state) :
  timers_counted s (snd (scan_loop BOT_NAME polls s)).
Proof.
  apply (scan_loop_counted polls s (fst (scan_loop BOT_NAME polls s))),
    surjective_pairing.
Qed.

(** X15.  A bubble that is read but not handed over — because its text is
    empty or blank, or because one of the two scanner guards is hot — is
    marked all the same, with the guard tables of [start_break] and the
    timers untouched; it is dropped, not deferred: no later run of the
    scanner hands it to the handler, whatever its text is by then. *)
Theorem undispatched_bubbles_are_dropped (b : bubble) (raw : pystr) (s : state) :
  b_get_attribute_ok b = true -> b_id b ∉ seen_attr s ->
  b_inner_text b = Ok raw -> b_mark_ok b = true ->
  strip raw = [] \/ sender_msg_hot b raw s \/ msg_only_hot raw s ->
  exists s',
    scan_item BOT_NAME b s = (Ok tt, s')
    /\ dispatched s' = dispatched s
    /\ b_id b ∈ seen_attr s'
    /\ break_tables s' = break_tables s
    /\ forall polls s1,
        seen_attr s' ⊆ seen_attr s1 ->
        exists new,
          dispatched (snd (scan_loop BOT_NAME polls s1)) = dispatched s1 ++ new
          /\ b_id b ∉ ids new.
Proof.
  intros Ha Hid Hraw Hm Hwhy.
  assert (exists s', scan_item BOT_NAME b s = (Ok tt, s')
            /\ dispatched s' = dispatched s /\ b_id b ∈ seen_attr s'
            /\ break_tables s' = break_tables s) as (s' & Hrun & Hd & Hin & Ht).
  { destruct (strip raw) as [|c0 content] eqn:Ec.
    - exists (set_seen_attr ({[b_id b]} ∪ seen_attr s) s).
      split; [|split_and!; [done|simpl; set_solver|done]].
      unfold scan_item, mark_seen. rewrite Ha, Hraw, Hm.
      unfold bind at 1 2 3 4 5 6. simpl.
      rewrite bool_decide_eq_false_2 by done. simpl. by rewrite Ec.
    - assert (readable b raw s) as Hr.
      { unfold readable. rewrite Ec. done. }
      destruct Hwhy as [?|Hhot]; [done|].
      exists (marked b raw s). split; [by apply scan_item_suppressed|].
      destruct (marked_fields b raw s) as (E1 & E2 & _).
      split_and!; [done|rewrite E1; set_solver|].
      unfold break_tables, marked. by destruct (truthy _). }
  exists s'. split_and!; [done..|].
  intros polls s1 Hsub.
  destruct (scan_loop BOT_NAME polls s1) as [r s''] eqn:Hloop. simpl.
  destruct (scan_loop_rel BOT_NAME polls s1 r s'' Hloop) as (_ & new & Hd' & _ & Hi).
  exists new. split; [done|]. intros Hnew. apply Hi in Hnew as [Hnot _].
  by apply Hnot, Hsub.
Qed.

End Counting.

(** ** Timer tasks, the HTTP handlers, the sentence key, the bootstrap *)

Lemma discard_timer_last t l : discard_timer t (l ++ [t]) ≡ₚ l.
Proof.
  induction l as [|a l IH]; simpl.
  - by rewrite decide_True.
  - destruct (decide (a = t)) as [->|Hne].
    + symmetry. apply Permutation_cons_append.
    + by rewrite IH.
Qed.

Lemma run_timer_eq t j s :
  run_timer t j s
  = match type_and_send (t_end_text t)
            (set_clock (clock s + inject_Z (t_minutes t * 60) + j) s) with
    | (r, s2) => (r, set_running_timers (discard_timer t (running_timers s2)) s2)
    end.
Proof.
  unfold run_timer, try_finally, bind, sleep, modify, say. simpl.
  change (set_clock (clock s + inject_Z (t_minutes t * 60) + j)
            (set_clock (clock s + inject_Z (t_minutes t * 60)) s))
    with (set_clock (clock s + inject_Z (t_minutes t * 60) + j) s).
  by destruct (type_and_send _ _) as [[[]|] s2].
Qed.

(** X16.  A timer task always leaves the set of running timers, whether
    its end announcement is sent, given up or raises (the [finally]
    clause); a timer that [start_break] has just added leaves the timers as
    they were before.  The task enters nothing but its end announcement,
    not before the break is over: the time of the last successful send is
    left as it is or is at least 60 seconds per minute, plus the jitter,
    after the start of the task.  The task raises exactly when the look-up
    of the chat input raises. *)
Theorem timer_always_leaves (t : timer) (j : Q) (s : state) :
  running_timers (snd (run_timer t j s)) = discard_timer t (running_timers s)
  /\ (forall l, running_timers s = l ++ [t] ->
                running_timers (snd (run_timer t j s)) ≡ₚ l)
  /\ (exists k, (k <= MAX_RETRY)%nat
                /\ entered (snd (run_timer t j s))
                   = entered s ++ replicate k (t_end_text t))
  /\ (last_send_ts (snd (run_timer t j s)) = last_send_ts s
      \/ (clock s + inject_Z (t_minutes t * 60) + j
          <= last_send_ts (snd (run_timer t j s)))%Q)
  /\ (fst (run_timer t j s) = Raise <-> control (sends s (n_sends s)) = Raise).
Proof.
  rewrite run_timer_eq.
  set (s0 := set_clock _ s).
  destruct (type_and_send (t_end_text t) s0) as [r s2] eqn:E. simpl.
  pose proof (type_and_send_keeps_guards _ _ _ _ E) as (_ & _ & Ht).
  assert (running_timers s2 = running_timers s) as Ht' by exact Ht.
  rewrite Ht'. split; [done|]. split.
  { intros l ->. apply discard_timer_last. }
  split.
  { destruct (type_and_send_trace _ _ _ _ E) as (k & bs & Hk & _ & _ & He & _).
    by exists k. }
  split.
  { destruct (type_and_send_paced _ _ _ _ E) as [_ [Hl|(_ & _ & Hl & _)]];
      [by left|by right]. }
  destruct (type_and_send_waits (t_end_text t) s0) as (s1 & E1 & _).
  change (sends s0 (n_sends s0)) with (sends s (n_sends s)) in E1.
  rewrite E in E1. split.
  - intros ->. destruct (control _) as [[|]|]; [|discriminate E1|done].
    destruct (send_rounds_returns (sends s (n_sends s)) (t_end_text t) MAX_RETRY 0
                (4 # 5) s1) as (s' & E').
    rewrite E' in E1. discriminate E1.
  - intros Hc. rewrite Hc in E1. by injection E1 as -> _.
Qed.

Section ApiProps.
Context `{UnicodeDb}.

(** X17.  [/command] answers "no match" for a text the normaliser does
    not accept and leaves the bot alone; when the normaliser raises, so
    does the handler, and the bot is left alone.  For a text it accepts, it calls
    [start_break] with the clamped number of minutes for the requester
    ["API"], without any of the filters of the chat handler, and
    acknowledges the break with that number whatever [start_break]
    answers: also when a guard refused the break and no timer was
    started. *)
Theorem api_command_acknowledges (text : pystr) (s : state) :
  (normalize_cmd_text text = Ok None ->
   api_command text s = (Ok (RespRejected "no-match-or-ignored"), s))
  /\ (normalize_cmd_text text = Raise -> api_command text s = (Raise, s))
  /\ (forall n, normalize_cmd_text text = Ok (Some n) ->
      (1 <= clamp_minutes n <= 180)%Z
      /\ (global_guard_hot n s ->
          api_command text s = (Ok (RespBreak (clamp_minutes n)), s))
      /\ (~ global_guard_hot n s -> user_guard_hot n API s ->
          fst (api_command text s) = Ok (RespBreak (clamp_minutes n))
          /\ running_timers (snd (api_command text s)) = running_timers s
          /\ entered (snd (api_command text s)) = entered s)
      /\ (~ global_guard_hot n s -> ~ user_guard_hot n API s ->
          control (sends s (n_sends s)) <> Raise ->
          fst (api_command text s) = Ok (RespBreak (clamp_minutes n))
          /\ running_timers (snd (api_command text s))
             = running_timers s ++ [break_timer n API s])).
Proof.
  unfold api_command. split; [by intros ->|]. split; [by intros ->|]. intros n ->.
  split; [apply clamp_minutes_range|]. cbv zeta. unfold bind.
  rewrite start_break_clamped. split_and!.
  - intros Hg. by rewrite start_break_refused_global.
  - intros Hg Hu. by rewrite start_break_refused_user.
  - intros Hg Hu Hc. rewrite start_break_passed by done.
    destruct (type_and_send_returns (start_text n API s) (guards_passed n API s))
      as (s' & E); [done|].
    rewrite E. simpl. split; [done|].
    apply type_and_send_keeps_guards in E as (_ & _ & E). by rewrite E.
Qed.

End ApiProps.



(** *** The key of the same-sentence guard *)

Lemma collapse_from_spaces ws : forall run y,
  ws <> [] -> all isspace_cp ws ->
  collapse_from run (ws ++ y) = (if run then [] else [32]) ++ collapse_from true y.
Proof.
  induction ws as [|c ws IH]; intros run y Hne Hall; [done|].
  inversion Hall as [|? ? Hc Hall']; subst. simpl. rewrite Hc.
  destruct ws as [|c' ws'].
  - simpl. by destruct run.
  - rewrite (IH true y) by done. by destruct run.
Qed.

Lemma collapse_from_app x : forall run,
  exists run', forall z,
    collapse_from run (x ++ z) = collapse_from run x ++ collapse_from run' z.
Proof.
  induction x as [|c x IH]; intros run; [by exists run|]. simpl.
  destruct (isspace_cp c).
  - destruct (IH true) as (run' & E). exists run'. intros z. rewrite E.
    by destruct run.
  - destruct (IH false) as (run' & E). exists run'. intros z. by rewrite E.
Qed.

Lemma collapse_true_stops s : stops isspace_cp (collapse_from true s).
Proof.
  induction s as [|c s IH]; simpl; [done|].
  by destruct (isspace_cp c) eqn:E.
Qed.

Lemma collapse_from_idem s : forall run,
  collapse_from false (collapse_from run s) = collapse_from run s.
Proof.
  induction s as [|c s IH]; intros run; simpl; [done|].
  destruct (isspace_cp c) eqn:E.
  - destruct run; [apply IH|]. simpl.
    pose proof (collapse_true_stops s) as Hs. rewrite <- (IH true) at 2.
    destruct (collapse_from true s) as [|d r]; [done|]. simpl in *. by rewrite Hs.
  - simpl. by rewrite E, IH.
Qed.

Section SentenceKey.
Context `{UnicodeDb}.

(** X20.  The key of the same-sentence guard does not see how much white
    space a run of white space holds, nor which: two texts whose
    lower-cased forms differ in one run of white space have the same key
    and so share the guard entry.  Collapsing is idempotent. *)
Theorem text_key_ignores_spacing (x y ws1 ws2 : pystr) :
  ws1 <> [] -> ws2 <> [] -> all isspace_cp ws1 -> all isspace_cp ws2 ->
  collapse_ws (x ++ ws1 ++ y) = collapse_ws (x ++ ws2 ++ y)
  /\ (forall t1 t2,
        py_lower t1 = x ++ ws1 ++ y -> py_lower t2 = x ++ ws2 ++ y ->
        text_key t1 = text_key t2)
  /\ (forall t, collapse_ws (text_key t) = text_key t).
Proof.
  intros Hn1 Hn2 H1 H2.
  assert (collapse_ws (x ++ ws1 ++ y) = collapse_ws (x ++ ws2 ++ y)) as E.
  { unfold collapse_ws. destruct (collapse_from_app x false) as (run' & E').
    rewrite !E'. by rewrite !collapse_from_spaces. }
  split; [done|]. split.
  - intros t1 t2 E1 E2. unfold text_key. by rewrite E1, E2.
  - intros t. unfold text_key, collapse_ws. apply collapse_from_idem.
Qed.

End SentenceKey.

(** *** The bootstrap *)

Lemma set_seen_attr_same s : set_seen_attr (seen_attr s) s = s.
Proof. by destruct s. Qed.

Lemma preload_marks_exact bs : forall cnt s,
  preload_marks bs cnt s
  = (Ok (cnt + length (filter (fun b => b_mark_ok b = true) bs))%nat,
     set_seen_attr
       (list_to_set (b_id <$> filter (fun b => b_mark_ok b = true) bs) ∪ seen_attr s) s).
Proof.
  induction bs as [|b bs IH]; intros cnt s.
  - simpl. rewrite Nat.add_0_r. unfold ret.
    rewrite (left_id_L ∅ (∪)). by rewrite set_seen_attr_same.
  - simpl. unfold bind at 1, try_except, mark_seen, bind at 1 2.
    destruct (b_mark_ok b) eqn:Hm; simpl.
    + rewrite IH, filter_cons_True by done. simpl.
      rewrite Nat.add_succ_r. f_equal.
      change (set_seen_attr ?v (set_seen_attr ?w s)) with (set_seen_attr v s).
      f_equal. set_solver.
    + rewrite IH, filter_cons_False by (by rewrite Hm). done.
Qed.

(** X21.  The bootstrap changes nothing but the markers: it marks exactly
    the bubbles whose marking call returned, and the number it prints is
    the number of those calls.  The query for the bubbles is not protected:
    when it raises, the bootstrap raises. *)
Theorem preload_marks_exactly (bs : list bubble) (s : state) :
  preload_mark_seen (Ok bs) s
  = (Ok (length (filter (fun b => b_mark_ok b = true) bs)),
     set_seen_attr
       (list_to_set (b_id <$> filter (fun b => b_mark_ok b = true) bs) ∪ seen_attr s) s)
  /\ preload_mark_seen Raise s = (Raise, s).
Proof.
  split; [|done]. unfold preload_mark_seen, bind. simpl. apply preload_marks_exact.
Qed.

(** ** From a bubble to a break *)

Lemma split_lf_no_lf s : 10 ∉ s -> split_lf s = [s].
Proof.
  induction s as [|c s IH]; simpl; [done|]. intros Hn.
  apply not_elem_of_cons in Hn as [Hc Hs].
  destruct (N.eqb_spec c 10) as [->|_]; [done|]. by rewrite IH.
Qed.

Lemma split_lf_app name rest :
  10 ∉ name -> split_lf (name ++ 10 :: rest) = name :: split_lf rest.
Proof.
  induction name as [|c name IH]; simpl; [done|]. intros Hn.
  apply not_elem_of_cons in Hn as [Hc Hs].
  destruct (N.eqb_spec c 10) as [->|_]; [done|]. by rewrite IH.
Qed.

Lemma split_content_two_lines name cmd :
  10 ∉ name -> 10 ∉ cmd -> name <> [] -> cmd <> [] ->
  trimmed name -> trimmed cmd -> name_like name = true ->
  split_content (name ++ 10 :: cmd) = (Some name, cmd).
Proof.
  intros H1 H2 Hn Hc Ht1 Ht2 Hnl. unfold split_content.
  rewrite split_lf_app, split_lf_no_lf by done. simpl.
  rewrite !strip_fixed by done.
  assert (filter (fun p : pystr => negb (is_empty p) = true) [name; cmd] = [name; cmd])
    as ->.
  { rewrite filter_cons_True by (by destruct name).
    by rewrite filter_cons_True by (by destruct cmd). }
  simpl. by rewrite Hnl.
Qed.

Section Bubble.
Context `{UnicodeDb}.
Variable BOT_NAME : pystr.

(** X22.  From a bubble to a break.  A new bubble whose trimmed text is a
    name on one line and a command on the next is split into that sender
    and that message; with the scanner guards and the same-sentence guard
    cold and the message through the filters, the scanner runs
    [start_break] for the clamped number of minutes the normaliser reads,
    in the name of that sender, after all three guards have recorded the
    message. *)
Theorem two_line_bubble_starts_break (b : bubble) (raw name cmd : pystr) (n : Z)
    (s : state) :
  readable b raw s -> strip raw = name ++ 10 :: cmd ->
  10 ∉ name -> 10 ∉ cmd -> name <> [] -> cmd <> [] ->
  trimmed name -> trimmed cmd -> name_like name = true ->
  ~ sender_msg_hot b raw s -> ~ msg_only_hot raw s ->
  reaches_text_guard BOT_NAME cmd (Some name) = true ->
  ~ text_guard_hot cmd (scan_ready b raw s) ->
  normalize_cmd_text cmd = Ok (Some n) ->
  item_sender b (strip raw) = Some name
  /\ item_msg (strip raw) = cmd
  /\ scan_item BOT_NAME b s
     = (start_break (clamp_minutes n) name ;;; ret tt)
         (set_cmd_text_guard
            (<[text_key cmd := clock s]> (cmd_text_guard s)) (scan_ready b raw s)).
Proof.
  intros Hr Hraw H1 H2 Hn Hc Ht1 Ht2 Hnl Hk Hk2 Hreach Hcold Hnorm.
  pose proof (split_content_two_lines name cmd H1 H2 Hn Hc Ht1 Ht2 Hnl) as Hsplit.
  assert (item_sender b (strip raw) = Some name) as Es.
  { unfold item_sender. rewrite Hraw, Hsplit. cbn [fst].
    destruct name; [by destruct Hn|reflexivity]. }
  assert (item_msg (strip raw) = cmd) as Em.
  { unfold item_msg. by rewrite Hraw, Hsplit. }
  split; [done|]. split; [done|].
  rewrite (scan_item_dispatch BOT_NAME b raw s Hr Hk Hk2). rewrite Es, Em.
  pose proof (strip_fixed cmd Ht2) as Ec.
  assert (clock (scan_ready b raw s) = clock s) as Eclk.
  { unfold scan_ready, marked. by destruct (truthy _). }
  assert (cmd_text_guard (scan_ready b raw s) = cmd_text_guard s) as Etg.
  { unfold scan_ready, marked. by destruct (truthy _). }
  rewrite (handle_recorded BOT_NAME cmd (Some name) (scan_ready b raw s) Hreach Hcold).
  unfold run_command. rewrite Ec, Hnorm, Eclk, Etg.
  destruct name; [by destruct Hn|reflexivity].
Qed.

End Bubble.

(** ** The further properties on concrete inputs *)


(** *** The normaliser *)

Lemma normalize_cmd_text_exact_witness :
  (exists ds,
      command_form (H := latin_db) (strip NATURAL_10) ds
      /\ (length ds <= 4300)%nat
      /\ 10%Z = digits_value (H := latin_db) ds)
  /\ normalize_cmd_text (H := latin_db) (u "휴식 " ++ replicate 4301 49) = Raise.
Proof.
  split.
  - apply (proj1 (proj1 (@normalize_cmd_text_exact latin_db latin_laws NATURAL_10) 10%Z)).
    by_run.
  - apply (proj2 (proj1 (proj2 (@normalize_cmd_text_exact latin_db latin_laws
                                  (u "휴식 " ++ replicate 4301 49))))).
    exists (replicate 4301 49). split.
    + exists [], [], [32], [], []. split; [by_run|].
      split_and!; [by left|all_of|all_of| |discriminate|all_of|by left].
      apply Forall_forall. by intros c [-> _]%elem_of_replicate.
    + apply Nat.ltb_lt. by_run.
Defined.

(** *** The sender of a bubble *)

Lemma attributed_sender_is_a_name_witness :
  CHEOLSU <> [] /\ strip CHEOLSU = CHEOLSU /\ (length CHEOLSU <= 32)%nat
  /\ py_prefix [c_hash] CHEOLSU = false /\ py_in [c_min] CHEOLSU = false
  /\ py_in KW_BREAK CHEOLSU = false
  /\ normalize_cmd_text (H := latin_db) CHEOLSU = Ok None.
Proof.
  apply (@attributed_sender_is_a_name latin_db latin_laws
           (bubble_of 1 CMD_BY_CHEOLSU true) CMD_BY_CHEOLSU CHEOLSU).
  by_run.
Defined.

(** The announcement under the default name of the bot: the name is not
    split off as a sender. *)
Lemma self_echo_test_never_fires_witness :
  is_self_echo BOT
    (item_sender (bubble_of 1 (BOT ++ 10 :: ANNOUNCEMENT) true) (BOT ++ 10 :: ANNOUNCEMENT))
  = false.
Proof. apply self_echo_test_never_fires. by_run. Defined.

(** *** The send arbiter *)


(** *** The guards of [start_break] *)



(** *** The handler *)

Lemma own_start_announcement_ignored_witness :
  handle_chat_item (H := latin_db) BOT
    (nth 1 START_TPL fmt_start_1 (py_str_of_Z (clamp_minutes 10)) CHEOLSU)
    (Some CHEOLSU) (fresh 100)
  = (Ok tt, fresh 100).
Proof.
  exact (@own_start_announcement_ignored latin_db BOT latin_ascii_digits
           1 10 CHEOLSU (Some CHEOLSU) (fresh 100)).
Defined.

Lemma handler_breaks_only_on_commands_witness :
  reaches_text_guard (H := latin_db) BOT SAY_10 (Some CHEOLSU) = true
  /\ ~ text_guard_hot (H := latin_db) SAY_10 (fresh 100)
  /\ exists n, normalize_cmd_text (H := latin_db) (strip SAY_10) = Ok (Some n).
Proof.
  apply (handler_breaks_only_on_commands (H := latin_db) BOT SAY_10 (Some CHEOLSU)
           (fresh 100)).
  intros Heq. apply (f_equal (fun x => length (snd x))) in Heq.
  vm_compute in Heq. discriminate Heq.
Defined.

(** A command without a sender, 10 seconds after a bubble of 철수, and
    31 seconds after it. *)
Lemma break_requester_resolution_witness :
  let s := set_recent_sender (Some (CHEOLSU, 90%Q)) (fresh 100) in
  let s31 := set_recent_sender (Some (CHEOLSU, 69%Q)) (fresh 100) in
  handle_chat_item (H := latin_db) BOT SAY_10 None s
  = (start_break 10 CHEOLSU ;;; ret tt)
      (set_clock (clock s + (1 # 4))
         (set_cmd_text_guard
            (<[text_key (H := latin_db) (strip SAY_10) := clock s]> (cmd_text_guard s)) s))
  /\ handle_chat_item (H := latin_db) BOT SAY_10 None s31
     = (start_break 10 (u "누군가") ;;; ret tt)
         (set_clock (clock s31 + (1 # 4))
            (set_cmd_text_guard
               (<[text_key (H := latin_db) (strip SAY_10) := clock s31]>
                  (cmd_text_guard s31)) s31)).
Proof.
  intros s s31. split.
  - apply (break_requester_resolution (H := latin_db) BOT SAY_10 None s 10);
      [by_run|refute|by_run].
  - apply (break_requester_resolution (H := latin_db) BOT SAY_10 None s31 10);
      [by_run|refute|by_run].
Defined.

Lemma return_ack_rate_limited_witness :
  let s' := run_handle RETURNED CHEOLSU (fresh 100) in
  break_tables s' = break_tables (fresh 100)
  /\ (exists reply, reply ∈ BACK_TPL /\ entered s' = [reply])
  /\ handle_chat_item (H := latin_db) BOT RETURNED (Some YEONGHUI) (set_clock 101 s')
     = (Ok tt, set_clock 101 s').
Proof.
  intros s'.
  pose proof (return_ack_rate_limited (H := latin_db) BOT RETURNED (Some CHEOLSU)
                (fresh 100) ltac:(by_run)) as Hw.
  cbv zeta in Hw. destruct Hw as (Ht & _ & _ & Hgo).
  destruct Hgo as (_ & (reply & Hin & _ & Hfirst & _) & Hnext); [refute|].
  split; [exact Ht|]. split.
  - exists reply. split; [exact Hin|]. apply Hfirst; reflexivity.
  - apply Hnext; [by_run|reflexivity|by_run].
Defined.

(** *** The scanner *)

Lemma undispatched_bubbles_are_dropped_witness :
  exists s',
    scan_item (H := latin_db) BOT (empty_bubble 7) (fresh 100) = (Ok tt, s')
    /\ dispatched s' = dispatched (fresh 100)
    /\ 7 ∈ seen_attr s'
    /\ break_tables s' = break_tables (fresh 100)
    /\ forall polls s1,
        seen_attr s' ⊆ seen_attr s1 ->
        exists new,
          dispatched (snd (scan_loop (H := latin_db) BOT polls s1)) = dispatched s1 ++ new
          /\ 7 ∉ ids new.
Proof.
  apply (undispatched_bubbles_are_dropped (H := latin_db) BOT (empty_bubble 7) [32; 10]
           (fresh 100));
    [reflexivity|apply not_elem_of_empty|reflexivity|reflexivity|left; by_run].
Defined.

Lemma two_line_bubble_starts_break_witness :
  let b := bubble_of 1 CMD_BY_CHEOLSU true in
  let s := fresh 100 in
  let cmd := u "#휴식 10" in
  item_sender b (strip CMD_BY_CHEOLSU) = Some CHEOLSU
  /\ item_msg (strip CMD_BY_CHEOLSU) = cmd
  /\ scan_item (H := latin_db) BOT b s
     = (start_break (clamp_minutes 10) CHEOLSU ;;; ret tt)
         (set_cmd_text_guard
            (<[text_key (H := latin_db) cmd := clock s]> (cmd_text_guard s))
            (scan_ready (H := latin_db) b CMD_BY_CHEOLSU s)).
Proof.
  intros b s cmd.
  apply (two_line_bubble_starts_break (H := latin_db) BOT b CMD_BY_CHEOLSU CHEOLSU cmd 10 s).
  - unfold readable. split_and!; [reflexivity|apply not_elem_of_empty|reflexivity
                                  |reflexivity|discriminate].
  - by_run.
  - apply (bool_decide_eq_true_1 _). by_run.
  - apply (bool_decide_eq_true_1 _). by_run.
  - discriminate.
  - discriminate.
  - split; by_run.
  - split; by_run.
  - by_run.
  - refute.
  - refute.
  - by_run.
  - refute.
  - by_run.
Defined.

(** *** The HTTP handlers *)


(** *** The sentence key *)

Lemma text_key_ignores_spacing_witness :
  collapse_ws (u "10분 휴식") = collapse_ws (u "10분" ++ [32; 9; 32] ++ u "휴식").
Proof.
  apply (proj1 (text_key_ignores_spacing (H := latin_db) (u "10분") (u "휴식")
                  [32] [32; 9; 32] ltac:(discriminate) ltac:(discriminate)
                  ltac:(all_of) ltac:(all_of))).
Defined.
